(** * transform_xml.py: the coordinate transform of XML files and file names

    A shallow embedding of [src/transform_xml.py] and the properties its
    specification states about it.

    Modelling conventions.
    - A Python [str] is a [list ascii]; a character is a code point below
      256.  On these code points the class [\d] of the [re] module is
      exactly ['0'..'9'].
    - A Python [int] is a [Z] (unbounded).  The conversions between [int]
      and decimal [str] raise [ValueError] beyond CPython's limit of 4300
      digits ([sys.set_int_max_str_digits], which the program leaves at its
      default).
    - A call that may raise returns a [result]: [Ok v] or [Raise e]. *)

From Stdlib Require Import ZArith NArith List Ascii Bool Lia Arith.
From Stdlib Require String.
Import String.StringSyntax.
From Stdlib Require Import Decimal DecimalFacts DecimalPos DecimalN DecimalZ.
Import ListNotations.

#[local] Open Scope Z_scope.
#[local] Open Scope list_scope.

(** ** Strings, exceptions *)

Definition str := list ascii.

(** A string literal of the source. *)
Definition lit (s : String.string) : str := String.list_ascii_of_string s.
Delimit Scope string_scope with string.
Arguments lit s%_string.

Inductive exn : Type :=
| ValueError (msg : str)
| TypeError (msg : str)
| OSError (msg : str)
| UnicodeDecodeError (msg : str).

Inductive result (A : Type) : Type :=
| Ok (a : A)
| Raise (e : exn).
Arguments Ok {A} a.
Arguments Raise {A} e.

Definition bind {A B : Type} (m : result A) (f : A -> result B) : result B :=
  match m with
  | Ok a => f a
  | Raise e => Raise e
  end.

Notation "x <- m ;; k" := (bind m (fun x => k))
  (at level 61, m at next level, right associativity).

(** ** The builtins [int], [str] and the format specification [03d] *)

Module Py.

Definition is_digit (c : ascii) : bool :=
  let n := nat_of_ascii c in (48 <=? n)%nat && (n <=? 57)%nat.

(** One decimal digit in front of the digits already read. *)
Definition push_digit (c : ascii) (u : uint) : option uint :=
  match c with
  | "0" => Some (D0 u) | "1" => Some (D1 u) | "2" => Some (D2 u)
  | "3" => Some (D3 u) | "4" => Some (D4 u) | "5" => Some (D5 u)
  | "6" => Some (D6 u) | "7" => Some (D7 u) | "8" => Some (D8 u)
  | "9" => Some (D9 u)
  | _ => None
  end%char.

Fixpoint uint_of_digits (s : str) : option uint :=
  match s with
  | [] => Some Nil
  | c :: s' =>
      match uint_of_digits s' with
      | Some u => push_digit c u
      | None => None
      end
  end.

Fixpoint digits_of_uint (u : uint) : str :=
  match u with
  | Nil => []
  | D0 u => "0"%char :: digits_of_uint u
  | D1 u => "1"%char :: digits_of_uint u
  | D2 u => "2"%char :: digits_of_uint u
  | D3 u => "3"%char :: digits_of_uint u
  | D4 u => "4"%char :: digits_of_uint u
  | D5 u => "5"%char :: digits_of_uint u
  | D6 u => "6"%char :: digits_of_uint u
  | D7 u => "7"%char :: digits_of_uint u
  | D8 u => "8"%char :: digits_of_uint u
  | D9 u => "9"%char :: digits_of_uint u
  end.

(** The value of a non-empty run of decimal digits; leading zeros are
    allowed, as in [int("023") == 23]. *)
Definition magnitude (s : str) : option Z :=
  match s with
  | [] => None
  | _ =>
      match uint_of_digits s with
      | Some u => Some (Z.of_uint u)
      | None => None
      end
  end.

Definition invalid_literal (s : str) : exn :=
  ValueError (lit "invalid literal for int() with base 10: " ++ s).

(** The integer an optional sign followed by one or more decimal digits
    denotes, however long the numeral: [int(s)] as it answers once
    [sys.set_int_max_str_digits(0)] has switched the limit on conversions
    off.  The other forms [int] accepts (surrounding blanks, underscores
    between digits) never reach it in this program and are answered by the
    [ValueError] here. *)
Definition int_unlimited (s : str) : result Z :=
  match s with
  | "-"%char :: ds =>
      match magnitude ds with
      | Some v => Ok (- v)
      | None => Raise (invalid_literal s)
      end
  | "+"%char :: ds =>
      match magnitude ds with
      | Some v => Ok v
      | None => Raise (invalid_literal s)
      end
  | _ =>
      match magnitude s with
      | Some v => Ok v
      | None => Raise (invalid_literal s)
      end
  end.

(** The decimal digits of a natural number, without leading zeros. *)
Definition digits (n : N) : str := digits_of_uint (N.to_uint n).

(** The decimal numeral of [z]: a [-] if negative, then the digits. *)
Definition decimal (z : Z) : str :=
  if z <? 0 then "-"%char :: digits (Z.abs_N z) else digits (Z.abs_N z).

(** The field the format specification [03d] writes for [z]: the sign if
    negative, then the digits, with zeros between the two until the whole
    field is 3 characters wide. *)
Definition padded_03d (z : Z) : str :=
  let ds := digits (Z.abs_N z) in
  if z <? 0
  then "-"%char :: repeat "0"%char (2 - length ds) ++ ds
  else repeat "0"%char (3 - length ds) ++ ds.

(** *** The limit on conversions between [int] and [str]

    CPython (3.11 and later, and the security releases of the earlier
    versions) refuses to convert between an [int] and a decimal [str] of
    more than [sys.get_int_max_str_digits()] digits.  The program never
    changes this setting, so the default holds. *)

(** [sys.int_info.default_max_str_digits] *)
Definition max_str_digits : nat := 4300.

(** The [ValueError] of a conversion beyond the limit.  The interpreter's
    message goes on after these words (with the number of digits, when it
    is [int] that refuses, and with advice); that part is left out. *)
Definition limit_exceeded : exn :=
  ValueError
    (lit "Exceeds the limit (4300 digits) for integer string conversion").

(** The digits at the head of a string. *)
Fixpoint leading_digits (s : str) : nat :=
  match s with
  | c :: s' => if is_digit c then S (leading_digits s') else 0%nat
  | [] => 0%nat
  end.

(** The digits [int] counts against the limit: those after the sign,
    leading zeros included. *)
Definition digit_count (s : str) : nat :=
  match s with
  | "-"%char :: ds => leading_digits ds
  | "+"%char :: ds => leading_digits ds
  | _ => leading_digits s
  end.

(** [int(s)]: the digits are counted before their value is computed. *)
Definition int (s : str) : result Z :=
  if (digit_count s <=? max_str_digits)%nat
  then int_unlimited s
  else Raise limit_exceeded.

(** [str(z)], which is also what [f"{z}"] inserts: the digits are counted,
    without the sign, before the string is built. *)
Definition str_of_int (z : Z) : result str :=
  if (length (digits (Z.abs_N z)) <=? max_str_digits)%nat
  then Ok (decimal z)
  else Raise limit_exceeded.

(** [format(z, "03d")], which is what [f"{z:03d}"] inserts: the digits are
    converted as by [str], and then filled with zeros. *)
Definition format_03d (z : Z) : result str :=
  if (length (digits (Z.abs_N z)) <=? max_str_digits)%nat
  then Ok (padded_03d z)
  else Raise limit_exceeded.

(** Decimal digits that do not begin with a zero. *)
Definition head_nonzero (u : uint) : bool :=
  match u with
  | Nil | D0 _ => false
  | _ => true
  end.

(** Decimal digits without leading zeros: ["0"] itself, or digits that do
    not begin with a zero. *)
Definition normal (u : uint) : bool :=
  match u with
  | D0 Nil => true
  | _ => head_nonzero u
  end.

End Py.

(** ** The part of the [re] module the program uses *)

Module Re.

(** Regular expressions: ordinary characters, [\d], greedy [?] and [+],
    concatenation, numbered capturing groups and the anchor [$]. *)
Inductive regex : Type :=
| Chr (c : ascii)
| Digit
| Opt (r : regex)
| Plus (r : regex)
| Seq (r1 r2 : regex)
| Group (n : nat) (r : regex)
| EndAnchor
| Empty.

(** A run of ordinary characters. *)
Fixpoint chars (w : str) : regex :=
  match w with
  | [] => Empty
  | c :: w' => Seq (Chr c) (chars w')
  end.

(** The text captured by each group that took part in the match. *)
Definition groups := list (nat * str).

Definition outcome := option (str * groups).

(** One more round of [r+]: [step] matches [r] once; after it, another
    round is tried first when the match consumed something, and then the
    continuation [k].  [n] bounds the number of rounds by the length of the
    string. *)
Fixpoint plus_loop (step : str -> groups -> (str -> groups -> outcome) -> outcome)
    (k : str -> groups -> outcome) (n : nat) (s : str) (g : groups)
    {struct n} : outcome :=
  step s g (fun s' g' =>
    match n with
    | O => k s' g'
    | S n' =>
        if (length s' <? length s)%nat
        then match plus_loop step k n' s' g' with
             | Some m => Some m
             | None => k s' g'
             end
        else k s' g'
    end).

(** The backtracking matcher, in continuation-passing style: [exec r s g k]
    matches [r] at the head of [s] and hands the rest of the string and the
    captures to [k]; when [k] fails, the next alternative of [r] is tried.
    Greedy operators try the longer alternative first.  [$] holds at the end
    of the string and just before a line feed that ends the string. *)
Fixpoint exec (r : regex) (s : str) (g : groups)
    (k : str -> groups -> outcome) {struct r} : outcome :=
  match r with
  | Chr c =>
      match s with
      | c' :: s' => if Ascii.eqb c c' then k s' g else None
      | [] => None
      end
  | Digit =>
      match s with
      | c' :: s' => if Py.is_digit c' then k s' g else None
      | [] => None
      end
  | Opt r' =>
      match exec r' s g k with
      | Some m => Some m
      | None => k s g
      end
  | Plus r' => plus_loop (exec r') k (length s) s g
  | Seq r1 r2 => exec r1 s g (fun s' g' => exec r2 s' g' k)
  | Group n r' =>
      exec r' s g (fun s' g' =>
        k s' ((n, firstn (length s - length s') s) :: g'))
  | EndAnchor =>
      match s with
      | [] => k s g
      | [c] => if Ascii.eqb c "010"%char then k s g else None
      | _ => None
      end
  | Empty => k s g
  end.

(** A match at the head of [s]: what follows the match, and the captures. *)
Definition match_here (r : regex) (s : str) : outcome :=
  exec r s [] (fun s' g => Some (s', g)).

(** The match object: where the match starts, its text, its groups. *)
Record Match : Type := mkMatch {
  m_start : nat;
  m_text : str;
  m_groups : groups
}.

(** [m.start()] *)
Definition start (m : Match) : nat := m_start m.

(** [m.group(n)]; [None] is Python's [None] for a group that did not take
    part. *)
Definition group (m : Match) (n : nat) : option str :=
  match n with
  | O => Some (m_text m)
  | _ =>
      match find (fun e => Nat.eqb (fst e) n) (m_groups m) with
      | Some e => Some (snd e)
      | None => None
      end
  end.

Definition match_at (r : regex) (pos : nat) (s : str) : option (Match * str) :=
  match match_here r s with
  | Some (rest, g) =>
      Some (mkMatch pos (firstn (length s - length rest) s) g, rest)
  | None => None
  end.

(** [re.search]: the leftmost position at which the pattern matches. *)
Fixpoint search_from (r : regex) (pos : nat) (s : str) : option Match :=
  match match_at r pos s with
  | Some (m, _) => Some m
  | None =>
      match s with
      | [] => None
      | _ :: s' => search_from r (S pos) s'
      end
  end.

Definition search (r : regex) (s : str) : option Match := search_from r 0 s.

(** [re.sub] with a function as replacement: the string is scanned from
    left to right; a match is replaced by what the function returns and the
    scan goes on after it; a character at which nothing matches is copied.
    An empty match is replaced and the next character copied.  The first
    exception of the function ends the call.  [fuel] bounds the number of
    steps; [sub] gives one more than the length of the string, which is
    enough ([sub_loop_fuel]). *)
Fixpoint sub_loop (fuel : nat) (r : regex) (repl : Match -> result str)
    (pos : nat) (s : str) : result str :=
  match fuel with
  | O => Ok s
  | S fuel' =>
      match match_at r pos s with
      | Some (m, rest) =>
          new <- repl m ;;
          if (length rest <? length s)%nat
          then tail <- sub_loop fuel' r repl (pos + (length s - length rest)) rest ;;
               Ok (new ++ tail)
          else match s with
               | [] => Ok new
               | c :: s' =>
                   tail <- sub_loop fuel' r repl (S pos) s' ;;
                   Ok (new ++ c :: tail)
               end
      | None =>
          match s with
          | [] => Ok []
          | c :: s' =>
              tail <- sub_loop fuel' r repl (S pos) s' ;;
              Ok (c :: tail)
          end
      end
  end.

Definition sub (r : regex) (repl : Match -> result str) (s : str) : result str :=
  sub_loop (S (length s)) r repl 0%nat s.

End Re.

(** ** The program *)

Definition transform_coordinate (value : Z) : Z := - value + 25.

(** [int(x)] for what [m.group(n)] returned. *)
Definition int_of_group (x : option str) : result Z :=
  match x with
  | Some s => Py.int s
  | None => Raise (TypeError (lit "int() argument must be a string, not 'NoneType'"))
  end.

(** [x[1:]] for what [m.group(n)] returned. *)
Definition from_1 (x : option str) : result str :=
  match x with
  | Some s => Ok (skipn 1 s)
  | None => Raise (TypeError (lit "'NoneType' object is not subscriptable"))
  end.

(** [r'<X_COORD>(-?\d+)</X_COORD>'] *)
Definition x_coord_pattern : Re.regex :=
  Re.Seq (Re.chars (lit "<X_COORD>"))
    (Re.Seq (Re.Group 1 (Re.Seq (Re.Opt (Re.Chr "-")) (Re.Plus Re.Digit)))
       (Re.chars (lit "</X_COORD>"))).

(** [r'<Y_COORD>(-?\d+)</Y_COORD>'] *)
Definition y_coord_pattern : Re.regex :=
  Re.Seq (Re.chars (lit "<Y_COORD>"))
    (Re.Seq (Re.Group 1 (Re.Seq (Re.Opt (Re.Chr "-")) (Re.Plus Re.Digit)))
       (Re.chars (lit "</Y_COORD>"))).

Definition replace_x_coord (m : Re.Match) : result str :=
  value <- int_of_group (Re.group m 1) ;;
  let new_value := transform_coordinate value in
  text <- Py.str_of_int new_value ;;
  Ok (lit "<X_COORD>" ++ text ++ lit "</X_COORD>").

Definition replace_y_coord (m : Re.Match) : result str :=
  value <- int_of_group (Re.group m 1) ;;
  let new_value := transform_coordinate value in
  text <- Py.str_of_int new_value ;;
  Ok (lit "<Y_COORD>" ++ text ++ lit "</Y_COORD>").

Definition transform_xml_content (content : str) : result str :=
  content <- Re.sub x_coord_pattern replace_x_coord content ;;
  content <- Re.sub y_coord_pattern replace_y_coord content ;;
  Ok content.

(** [r'(-\d+)(-\d+)(\.xml)$'] *)
Definition filename_pattern : Re.regex :=
  Re.Seq (Re.Group 1 (Re.Seq (Re.Chr "-") (Re.Plus Re.Digit)))
    (Re.Seq (Re.Group 2 (Re.Seq (Re.Chr "-") (Re.Plus Re.Digit)))
       (Re.Seq (Re.Group 3 (Re.chars (lit ".xml"))) Re.EndAnchor)).

Definition transform_filename (filename : str) : result str :=
  match Re.search filename_pattern filename with
  | Some m =>
      let x_str := Re.group m 1 in
      let y_str := Re.group m 2 in
      let extension := Re.group m 3 in
      x_digits <- from_1 x_str ;;
      x_value <- Py.int x_digits ;;
      y_digits <- from_1 y_str ;;
      y_value <- Py.int y_digits ;;
      let new_x := transform_coordinate x_value in
      let new_y := transform_coordinate y_value in
      let base_name := firstn (Re.start m) filename in
      x_field <- Py.format_03d new_x ;;
      y_field <- Py.format_03d new_y ;;
      Ok (base_name ++ lit "-" ++ x_field ++ lit "-" ++ y_field
            ++ match extension with Some e => e | None => lit "None" end)
  | None => Ok filename
  end.

(** ** The batch driver

    The file system is a [world] the program reaches only through the four
    [pathlib] calls it makes; each of them may raise and may change the
    world.  What [print] writes is kept as a list of [line]s.  The handler
    [except Exception] receives every [exn] of this model. *)

Module Batch.

Inductive line : Type :=
| NoFilesFound (input_dir : str)
| Found (count : nat)
| Converted (old_name new_name : str)
| Failed (name : str) (e : exn)
| Completed (output_dir : str).

Section Driver.

Variable world : Type.
Variable mkdir : str -> world -> result unit * world.
Variable glob_xml : str -> world -> result (list str) * world.
Variable read_text : str -> str -> world -> result str * world.
Variable write_text : str -> str -> str -> world -> result unit * world.

Record state : Type := mkState {
  the_world : world;
  console : list line
}.

(** Computations that read and change the state and may raise. *)
Definition M (A : Type) : Type := state -> result A * state.

Definition ret {A : Type} (a : A) : M A := fun st => (Ok a, st).

Definition bindM {A B : Type} (m : M A) (f : A -> M B) : M B :=
  fun st =>
    match m st with
    | (Ok a, st') => f a st'
    | (Raise e, st') => (Raise e, st')
    end.

Definition pure {A : Type} (r : result A) : M A := fun st => (r, st).

Definition on_world {A : Type} (op : world -> result A * world) : M A :=
  fun st =>
    let (r, w) := op (the_world st) in (r, mkState w (console st)).

Definition print (l : line) : M unit :=
  fun st => (Ok tt, mkState (the_world st) (console st ++ [l])).

(** [try: body  except Exception as e: handler(e)] *)
Definition try_except (body : M unit) (handler : exn -> M unit) : M unit :=
  fun st =>
    match body st with
    | (Ok tt, st') => (Ok tt, st')
    | (Raise e, st') => handler e st'
    end.

(** [for x in xs: body(x)]; an exception that leaves the body ends the
    loop. *)
Fixpoint for_each {A : Type} (xs : list A) (body : A -> M unit) : M unit :=
  match xs with
  | [] => ret tt
  | x :: xs' => bindM (body x) (fun _ => for_each xs' body)
  end.

Notation "x <~ m ;; k" := (bindM m (fun x => k))
  (at level 61, m at next level, right associativity).
Notation "m ;;; k" := (bindM m (fun _ => k))
  (at level 61, right associativity).

(** The body of the [try] statement for one file. *)
Definition convert (input_dir output_dir xml_file : str) : M unit :=
  content <~ on_world (read_text input_dir xml_file) ;;
  new_content <~ pure (transform_xml_content content) ;;
  new_filename <~ pure (transform_filename xml_file) ;;
  on_world (write_text output_dir new_filename new_content) ;;;
  print (Converted xml_file new_filename).

(** The [for] loop of [process_xml_files], with its [try] statement. *)
Definition convert_all (input_dir output_dir : str) (xml_files : list str)
  : M unit :=
  for_each xml_files (fun xml_file =>
    try_except (convert input_dir output_dir xml_file)
      (fun e => print (Failed xml_file e))).

Definition process_xml_files (input_dir output_dir : str) : M unit :=
  on_world (mkdir output_dir) ;;;
  xml_files <~ on_world (glob_xml input_dir) ;;
  match xml_files with
  | [] => print (NoFilesFound input_dir)
  | _ =>
      print (Found (length xml_files)) ;;;
      convert_all input_dir output_dir xml_files ;;;
      print (Completed output_dir)
  end.

(** The line that reports on a file: its conversion, or its failure. *)
Definition reports (xml_file : str) (l : line) : Prop :=
  (exists new_name : str, l = Converted xml_file new_name) \/
  (exists e : exn, l = Failed xml_file e).

(** Every file of the list is attempted in turn, from the state the files
    before it left; the exception of a failed attempt is put on the console
    with the name of the file, and the next file is attempted. *)
Inductive attempted (input_dir output_dir : str)
  : list str -> state -> state -> Prop :=
| attempted_nil (st : state) : attempted input_dir output_dir [] st st
| attempted_converted (f : str) (fs : list str) (st st1 st2 : state) :
    convert input_dir output_dir f st = (Ok tt, st1) ->
    attempted input_dir output_dir fs st1 st2 ->
    attempted input_dir output_dir (f :: fs) st st2
| attempted_failed (f : str) (fs : list str) (e : exn) (st st1 st2 : state) :
    convert input_dir output_dir f st = (Raise e, st1) ->
    attempted input_dir output_dir fs
      (mkState (the_world st1) (console st1 ++ [Failed f e])) st2 ->
    attempted input_dir output_dir (f :: fs) st st2.

End Driver.

Arguments mkState {world} _ _.
Arguments the_world {world} _.
Arguments console {world} _.

(** A small file system for examples: the input directory holds names with
    what reading each gives, the output directory names with contents. *)
Record disk : Type := mkDisk {
  input_files : list (str * result str);
  output_files : list (str * str)
}.

Definition same_name (a b : str) : bool :=
  if list_eq_dec ascii_dec a b then true else false.

Definition disk_mkdir (dir : str) (d : disk) : result unit * disk :=
  (Ok tt, d).

Definition disk_glob (dir : str) (d : disk) : result (list str) * disk :=
  (Ok (map fst (input_files d)), d).

Definition disk_read (dir name : str) (d : disk) : result str * disk :=
  match find (fun e => same_name name (fst e)) (input_files d) with
  | Some e => (snd e, d)
  | None => (Raise (OSError (lit "No such file or directory")), d)
  end.

Definition disk_write (dir name content : str) (d : disk)
  : result unit * disk :=
  (Ok tt,
   mkDisk (input_files d)
     ((name, content)
        :: filter (fun e => negb (same_name name (fst e))) (output_files d))).

(** The scenario of the specification: two files that can be read and one
    whose reading raises. *)
Definition scenario_disk : disk :=
  mkDisk
    [ (lit "lot 25-023-010.xml",
       Ok (lit "<X_COORD>23</X_COORD><Y_COORD>10</Y_COORD>"));
      (lit "lot 25-024-010.xml",
       Raise (UnicodeDecodeError (lit "invalid start byte")));
      (lit "notes.xml", Ok (lit "<r/>")) ]
    [].

(** A directory with one file, whose content holds a numeral of 4301
    digits. *)
Definition big_disk : disk :=
  mkDisk
    [ (lit "big-1-2.xml",
       Ok (lit "<X_COORD>" ++ repeat "1"%char 4301 ++ lit "</X_COORD>")) ]
    [].

Definition scenario_run : result unit * state disk :=
  process_xml_files disk disk_mkdir disk_glob disk_read disk_write
    (lit "in") (lit "out") (mkState scenario_disk []).

End Batch.

(** ** What the patterns match, written out

    The functions below say directly, without the matcher, what the three
    patterns of the program match; [ReFacts] proves that the matcher agrees
    with them. *)

(** [s] without its prefix [w], when it has it. *)
Fixpoint strip_prefix (w s : str) : option str :=
  match w, s with
  | [], _ => Some s
  | c :: w', c' :: s' => if Ascii.eqb c c' then strip_prefix w' s' else None
  | _ :: _, [] => None
  end.

(** The longest run of digits at the head of [s], and what follows. *)
Fixpoint span_digits (s : str) : str * str :=
  match s with
  | c :: s' =>
      if Py.is_digit c
      then let (ds, rest) := span_digits s' in (c :: ds, rest)
      else ([], s)
  | [] => ([], [])
  end.

(** A string that does not begin with a digit. *)
Definition no_digit_ahead (s : str) : Prop :=
  match s with
  | c :: _ => Py.is_digit c = false
  | [] => True
  end.

(** One or more digits at the head of [s]. *)
Definition digits_here (s : str) : option (str * str) :=
  match span_digits s with
  | ([], _) => None
  | (ds, rest) => Some (ds, rest)
  end.

(** [-?\d+] at the head of [s]: the numeral and what follows. *)
Definition numeral_here (s : str) : option (str * str) :=
  match s with
  | c :: s' =>
      if Ascii.eqb "-" c
      then match digits_here s' with
           | Some (ds, rest) => Some (c :: ds, rest)
           | None => None
           end
      else digits_here s
  | [] => None
  end.

(** One or more digits. *)
Definition is_digits (s : str) : bool :=
  match s with
  | [] => false
  | _ => forallb Py.is_digit s
  end.

(** An optional [-] and one or more digits. *)
Definition is_numeral (s : str) : bool :=
  match s with
  | c :: s' => if Ascii.eqb "-" c then is_digits s' else is_digits s
  | [] => false
  end.

Definition open_tag (tag : str) : str := "<"%char :: tag ++ lit ">".
Definition close_tag (tag : str) : str := "<"%char :: "/"%char :: tag ++ lit ">".

(** [<TAG>(-?\d+)</TAG>] for any tag name. *)
Definition coord_pattern (tag : str) : Re.regex :=
  Re.Seq (Re.chars (open_tag tag))
    (Re.Seq (Re.Group 1 (Re.Seq (Re.Opt (Re.Chr "-")) (Re.Plus Re.Digit)))
       (Re.chars (close_tag tag))).

(** A tagged numeral. *)
Definition field (tag num : str) : str := open_tag tag ++ num ++ close_tag tag.

(** The inside of a field, after its first [<]. *)
Definition inside (tag num : str) : str :=
  (tag ++ lit ">") ++ num ++ close_tag tag.

(** The replacement function for any tag name. *)
Definition replace_coord (tag : str) (m : Re.Match) : result str :=
  value <- int_of_group (Re.group m 1) ;;
  let new_value := transform_coordinate value in
  text <- Py.str_of_int new_value ;;
  Ok (field tag text).

(** One pass of [re.sub] for one tag. *)
Definition sub_tag (tag : str) (s : str) : result str :=
  Re.sub (coord_pattern tag) (replace_coord tag) s.

(** The replacement function and the pass as they would run with the limit
    on conversions switched off ([sys.set_int_max_str_digits(0)]). *)
Definition replace_coord_unlimited (tag : str) (m : Re.Match) : result str :=
  match Re.group m 1 with
  | Some num =>
      value <- Py.int_unlimited num ;;
      let new_value := transform_coordinate value in
      Ok (field tag (Py.decimal new_value))
  | None =>
      Raise (TypeError (lit "int() argument must be a string, not 'NoneType'"))
  end.

Definition sub_tag_unlimited (tag : str) (s : str) : result str :=
  Re.sub (coord_pattern tag) (replace_coord_unlimited tag) s.

(** A tagged numeral at the head of [s]: the numeral and what follows the
    closing tag. *)
Definition coord_here (tag : str) (s : str) : option (str * str) :=
  match strip_prefix (open_tag tag) s with
  | Some s1 =>
      match numeral_here s1 with
      | Some (num, s2) =>
          match strip_prefix (close_tag tag) s2 with
          | Some rest => Some (num, rest)
          | None => None
          end
      | None => None
      end
  | None => None
  end.

(** What a call returned, or [otherwise] when it raised. *)
Definition returned {A : Type} (r : result A) (otherwise : A) : A :=
  match r with
  | Ok a => a
  | Raise _ => otherwise
  end.

(** Without the limit a pass never raises
    ([TagFacts.sub_tag_unlimited_total]), so it is a function from strings
    to strings: what the pass of the program returns, when it returns
    ([LimitFacts.sub_tag_limit]). *)
Definition rewrite_tag (tag s : str) : str :=
  returned (sub_tag_unlimited tag s) s.

Definition X := lit "X_COORD".
Definition Y := lit "Y_COORD".

Definition rewrite_content (s : str) : str := rewrite_tag Y (rewrite_tag X s).

(** The size of a number: how many decimal digits it has. *)
Definition size (z : Z) : nat := length (Py.digits (Z.abs_N z)).

(** The value of a numeral. *)
Definition value_of (num : str) : Z := returned (Py.int_unlimited num) 0.

(** A numeral the replacement function converts within the limit: neither
    the numeral nor its transformed value has more digits than the limit. *)
Definition numeral_within_limit (num : str) : bool :=
  (Py.digit_count num <=? Py.max_str_digits)%nat
  && (size (transform_coordinate (value_of num)) <=? Py.max_str_digits)%nat.

(** Every numeral of [s] with this tag, wherever it stands, converts within
    the limit. *)
Fixpoint tag_within_limit (tag s : str) : bool :=
  match coord_here tag s with
  | Some (num, _) => numeral_within_limit num
  | None => true
  end
  && match s with
     | [] => true
     | _ :: s' => tag_within_limit tag s'
     end.

(** Every tagged numeral of [s] converts within the limit. *)
Definition fields_within_limit (s : str) : bool :=
  tag_within_limit X s && tag_within_limit Y s.

(** The result of a call that returns [a] when its conversions stay within
    the limit, and raises the [ValueError] of the limit when they do not. *)
Definition limited {A : Type} (within : bool) (a : A) : result A :=
  if within then Ok a else Raise Py.limit_exceeded.

(** The value of decimal digits read from the left, [acc] being the value
    of the digits already read. *)
Fixpoint horner (acc : N) (u : uint) : N :=
  match u with
  | Nil => acc
  | D0 u => horner (10 * acc) u
  | D1 u => horner (10 * acc + 1) u
  | D2 u => horner (10 * acc + 2) u
  | D3 u => horner (10 * acc + 3) u
  | D4 u => horner (10 * acc + 4) u
  | D5 u => horner (10 * acc + 5) u
  | D6 u => horner (10 * acc + 6) u
  | D7 u => horner (10 * acc + 7) u
  | D8 u => horner (10 * acc + 8) u
  | D9 u => horner (10 * acc + 9) u
  end%N.

(** A numeral as [str] writes it: no [-0], no leading zeros. *)
Definition canonical (num : str) : bool :=
  match num with
  | c :: ds =>
      if Ascii.eqb "-" c
      then is_digits ds
           && match ds with d :: _ => negb (Ascii.eqb "0" d) | [] => false end
      else is_digits num
           && match ds with [] => true | _ => negb (Ascii.eqb "0" c) end
  | [] => false
  end.

(** No tag that begins with [t0] opens inside [w], whatever follows [w]:
    no [<] of [w] is followed by [t0], and [w] does not end with [<]. *)
Fixpoint free_of (t0 : ascii) (w : str) : bool :=
  match w with
  | [] => true
  | c :: w' =>
      (if Ascii.eqb "<" c
       then match w' with
            | c2 :: _ => negb (Ascii.eqb t0 c2)
            | [] => false
            end
       else true)
      && free_of t0 w'
  end.

(** Every tagged numeral of [s], wherever it stands, is canonical. *)
Fixpoint fields_canonical (s : str) : bool :=
  match coord_here X s with
  | Some (num, _) => canonical num
  | None => true
  end
  && match coord_here Y s with
     | Some (num, _) => canonical num
     | None => true
     end
  && match s with
     | [] => true
     | _ :: s' => fields_canonical s'
     end.

(** The content rewriter in the words of the specification: from left to
    right, every tagged numeral is replaced by the same tag pair around the
    decimal string of the transformed integer, and every other character is
    kept. *)
Inductive rewritten : str -> str -> Prop :=
| rewritten_nil : rewritten [] []
| rewritten_field (tag num rest rest' : str) (v : Z) :
    In tag [X; Y] ->
    is_numeral num = true ->
    Py.int_unlimited num = Ok v ->
    rewritten rest rest' ->
    rewritten (field tag num ++ rest)
      (field tag (Py.decimal (transform_coordinate v)) ++ rest')
| rewritten_char (c : ascii) (s s' : str) :
    (forall tag num rest : str,
        In tag [X; Y] -> is_numeral num = true ->
        c :: s <> field tag num ++ rest) ->
    rewritten s s' ->
    rewritten (c :: s) (c :: s').

(** No tagged numeral stands anywhere in [s]. *)
Fixpoint no_field (s : str) : bool :=
  match coord_here X s, coord_here Y s with
  | None, None =>
      match s with
      | [] => true
      | _ :: s' => no_field s'
      end
  | _, _ => false
  end.

(** The content rewriter applied twice. *)
Definition rewrite_twice (s : str) : result str :=
  content <- transform_xml_content s ;; transform_xml_content content.

(** A file name that ends in the suffix: a prefix, a dash and a run of
    digits, a dash and a run of digits, [.xml], and then [tail]. *)
Definition suffixed (prefix x_run y_run tail : str) : str :=
  prefix ++ "-"%char :: x_run ++ "-"%char :: y_run ++ lit ".xml" ++ tail.

(** The captures of a match of the file-name pattern. *)
Definition suffix_groups (x_run y_run : str) : Re.groups :=
  [(3%nat, lit ".xml"); (2%nat, "-"%char :: y_run); (1%nat, "-"%char :: x_run)].

(** The text of a match of the file-name pattern. *)
Definition suffix_text (x_run y_run : str) : str :=
  "-"%char :: x_run ++ "-"%char :: y_run ++ lit ".xml".

(** The number of dashes of a string. *)
Definition dashes (s : str) : nat := count_occ ascii_dec s "-"%char.

(** [$]: the end of the string, or a line feed that ends it. *)
Definition at_end (s : str) : bool :=
  match s with
  | [] => true
  | [c] => Ascii.eqb c "010"%char
  | _ => false
  end.

(** The file-name pattern at the head of [s]: the two digit runs and what
    follows [.xml]. *)
Definition suffix_here (s : str) : option (str * str * str) :=
  match s with
  | c :: s1 =>
      if Ascii.eqb "-" c
      then match digits_here s1 with
           | Some (x_run, c2 :: s2) =>
               if Ascii.eqb "-" c2
               then match digits_here s2 with
                    | Some (y_run, s3) =>
                        match strip_prefix (lit ".xml") s3 with
                        | Some e => if at_end e then Some (x_run, y_run, e) else None
                        | None => None
                        end
                    | None => None
                    end
               else None
           | _ => None
           end
      else None
  | [] => None
  end.

(** Some suffix of [s] is a dash and digits, a dash and digits, and [.xml]:
    the name ends in the suffix. *)
Fixpoint ends_in_suffix (s : str) : bool :=
  match suffix_here s with
  | Some (_, _, []) => true
  | _ =>
      match s with
      | [] => false
      | _ :: s' => ends_in_suffix s'
      end
  end.

(** The file-name pattern matches somewhere in [s]. *)
Fixpoint suffix_anywhere (s : str) : bool :=
  match suffix_here s with
  | Some _ => true
  | None =>
      match s with
      | [] => false
      | _ :: s' => suffix_anywhere s'
      end
  end.

(** The file-name rewriter applied twice. *)
Definition rename_twice (filename : str) : result str :=
  new_filename <- transform_filename filename ;; transform_filename new_filename.

(** A name with canonically padded coordinates. *)
Definition padded_name (prefix : str) (x y : Z) : str :=
  prefix ++ lit "-" ++ Py.padded_03d x ++ lit "-" ++ Py.padded_03d y
    ++ lit ".xml".

(** A character of a numeral: a digit or the minus sign. *)
Definition numeric (c : ascii) : bool := Py.is_digit c || Ascii.eqb "-" c.

(** The string without its digits and minus signs. *)
Definition skeleton (s : str) : str := filter (fun c => negb (numeric c)) s.

(** No [<] in the string. *)
Definition no_lt (s : str) : bool :=
  forallb (fun c => negb (Ascii.eqb "<" c)) s.

(** The string begins with a [<] that does not begin a closing tag. *)
Definition at_opening (w : str) : bool :=
  match w with
  | c1 :: c2 :: _ => Ascii.eqb "<" c1 && negb (Ascii.eqb c2 "/")
  | _ => false
  end.

(** The coordinates of a document: the tag and the value of every tagged
    numeral, in the order in which they stand. *)
Fixpoint coordinates (s : str) : list (str * Z) :=
  match coord_here X s, coord_here Y s with
  | Some (num, _), _ => [(X, value_of num)]
  | None, Some (num, _) => [(Y, value_of num)]
  | None, None => []
  end
  ++ match s with
     | [] => []
     | _ :: s' => coordinates s'
     end.

(** The coordinate transformer on a tagged value. *)
Definition transform_tagged (tv : str * Z) : str * Z :=
  (fst tv, transform_coordinate (snd tv)).

(** * Properties *)

Lemma bind_ok {A B : Type} (a : A) (f : A -> result B) : bind (Ok a) f = f a.
Proof. reflexivity. Qed.

(** ** The builtins *)

Module PyFacts.
Import Py.

Lemma push_digit_is_digit (c : ascii) (u : uint) :
  is_digit c = true -> exists u', push_digit c u = Some u'.
Proof.
  destruct c as [[|] [|] [|] [|] [|] [|] [|] [|]]; vm_compute; intros H;
    try discriminate H; eexists; reflexivity.
Qed.

Lemma push_digit_inv (c : ascii) (u u' : uint) :
  push_digit c u = Some u' ->
  is_digit c = true /\ digits_of_uint u' = c :: digits_of_uint u.
Proof.
  destruct c as [[|] [|] [|] [|] [|] [|] [|] [|]]; simpl; intros H;
    try discriminate H; injection H as <-; split; reflexivity.
Qed.

Lemma uint_of_digits_total (s : str) :
  forallb is_digit s = true -> exists u, uint_of_digits s = Some u.
Proof.
  induction s as [|c s IH]; simpl; intros H.
  - exists Nil. reflexivity.
  - apply andb_true_iff in H as [Hc Hs].
    destruct (IH Hs) as [u ->]. apply push_digit_is_digit, Hc.
Qed.

Lemma uint_of_digits_inv (s : str) (u : uint) :
  uint_of_digits s = Some u ->
  forallb is_digit s = true /\ digits_of_uint u = s.
Proof.
  revert u. induction s as [|c s IH]; simpl; intros u H.
  - injection H as <-. split; reflexivity.
  - destruct (uint_of_digits s) as [u0|] eqn:E; [|discriminate H].
    destruct (IH u0 eq_refl) as [Hs Hu].
    apply push_digit_inv in H as [Hc H]. rewrite Hc, Hs, H, Hu.
    split; reflexivity.
Qed.

Lemma uint_of_digits_of_uint (u : uint) :
  uint_of_digits (digits_of_uint u) = Some u.
Proof.
  induction u; simpl; rewrite ?IHu; reflexivity.
Qed.

Lemma digits_of_uint_is_digit (u : uint) :
  forallb is_digit (digits_of_uint u) = true.
Proof.
  induction u; simpl; auto.
Qed.

Lemma digits_of_uint_nil (u : uint) : digits_of_uint u = [] -> u = Nil.
Proof.
  destruct u; simpl; intros H; try discriminate H; reflexivity.
Qed.

Lemma digits_nonempty (n : N) : digits n <> [].
Proof.
  unfold digits. intros H. apply digits_of_uint_nil in H.
  destruct n as [|p]; simpl in H; [discriminate H|].
  exact (DecimalPos.Unsigned.to_uint_nonnil p H).
Qed.

Lemma digits_is_digit (n : N) : forallb is_digit (digits n) = true.
Proof.
  apply digits_of_uint_is_digit.
Qed.

Lemma magnitude_digits (n : N) : magnitude (digits n) = Some (Z.of_N n).
Proof.
  unfold magnitude. pose proof (digits_nonempty n) as Hne.
  destruct (digits n) as [|c ds] eqn:E; [contradiction|].
  rewrite <- E. unfold digits. rewrite uint_of_digits_of_uint.
  unfold Z.of_uint. change (Pos.of_uint (N.to_uint n)) with (N.of_uint (N.to_uint n)).
  rewrite DecimalN.Unsigned.of_to. reflexivity.
Qed.

(** A run of digits has a magnitude, and it is not negative. *)
Lemma magnitude_total (ds : str) :
  ds <> [] -> forallb is_digit ds = true ->
  exists v, magnitude ds = Some v /\ 0 <= v.
Proof.
  intros Hne Hd. destruct (uint_of_digits_total ds Hd) as [u Hu].
  unfold magnitude. destruct ds as [|c ds']; [contradiction|].
  rewrite Hu. eexists; split; [reflexivity|].
  unfold Z.of_uint. apply N2Z.is_nonneg.
Qed.

Lemma digit_not_sign (c : ascii) :
  is_digit c = true -> c <> "-"%char /\ c <> "+"%char /\ c <> "<"%char.
Proof.
  destruct c as [[|] [|] [|] [|] [|] [|] [|] [|]]; vm_compute; intros H;
    try discriminate H; repeat split; discriminate.
Qed.

(** [int_unlimited] on a run of digits is its magnitude. *)
Lemma int_digits (ds : str) (v : Z) :
  forallb is_digit ds = true -> magnitude ds = Some v ->
  int_unlimited ds = Ok v.
Proof.
  intros Hd Hm. destruct ds as [|c ds]; [discriminate Hm|].
  simpl in Hd. apply andb_true_iff in Hd as [Hc _].
  apply digit_not_sign in Hc as (H1 & H2 & _).
  unfold int_unlimited. rewrite Hm.
  destruct c as [[|] [|] [|] [|] [|] [|] [|] [|]]; try reflexivity;
    congruence.
Qed.

Lemma int_minus_digits (ds : str) (v : Z) :
  magnitude ds = Some v -> int_unlimited ("-"%char :: ds) = Ok (- v).
Proof.
  intros Hm. unfold int_unlimited. rewrite Hm. reflexivity.
Qed.

(** The decimal numeral of [z] denotes [z]. *)
Lemma int_unlimited_decimal (z : Z) : int_unlimited (decimal z) = Ok z.
Proof.
  unfold decimal. destruct (z <? 0) eqn:E.
  - rewrite (int_minus_digits _ _ (magnitude_digits _)).
    apply Z.ltb_lt in E. f_equal. rewrite N2Z.inj_abs_N. lia.
  - rewrite (int_digits _ _ (digits_is_digit _) (magnitude_digits _)).
    apply Z.ltb_ge in E. f_equal. rewrite N2Z.inj_abs_N. lia.
Qed.

(** *** Canonical numerals *)

Lemma nzhead_no_D0 (d d' : uint) : nzhead d <> D0 d'.
Proof.
  induction d; simpl; try discriminate. exact IHd.
Qed.

Lemma unorm_normal (u : uint) : unorm u = u <-> normal u = true.
Proof.
  split.
  - destruct u; try reflexivity; unfold unorm; simpl.
    + discriminate.
    + destruct (nzhead u) eqn:E; intros H; try discriminate H;
        try (exfalso; exact (nzhead_no_D0 u u (eq_trans E H))).
      injection H as <-. reflexivity.
  - destruct u; try discriminate; try reflexivity.
    destruct u; try discriminate. reflexivity.
Qed.

Lemma to_uint_normal (n : N) : normal (N.to_uint n) = true.
Proof.
  apply unorm_normal. rewrite <- DecimalN.Unsigned.to_of.
  rewrite DecimalN.Unsigned.of_to. reflexivity.
Qed.

Lemma to_uint_head_nonzero (n : N) :
  n <> 0%N -> head_nonzero (N.to_uint n) = true.
Proof.
  intros Hn. pose proof (to_uint_normal n) as H.
  destruct (N.to_uint n) as [|u| | | | | | | | |] eqn:E; try reflexivity;
    try discriminate H.
  destruct u; try discriminate H. exfalso. apply Hn.
  rewrite <- (DecimalN.Unsigned.of_to n), E. reflexivity.
Qed.

Lemma of_uint_head_nonzero (u : uint) :
  head_nonzero u = true -> N.of_uint u <> 0%N.
Proof.
  intros H E. assert (Hn : normal u = true) by (destruct u; try discriminate H; reflexivity).
  apply unorm_normal in Hn. rewrite <- DecimalN.Unsigned.to_of, E in Hn.
  rewrite <- Hn in H. discriminate H.
Qed.

Lemma canonical_digits_of_uint (u : uint) :
  canonical (digits_of_uint u) = normal u.
Proof.
  destruct u; simpl; rewrite ?digits_of_uint_is_digit; try reflexivity;
    try (destruct (digits_of_uint u); reflexivity).
  destruct u; reflexivity.
Qed.

Lemma canonical_minus_digits_of_uint (u : uint) :
  canonical ("-"%char :: digits_of_uint u) = head_nonzero u.
Proof.
  destruct u; simpl; rewrite ?digits_of_uint_is_digit; reflexivity.
Qed.

Lemma is_digits_inv (ds : str) :
  is_digits ds = true -> exists u, u <> Nil /\ ds = digits_of_uint u.
Proof.
  intros H. assert (Hd : forallb is_digit ds = true)
    by (destruct ds; [discriminate H|exact H]).
  destruct (uint_of_digits_total ds Hd) as [u Hu].
  apply uint_of_digits_inv in Hu as [_ Hu]. exists u. split; [|auto].
  intros ->. subst ds. discriminate H.
Qed.

Lemma int_of_digits (u : uint) :
  u <> Nil -> int_unlimited (digits_of_uint u) = Ok (Z.of_N (N.of_uint u)).
Proof.
  intros Hu. apply int_digits; [apply digits_of_uint_is_digit|].
  unfold magnitude. rewrite uint_of_digits_of_uint.
  destruct (digits_of_uint u) eqn:E; [|reflexivity].
  apply digits_of_uint_nil in E. contradiction.
Qed.

Lemma int_of_minus_digits (u : uint) :
  u <> Nil ->
  int_unlimited ("-"%char :: digits_of_uint u) = Ok (- Z.of_N (N.of_uint u)).
Proof.
  intros Hu. apply int_minus_digits.
  unfold magnitude. rewrite uint_of_digits_of_uint.
  destruct (digits_of_uint u) eqn:E; [|reflexivity].
  apply digits_of_uint_nil in E. contradiction.
Qed.

Lemma digits_of_to_uint (u : uint) :
  normal u = true -> digits (N.of_uint u) = digits_of_uint u.
Proof.
  intros H. unfold digits. rewrite DecimalN.Unsigned.to_of.
  apply unorm_normal in H. rewrite H. reflexivity.
Qed.

(** A canonical numeral is the decimal numeral of what it denotes. *)
Lemma decimal_int_unlimited (num : str) (v : Z) :
  canonical num = true -> int_unlimited num = Ok v -> decimal v = num.
Proof.
  intros Hc Hv. destruct num as [|c ds]; [discriminate Hc|].
  unfold canonical in Hc. destruct (Ascii.eqb "-" c) eqn:E.
  - apply Ascii.eqb_eq in E. subst c.
    apply andb_true_iff in Hc as [Hd Hh].
    destruct (is_digits_inv ds Hd) as (u & Hu & ->).
    assert (Hz : head_nonzero u = true).
    { rewrite <- canonical_minus_digits_of_uint. unfold canonical.
      rewrite Ascii.eqb_refl, Hd, Hh. reflexivity. }
    rewrite (int_of_minus_digits u Hu) in Hv. injection Hv as <-.
    pose proof (of_uint_head_nonzero u Hz) as Hn.
    unfold decimal.
    replace (- Z.of_N (N.of_uint u) <? 0) with true
      by (symmetry; apply Z.ltb_lt; lia).
    rewrite Zabs2N.inj_opp, Zabs2N.id. f_equal.
    apply digits_of_to_uint. destruct u; try discriminate Hz; reflexivity.
  - pose proof Hc as Hc'. apply andb_true_iff in Hc' as [Hd _].
    destruct (is_digits_inv _ Hd) as (u & Hu & Eu). rewrite Eu in *.
    assert (Hz : normal u = true).
    { rewrite <- canonical_digits_of_uint, <- Eu. unfold canonical.
      rewrite E. rewrite Eu. exact Hc. }
    rewrite (int_of_digits u Hu) in Hv. injection Hv as <-.
    unfold decimal.
    replace (Z.of_N (N.of_uint u) <? 0) with false
      by (symmetry; apply Z.ltb_ge; lia).
    rewrite Zabs2N.id. apply digits_of_to_uint, Hz.
Qed.

Lemma canonical_decimal (z : Z) : canonical (decimal z) = true.
Proof.
  unfold decimal, digits. destruct (z <? 0) eqn:E.
  - rewrite canonical_minus_digits_of_uint. apply to_uint_head_nonzero.
    apply Z.ltb_lt in E. lia.
  - rewrite canonical_digits_of_uint. apply to_uint_normal.
Qed.

Lemma canonical_is_numeral (num : str) :
  canonical num = true -> is_numeral num = true.
Proof.
  destruct num as [|c ds]; [discriminate|]. unfold canonical, is_numeral.
  destruct (Ascii.eqb "-" c); intros H; apply andb_true_iff in H as [H _];
    exact H.
Qed.

Lemma is_numeral_decimal (z : Z) : is_numeral (decimal z) = true.
Proof.
  apply canonical_is_numeral, canonical_decimal.
Qed.

(** *** Zero-filled fields *)

Lemma uint_of_digits_zero_fill (k : nat) (ds : str) (u : uint) :
  uint_of_digits ds = Some u ->
  uint_of_digits (repeat "0"%char k ++ ds) = Some (Nat.iter k D0 u).
Proof.
  intros H. induction k as [|k IH]; [exact H|].
  cbn [repeat List.app uint_of_digits]. rewrite IH. reflexivity.
Qed.

Lemma of_uint_iter_D0 (k : nat) (u : uint) :
  Z.of_uint (Nat.iter k D0 u) = Z.of_uint u.
Proof.
  induction k as [|k IH]; [reflexivity|]. exact IH.
Qed.

Lemma magnitude_zero_fill (k : nat) (n : N) :
  magnitude (repeat "0"%char k ++ digits n) = Some (Z.of_N n).
Proof.
  pose proof (magnitude_digits n) as H. unfold magnitude in *.
  pose proof (digits_nonempty n) as Hne.
  destruct (digits n) as [|c ds] eqn:E; [contradiction|].
  destruct (uint_of_digits (c :: ds)) as [u|] eqn:Eu; [|discriminate H].
  rewrite (uint_of_digits_zero_fill k _ u Eu), of_uint_iter_D0.
  destruct (repeat "0"%char k ++ c :: ds) eqn:E';
    [destruct k; discriminate E'|exact H].
Qed.

Lemma is_digits_zero_fill (k : nat) (n : N) :
  is_digits (repeat "0"%char k ++ digits n) = true.
Proof.
  assert (H : forallb is_digit (repeat "0"%char k ++ digits n) = true).
  { rewrite forallb_app, digits_is_digit, andb_true_r.
    induction k as [|k IH]; [reflexivity|exact IH]. }
  pose proof (digits_nonempty n) as Hne.
  destruct (repeat "0"%char k ++ digits n) eqn:E; [|exact H].
  apply app_eq_nil in E as [_ E]. contradiction.
Qed.

(** A field for a value that is not negative is all digits and reads back
    as the value. *)
Lemma padded_03d_nonneg (z : Z) :
  0 <= z ->
  is_digits (padded_03d z) = true /\ magnitude (padded_03d z) = Some z.
Proof.
  intros Hz. unfold padded_03d.
  replace (z <? 0) with false by (symmetry; apply Z.ltb_ge; exact Hz).
  split; [apply is_digits_zero_fill|].
  rewrite magnitude_zero_fill. f_equal. rewrite N2Z.inj_abs_N. lia.
Qed.

(** A field for a negative value begins with the sign; the zeros fill what
    is left of the three characters. *)
Lemma padded_03d_neg (z : Z) :
  z < 0 ->
  padded_03d z =
  "-"%char :: repeat "0"%char (2 - length (digits (Z.to_N (- z))))
    ++ digits (Z.to_N (- z)).
Proof.
  intros Hz. unfold padded_03d.
  replace (z <? 0) with true by (symmetry; apply Z.ltb_lt; exact Hz).
  replace (Z.abs_N z) with (Z.to_N (- z)); [reflexivity|].
  apply N2Z.inj. rewrite N2Z.inj_abs_N, Z2N.id; lia.
Qed.

(** A field for a value from 0 to 25 is exactly three characters wide. *)
Lemma padded_03d_small (z : Z) :
  0 <= z <= 25 -> length (padded_03d z) = 3%nat.
Proof.
  intros Hz.
  assert (H : In z (map Z.of_nat (seq 0 26))).
  { apply in_map_iff. exists (Z.to_nat z). split; [lia|].
    apply in_seq. lia. }
  simpl in H. repeat (destruct H as [<-|H]; [reflexivity|]). destruct H.
Qed.

(** *** The size of decimal numerals *)

Lemma of_uint_acc_horner (u : uint) (acc : positive) :
  N.pos (Pos.of_uint_acc u acc) = horner (N.pos acc) u.
Proof.
  revert acc. induction u; intros acc; cbn [Pos.of_uint_acc horner];
    [reflexivity|rewrite IHu; f_equal; lia..].
Qed.

Lemma of_uint_horner (u : uint) : N.of_uint u = horner 0 u.
Proof.
  induction u; cbn [N.of_uint Pos.of_uint horner];
    [reflexivity|exact IHu|rewrite of_uint_acc_horner; reflexivity..].
Qed.

Lemma horner_bounds (u : uint) (acc : N) :
  (acc * 10 ^ N.of_nat (length (digits_of_uint u)) <= horner acc u
   < (acc + 1) * 10 ^ N.of_nat (length (digits_of_uint u)))%N.
Proof.
  revert acc. induction u; intros acc;
    cbn [horner digits_of_uint length];
    [rewrite N.pow_0_r; lia|
     rewrite Nat2N.inj_succ, N.pow_succ_r';
     match goal with
     | |- (_ <= horner ?a _ < _)%N => specialize (IHu a)
     end; nia..].
Qed.

(** A number is below the power of ten of its size... *)
Lemma digits_upper (n : N) : (n < 10 ^ N.of_nat (length (digits n)))%N.
Proof.
  unfold digits. pose proof (horner_bounds (N.to_uint n) 0) as H.
  rewrite <- of_uint_horner, DecimalN.Unsigned.of_to in H. lia.
Qed.

(** ... and, unless it is zero, not below the power before. *)
Lemma digits_lower (n : N) :
  n <> 0%N -> (10 ^ N.of_nat (length (digits n)) <= 10 * n)%N.
Proof.
  intros Hn. pose proof (to_uint_head_nonzero n Hn) as Hh.
  pose proof (DecimalN.Unsigned.of_to n) as E. rewrite of_uint_horner in E.
  unfold digits. revert Hh E.
  destruct (N.to_uint n) as [|u|u|u|u|u|u|u|u|u|u]; intros Hh E;
    try discriminate Hh; cbn [horner digits_of_uint length] in *;
    rewrite Nat2N.inj_succ, N.pow_succ_r';
    match type of E with
    | horner ?a _ = _ => pose proof (horner_bounds u a) as H
    end; rewrite E in H; nia.
Qed.

Lemma digits_length_le (n : N) (k : nat) :
  (1 <= k)%nat -> (n < 10 ^ N.of_nat k)%N -> (length (digits n) <= k)%nat.
Proof.
  intros Hk Hn. destruct (N.eq_dec n 0) as [->|Hz]; [exact Hk|].
  pose proof (digits_lower n Hz) as H.
  assert (Hlt : (10 ^ N.of_nat (length (digits n)) < 10 ^ N.of_nat (S k))%N).
  { rewrite (Nat2N.inj_succ k), N.pow_succ_r'. lia. }
  apply N.pow_lt_mono_r_iff in Hlt; lia.
Qed.

(** A smaller number has no more digits. *)
Lemma digits_length_mono (a b : N) :
  (a <= b)%N -> (length (digits a) <= length (digits b))%nat.
Proof.
  intros H. apply digits_length_le.
  - pose proof (digits_nonempty b).
    destruct (digits b); simpl; [contradiction|lia].
  - pose proof (digits_upper b). lia.
Qed.

Lemma size_mono (a b : Z) : Z.abs a <= Z.abs b -> (size a <= size b)%nat.
Proof.
  intros H. apply digits_length_mono. lia.
Qed.

Lemma size_opp (z : Z) : size (- z) = size z.
Proof.
  unfold size. rewrite Zabs2N.inj_opp. reflexivity.
Qed.

(** A number below a power of ten has no more digits than the exponent. *)
Lemma size_below (z : Z) (k : nat) :
  (1 <= k)%nat -> Z.abs z < 10 ^ Z.of_nat k -> (size z <= k)%nat.
Proof.
  intros Hk Hz. apply digits_length_le; [exact Hk|].
  apply N2Z.inj_lt. rewrite N2Z.inj_abs_N, N2Z.inj_pow, nat_N_Z. exact Hz.
Qed.

(** The value of a run of digits has no more digits than the run. *)
Lemma magnitude_size (ds : str) (v : Z) :
  magnitude ds = Some v -> (size v <= length ds)%nat.
Proof.
  unfold magnitude. destruct ds as [|c ds]; [discriminate|].
  destruct (uint_of_digits (c :: ds)) as [u|] eqn:E; [|discriminate].
  intros H. injection H as <-. apply uint_of_digits_inv in E as [_ E].
  rewrite <- E. unfold size, Z.of_uint.
  change (Pos.of_uint u) with (N.of_uint u). rewrite Zabs2N.id.
  apply digits_length_le.
  - rewrite E. simpl. lia.
  - pose proof (horner_bounds u 0) as H. rewrite <- of_uint_horner in H. lia.
Qed.

Lemma size_small (z : Z) : Z.abs z <= 25 -> (size z <= 2)%nat.
Proof.
  intros H. apply (size_below z 2); [lia|].
  change (10 ^ Z.of_nat 2) with 100. lia.
Qed.

(** The transform of a value that is not negative is no larger than the
    value, unless both are small. *)
Lemma size_transform_nonneg (v : Z) (k : nat) :
  0 <= v -> (2 <= k)%nat -> (size v <= k)%nat ->
  (size (transform_coordinate v) <= k)%nat.
Proof.
  intros Hv Hk Hs. unfold transform_coordinate.
  destruct (Z_le_gt_dec v 25) as [Hle|Hgt].
  - pose proof (size_small (- v + 25)). lia.
  - pose proof (size_mono (- v + 25) v). lia.
Qed.

(** *** The conversions and the limit *)

Lemma leading_digits_length (ds : str) :
  forallb is_digit ds = true -> leading_digits ds = length ds.
Proof.
  induction ds as [|c ds IH]; [reflexivity|]. simpl. intros H.
  apply andb_true_iff in H as [-> H]. rewrite (IH H). reflexivity.
Qed.

Lemma digit_count_digits (ds : str) :
  forallb is_digit ds = true -> digit_count ds = length ds.
Proof.
  intros H. rewrite <- (leading_digits_length ds H).
  destruct ds as [|c ds]; [reflexivity|].
  simpl in H. apply andb_true_iff in H as [Hc _].
  apply digit_not_sign in Hc as (H1 & H2 & _).
  unfold digit_count.
  destruct c as [[|] [|] [|] [|] [|] [|] [|] [|]]; try reflexivity; congruence.
Qed.

Lemma digit_count_minus (ds : str) :
  forallb is_digit ds = true -> digit_count ("-"%char :: ds) = length ds.
Proof.
  intros H. unfold digit_count. apply leading_digits_length, H.
Qed.

(** [int] answers as without the limit, or refuses. *)
Lemma int_limit (s : str) :
  int s = (if (digit_count s <=? max_str_digits)%nat
           then int_unlimited s else Raise limit_exceeded).
Proof. reflexivity. Qed.


(** [int] on a run of digits within the limit is its magnitude. *)
Lemma int_digits_within (ds : str) (v : Z) :
  forallb is_digit ds = true -> magnitude ds = Some v ->
  (length ds <= max_str_digits)%nat -> int ds = Ok v.
Proof.
  intros Hd Hm Hl. unfold int. rewrite (digit_count_digits ds Hd).
  apply Nat.leb_le in Hl. rewrite Hl. apply int_digits; assumption.
Qed.

Lemma format_03d_within (z : Z) :
  (size z <= max_str_digits)%nat -> format_03d z = Ok (padded_03d z).
Proof.
  intros H. unfold format_03d. apply Nat.leb_le in H. unfold size in H.
  rewrite H. reflexivity.
Qed.

Lemma str_of_int_limit (z : Z) :
  str_of_int z = limited (size z <=? max_str_digits)%nat (decimal z).
Proof. reflexivity. Qed.

(** The digits of a decimal numeral are those of the number. *)
Lemma digit_count_decimal (z : Z) : digit_count (decimal z) = size z.
Proof.
  unfold decimal, size. destruct (z <? 0).
  - apply digit_count_minus, digits_is_digit.
  - apply digit_count_digits, digits_is_digit.
Qed.

(** [int(str(z)) == z], when [str(z)] returns. *)
Lemma int_decimal (z : Z) :
  (size z <= max_str_digits)%nat -> int (decimal z) = Ok z.
Proof.
  intros H. unfold int. rewrite digit_count_decimal.
  apply Nat.leb_le in H. rewrite H. apply int_unlimited_decimal.
Qed.

(** The size of a field: that of its number, or the three characters the
    zeros fill. *)
Lemma padded_03d_length (z : Z) :
  0 <= z -> length (padded_03d z) = Nat.max 3 (size z).
Proof.
  intros Hz. unfold padded_03d, size.
  replace (z <? 0) with false by (symmetry; apply Z.ltb_ge; exact Hz).
  rewrite length_app, repeat_length. lia.
Qed.

End PyFacts.


(** ** The matcher on the patterns of the program *)

Module ReFacts.
Import Re.

Lemma strip_prefix_app (w s : str) : strip_prefix w (w ++ s) = Some s.
Proof.
  induction w as [|c w IH]; simpl; [reflexivity|].
  rewrite Ascii.eqb_refl. exact IH.
Qed.

Lemma strip_prefix_inv (w s s' : str) :
  strip_prefix w s = Some s' -> s = w ++ s'.
Proof.
  revert s. induction w as [|c w IH]; simpl; intros s H.
  - injection H as ->. reflexivity.
  - destruct s as [|c' s]; [discriminate H|].
    destruct (Ascii.eqb c c') eqn:E; [|discriminate H].
    apply Ascii.eqb_eq in E. subst c'. f_equal. apply IH, H.
Qed.

Lemma span_digits_spec (s ds rest : str) :
  span_digits s = (ds, rest) ->
  s = ds ++ rest /\ forallb Py.is_digit ds = true /\ no_digit_ahead rest.
Proof.
  revert ds rest. induction s as [|c s IH]; simpl; intros ds rest H.
  - injection H as <- <-. repeat split.
  - destruct (Py.is_digit c) eqn:E.
    + destruct (span_digits s) as [ds' rest'].
      injection H as <- <-. destruct (IH _ _ eq_refl) as (-> & Hd & Hr).
      simpl. rewrite E, Hd. repeat split. exact Hr.
    + injection H as <- <-. repeat split. exact E.
Qed.

Lemma span_digits_app (ds rest : str) :
  forallb Py.is_digit ds = true -> no_digit_ahead rest ->
  span_digits (ds ++ rest) = (ds, rest).
Proof.
  intros Hd Hr. induction ds as [|c ds IH]; simpl.
  - destruct rest as [|c rest]; [reflexivity|].
    simpl in Hr. simpl. rewrite Hr. reflexivity.
  - simpl in Hd. apply andb_true_iff in Hd as [Hc Hd].
    rewrite Hc, (IH Hd). reflexivity.
Qed.

Lemma digits_here_spec (s ds rest : str) :
  digits_here s = Some (ds, rest) ->
  s = ds ++ rest /\ ds <> [] /\ forallb Py.is_digit ds = true
  /\ no_digit_ahead rest.
Proof.
  unfold digits_here. intros H.
  destruct (span_digits s) as [ds' rest'] eqn:E.
  destruct ds' as [|c ds']; [discriminate H|].
  injection H as <- <-. apply span_digits_spec in E as (-> & Hd & Hr).
  repeat split; [discriminate | exact Hd | exact Hr].
Qed.

Lemma digits_here_app (ds rest : str) :
  ds <> [] -> forallb Py.is_digit ds = true -> no_digit_ahead rest ->
  digits_here (ds ++ rest) = Some (ds, rest).
Proof.
  intros Hne Hd Hr. unfold digits_here.
  rewrite (span_digits_app _ _ Hd Hr).
  destruct ds; [contradiction|reflexivity].
Qed.

(** A run of ordinary characters matches exactly itself. *)
Lemma exec_chars (w s : str) (g : groups) (k : str -> groups -> outcome) :
  exec (chars w) s g k =
  match strip_prefix w s with
  | Some s' => k s' g
  | None => None
  end.
Proof.
  revert s. induction w as [|c w IH]; intros s; simpl; [reflexivity|].
  destruct s as [|c' s]; [reflexivity|].
  destruct (Ascii.eqb c c'); [apply IH|reflexivity].
Qed.

(** [\d+] before something that cannot begin with a digit takes the whole
    run of digits: giving back digits never helps. *)
Lemma plus_digit (k : str -> groups -> outcome) :
  (forall c s g, Py.is_digit c = true -> k (c :: s) g = None) ->
  forall (n : nat) (s : str) (g : groups),
    (length s <= n)%nat ->
    plus_loop (exec Digit) k n s g =
    match digits_here s with
    | Some (_, rest) => k rest g
    | None => None
    end.
Proof.
  intros Hk. induction n as [|n IH]; intros s g Hn.
  - destruct s as [|c s]; [reflexivity|simpl in Hn; lia].
  - destruct s as [|c s]; [reflexivity|].
    unfold digits_here. simpl. destruct (Py.is_digit c) eqn:Ec; [|reflexivity].
    replace (length s <? S (length s))%nat with true
      by (symmetry; apply Nat.ltb_lt; lia).
    rewrite IH by (simpl in Hn; lia). unfold digits_here.
    destruct (span_digits s) as [ds rest] eqn:E.
    apply span_digits_spec in E as (-> & Hd & _).
    destruct ds as [|d ds]; [reflexivity|].
    simpl in Hd. apply andb_true_iff in Hd as [Hd _].
    destruct (k rest g) eqn:Ek; [reflexivity|].
    simpl. apply Hk, Hd.
Qed.

Lemma exec_plus_digit (k : str -> groups -> outcome) (s : str) (g : groups) :
  (forall c s g, Py.is_digit c = true -> k (c :: s) g = None) ->
  exec (Plus Digit) s g k =
  match digits_here s with
  | Some (_, rest) => k rest g
  | None => None
  end.
Proof.
  intros Hk. simpl. apply plus_digit; [exact Hk|lia].
Qed.

(** *** Numerals *)

Lemma is_digits_spec (s : str) :
  is_digits s = true <-> s <> [] /\ forallb Py.is_digit s = true.
Proof.
  destruct s as [|c s]; simpl.
  - split; [discriminate|intros [H _]; contradiction].
  - split; [intros H; split; [discriminate|exact H]|intros [_ H]; exact H].
Qed.

Lemma digits_here_minus (c : ascii) (s : str) :
  Ascii.eqb "-" c = true -> digits_here (c :: s) = None.
Proof.
  intros H. apply Ascii.eqb_eq in H. subst c. reflexivity.
Qed.

Lemma numeral_here_spec (s num rest : str) :
  numeral_here s = Some (num, rest) ->
  s = num ++ rest /\ is_numeral num = true /\ no_digit_ahead rest.
Proof.
  unfold numeral_here. destruct s as [|c s]; [discriminate|].
  destruct (Ascii.eqb "-" c) eqn:E.
  - destruct (digits_here s) as [[ds r]|] eqn:D; [|discriminate].
    intros H. injection H as <- <-.
    apply digits_here_spec in D as (-> & Hne & Hd & Hr).
    unfold is_numeral. rewrite E. repeat split; [|exact Hr].
    apply is_digits_spec. split; assumption.
  - intros D. pose proof D as D'.
    apply digits_here_spec in D as (Hs & Hne & Hd & Hr).
    repeat split; [exact Hs| |exact Hr].
    destruct num as [|c' num]; [contradiction|].
    injection Hs as <- _. unfold is_numeral. rewrite E. exact Hd.
Qed.

Lemma numeral_here_app (num rest : str) :
  is_numeral num = true -> no_digit_ahead rest ->
  numeral_here (num ++ rest) = Some (num, rest).
Proof.
  intros Hn Hr. destruct num as [|c num]; [discriminate Hn|].
  unfold is_numeral in Hn. unfold numeral_here.
  change ((c :: num) ++ rest) with (c :: num ++ rest). cbv beta iota.
  destruct (Ascii.eqb "-" c) eqn:E.
  - apply is_digits_spec in Hn as [Hne Hd].
    rewrite (digits_here_app _ _ Hne Hd Hr). reflexivity.
  - change (c :: num ++ rest) with ((c :: num) ++ rest).
    apply digits_here_app; [discriminate|exact Hn|exact Hr].
Qed.

(** Every numeral denotes an integer. *)
Lemma int_numeral (num : str) :
  is_numeral num = true -> exists v, Py.int_unlimited num = Ok v.
Proof.
  intros Hn. destruct num as [|c num]; [discriminate Hn|].
  unfold is_numeral in Hn. destruct (Ascii.eqb "-" c) eqn:E.
  - apply Ascii.eqb_eq in E. subst c.
    apply is_digits_spec in Hn as [Hne Hd].
    destruct (PyFacts.magnitude_total _ Hne Hd) as (v & Hv & _).
    exists (- v). apply PyFacts.int_minus_digits, Hv.
  - assert (Hne : c :: num <> []) by discriminate.
    destruct (PyFacts.magnitude_total _ Hne Hn) as (v & Hv & _).
    exists v. apply PyFacts.int_digits; assumption.
Qed.

(** *** The pieces of the patterns *)

Lemma exec_Seq (r1 r2 : regex) (s : str) (g : groups)
    (k : str -> groups -> outcome) :
  exec (Seq r1 r2) s g k = exec r1 s g (fun s' g' => exec r2 s' g' k).
Proof. reflexivity. Qed.

Lemma exec_Group (n : nat) (r : regex) (s : str) (g : groups)
    (k : str -> groups -> outcome) :
  exec (Group n r) s g k =
  exec r s g (fun s' g' => k s' ((n, firstn (length s - length s') s) :: g')).
Proof. reflexivity. Qed.

Lemma exec_Opt (r : regex) (s : str) (g : groups)
    (k : str -> groups -> outcome) :
  exec (Opt r) s g k =
  match exec r s g k with
  | Some m => Some m
  | None => k s g
  end.
Proof. reflexivity. Qed.

Lemma exec_Chr (c : ascii) (s : str) (g : groups)
    (k : str -> groups -> outcome) :
  exec (Chr c) s g k =
  match s with
  | c' :: s' => if Ascii.eqb c c' then k s' g else None
  | [] => None
  end.
Proof. reflexivity. Qed.

(** [-?\d+] before something that cannot begin with a digit. *)
Lemma exec_numeral (k : str -> groups -> outcome) (s : str) (g : groups) :
  (forall c s g, Py.is_digit c = true -> k (c :: s) g = None) ->
  exec (Seq (Opt (Chr "-")) (Plus Digit)) s g k =
  match numeral_here s with
  | Some (_, rest) => k rest g
  | None => None
  end.
Proof.
  intros Hk. rewrite exec_Seq, exec_Opt, exec_Chr.
  rewrite (exec_plus_digit k s g Hk). unfold numeral_here.
  destruct s as [|c s]; [reflexivity|].
  destruct (Ascii.eqb "-" c) eqn:E.
  - rewrite (exec_plus_digit k s g Hk).
    rewrite (digits_here_minus c s E).
    destruct (digits_here s) as [[ds rest]|]; [|reflexivity].
    destruct (k rest g); reflexivity.
  - destruct (digits_here (c :: s)) as [[ds rest]|]; reflexivity.
Qed.

(** [-\d+] before something that cannot begin with a digit. *)
Lemma exec_dash_digits (k : str -> groups -> outcome) (s : str) (g : groups) :
  (forall c s g, Py.is_digit c = true -> k (c :: s) g = None) ->
  exec (Seq (Chr "-") (Plus Digit)) s g k =
  match s with
  | c :: s' =>
      if Ascii.eqb "-" c
      then match digits_here s' with
           | Some (_, rest) => k rest g
           | None => None
           end
      else None
  | [] => None
  end.
Proof.
  intros Hk. rewrite exec_Seq, exec_Chr.
  destruct s as [|c s]; [reflexivity|].
  destruct (Ascii.eqb "-" c); [|reflexivity].
  apply (exec_plus_digit k s g Hk).
Qed.

Lemma firstn_app_len (a b : str) :
  firstn (length (a ++ b) - length b) (a ++ b) = a.
Proof.
  rewrite length_app. replace (length a + length b - length b)%nat
    with (length a + 0)%nat by lia.
  rewrite firstn_app_2. simpl. apply List.app_nil_r.
Qed.

Lemma strip_prefix_not_digit (w : str) (c c0 : ascii) (s : str) :
  Py.is_digit c0 = false -> Py.is_digit c = true ->
  strip_prefix (c0 :: w) (c :: s) = None.
Proof.
  intros H0 Hc. simpl. destruct (Ascii.eqb c0 c) eqn:E; [|reflexivity].
  apply Ascii.eqb_eq in E. congruence.
Qed.

(** *** [re.sub]: enough fuel, and one step of the scan *)

Section Sub.

Variable r : regex.
Variable repl : Match -> result str.

(** The replacement function does not look at the position of the match. *)
Hypothesis repl_pos :
  forall (p : nat) (t : str) (g : groups),
    repl (mkMatch p t g) = repl (mkMatch 0 t g).

Lemma sub_loop_pos (fuel pos : nat) (s : str) :
  sub_loop fuel r repl pos s = sub_loop fuel r repl 0 s.
Proof.
  revert pos s. induction fuel as [|fuel IH]; intros pos s; [reflexivity|].
  simpl. unfold match_at. destruct (match_here r s) as [[rest g]|].
  - rewrite (repl_pos pos).
    rewrite (IH (pos + (length s - length rest))%nat rest).
    rewrite (IH (length s - length rest)%nat rest).
    destruct s as [|c s']; [reflexivity|].
    rewrite (IH (S pos)), (IH 1%nat). reflexivity.
  - destruct s as [|c s']; [reflexivity|].
    rewrite (IH (S pos)), (IH 1%nat). reflexivity.
Qed.

Lemma sub_loop_fuel (n : nat) :
  forall (f1 f2 : nat) (s : str),
    (length s <= n)%nat -> (length s < f1)%nat -> (length s < f2)%nat ->
    sub_loop f1 r repl 0 s = sub_loop f2 r repl 0 s.
Proof.
  induction n as [|n IH]; intros f1 f2 s Hn H1 H2.
  - destruct s as [|c s]; [|simpl in Hn; lia].
    destruct f1 as [|f1]; [simpl in H1; lia|].
    destruct f2 as [|f2]; [simpl in H2; lia|].
    simpl. unfold match_at. destruct (match_here r []) as [[rest g]|];
      [|reflexivity].
    replace (length rest <? 0)%nat with false
      by (symmetry; apply Nat.ltb_ge; lia).
    reflexivity.
  - destruct f1 as [|f1]; [lia|]. destruct f2 as [|f2]; [lia|].
    simpl. unfold match_at. destruct (match_here r s) as [[rest g]|].
    + destruct (repl _) as [new|e]; [simpl|reflexivity].
      destruct (length rest <? length s)%nat eqn:E.
      * apply Nat.ltb_lt in E.
        rewrite (sub_loop_pos f1), (sub_loop_pos f2).
        rewrite (IH f1 f2 rest) by lia. reflexivity.
      * destruct s as [|c s']; [reflexivity|]. simpl in *.
        rewrite (sub_loop_pos f1), (sub_loop_pos f2).
        rewrite (IH f1 f2 s') by lia. reflexivity.
    + destruct s as [|c s']; [reflexivity|]. simpl in *.
      rewrite (sub_loop_pos f1), (sub_loop_pos f2).
      rewrite (IH f1 f2 s') by lia. reflexivity.
Qed.

(** One step of [re.sub], whatever the string. *)
Lemma sub_step (s : str) :
  sub r repl s =
  match match_here r s with
  | Some (rest, g) =>
      new <- repl (mkMatch 0 (firstn (length s - length rest) s) g) ;;
      if (length rest <? length s)%nat
      then tail <- sub r repl rest ;; Ok (new ++ tail)
      else match s with
           | [] => Ok new
           | c :: s' => tail <- sub r repl s' ;; Ok (new ++ c :: tail)
           end
  | None =>
      match s with
      | [] => Ok []
      | c :: s' => tail <- sub r repl s' ;; Ok (c :: tail)
      end
  end.
Proof.
  unfold sub at 1. simpl. unfold match_at.
  destruct (match_here r s) as [[rest g]|].
  - destruct (repl _) as [new|e]; [simpl|reflexivity].
    destruct (length rest <? length s)%nat eqn:E.
    + apply Nat.ltb_lt in E. rewrite sub_loop_pos. unfold sub.
      rewrite (sub_loop_fuel (length rest) (length s) (S (length rest)))
        by lia.
      reflexivity.
    + destruct s as [|c s']; [reflexivity|].
      rewrite sub_loop_pos. reflexivity.
  - destruct s as [|c s']; [reflexivity|].
    rewrite sub_loop_pos. reflexivity.
Qed.

End Sub.

End ReFacts.

(** ** One pass of the content rewriter, for one tag

    The pass is first studied with the limit on conversions switched off,
    where it never raises; [LimitFacts] then says when the pass of the
    program returns, and that it returns the same string. *)

Module TagFacts.
Import Re ReFacts.

Lemma coord_here_inv (tag s num rest : str) :
  coord_here tag s = Some (num, rest) ->
  s = field tag num ++ rest /\ is_numeral num = true.
Proof.
  unfold coord_here. intros H.
  destruct (strip_prefix (open_tag tag) s) as [s1|] eqn:E1; [|discriminate].
  destruct (numeral_here s1) as [[num' s2]|] eqn:E2; [|discriminate].
  destruct (strip_prefix (close_tag tag) s2) as [s3|] eqn:E3; [|discriminate].
  injection H as -> ->.
  apply strip_prefix_inv in E1, E3. apply numeral_here_spec in E2 as (E2 & Hn & _).
  subst. unfold field. rewrite <- !app_assoc. split; [reflexivity|exact Hn].
Qed.

Lemma coord_here_field (tag num rest : str) :
  is_numeral num = true ->
  coord_here tag (field tag num ++ rest) = Some (num, rest).
Proof.
  intros Hn. unfold coord_here, field. rewrite <- !app_assoc.
  rewrite strip_prefix_app.
  rewrite (numeral_here_app num (close_tag tag ++ rest) Hn eq_refl).
  rewrite strip_prefix_app. reflexivity.
Qed.

(** The matcher on a coordinate pattern finds exactly a tagged numeral at
    the head of the string, and captures the numeral as group 1. *)
Lemma match_here_coord (tag s : str) :
  match_here (coord_pattern tag) s =
  match coord_here tag s with
  | Some (num, rest) => Some (rest, [(1%nat, num)])
  | None => None
  end.
Proof.
  unfold match_here, coord_pattern, coord_here.
  rewrite exec_Seq, exec_chars.
  destruct (strip_prefix (open_tag tag) s) as [s1|]; [|reflexivity].
  rewrite exec_Seq, exec_Group, exec_numeral.
  - destruct (numeral_here s1) as [[num s2]|] eqn:E; [|reflexivity].
    rewrite exec_chars.
    destruct (strip_prefix (close_tag tag) s2) as [s3|]; [|reflexivity].
    apply numeral_here_spec in E as (-> & _ & _).
    rewrite firstn_app_len. reflexivity.
  - intros c s' g Hc. rewrite exec_chars.
    unfold close_tag. rewrite (strip_prefix_not_digit _ c "<" s' eq_refl Hc).
    reflexivity.
Qed.

Lemma replace_coord_unlimited_pos (tag : str) (p : nat) (t : str) (g : groups) :
  replace_coord_unlimited tag (mkMatch p t g)
  = replace_coord_unlimited tag (mkMatch 0 t g).
Proof. reflexivity. Qed.

Lemma sub_tag_unlimited_nil (tag : str) : sub_tag_unlimited tag [] = Ok [].
Proof. reflexivity. Qed.

Lemma replace_coord_unlimited_group1 (tag t num : str) :
  replace_coord_unlimited tag (mkMatch 0 t [(1%nat, num)]) =
  (value <- Py.int_unlimited num ;;
   Ok (field tag (Py.decimal (transform_coordinate value)))).
Proof. reflexivity. Qed.

Lemma field_length (tag num rest : str) :
  (length rest < length (field tag num ++ rest))%nat.
Proof.
  rewrite length_app. unfold field, open_tag. simpl. lia.
Qed.

(** At a tagged numeral, the pass writes the new field and goes on after
    the closing tag. *)
Lemma sub_tag_unlimited_match (tag s num rest : str) :
  coord_here tag s = Some (num, rest) ->
  sub_tag_unlimited tag s =
  (value <- Py.int_unlimited num ;;
   tail <- sub_tag_unlimited tag rest ;;
   Ok (field tag (Py.decimal (transform_coordinate value)) ++ tail)).
Proof.
  intros H. unfold sub_tag_unlimited.
  rewrite (sub_step _ _ (replace_coord_unlimited_pos tag)), match_here_coord, H.
  apply coord_here_inv in H as [-> _].
  rewrite replace_coord_unlimited_group1.
  destruct (Py.int_unlimited num) as [v|e]; [|reflexivity]. rewrite !bind_ok.
  pose proof (field_length tag num rest) as Hlt. apply Nat.ltb_lt in Hlt.
  rewrite Hlt. reflexivity.
Qed.

(** Elsewhere the character is copied. *)
Lemma sub_tag_unlimited_skip (tag : str) (c : ascii) (s : str) :
  coord_here tag (c :: s) = None ->
  sub_tag_unlimited tag (c :: s)
  = (tail <- sub_tag_unlimited tag s ;; Ok (c :: tail)).
Proof.
  intros H. unfold sub_tag_unlimited.
  rewrite (sub_step _ _ (replace_coord_unlimited_pos tag)), match_here_coord, H.
  reflexivity.
Qed.

(** Without the limit a pass never raises. *)
Lemma sub_tag_unlimited_total (tag : str) (s : str) :
  exists t, sub_tag_unlimited tag s = Ok t.
Proof.
  remember (length s) as n eqn:Hn. revert s Hn.
  induction n as [n IH] using lt_wf_ind. intros s ->.
  destruct s as [|c s]; [exists []; reflexivity|].
  destruct (coord_here tag (c :: s)) as [[num rest]|] eqn:E.
  - rewrite (sub_tag_unlimited_match _ _ _ _ E).
    apply coord_here_inv in E as [E Hn].
    destruct (int_numeral num Hn) as [v ->].
    destruct (IH (length rest)) with (s := rest) as [t ->];
      [rewrite E; apply field_length|reflexivity|].
    eexists. reflexivity.
  - rewrite (sub_tag_unlimited_skip _ _ _ E).
    destruct (IH (length s)) with (s := s) as [t ->];
      [simpl; lia|reflexivity|].
    eexists. reflexivity.
Qed.

Lemma sub_tag_unlimited_rewrite (tag s : str) :
  sub_tag_unlimited tag s = Ok (rewrite_tag tag s).
Proof.
  unfold rewrite_tag. destruct (sub_tag_unlimited_total tag s) as [t ->].
  reflexivity.
Qed.

Lemma rewrite_tag_nil (tag : str) : rewrite_tag tag [] = [].
Proof. reflexivity. Qed.

Lemma rewrite_tag_match (tag s num rest : str) (v : Z) :
  coord_here tag s = Some (num, rest) -> Py.int_unlimited num = Ok v ->
  rewrite_tag tag s =
  field tag (Py.decimal (transform_coordinate v)) ++ rewrite_tag tag rest.
Proof.
  intros H Hv. unfold rewrite_tag at 1.
  rewrite (sub_tag_unlimited_match _ _ _ _ H), Hv, sub_tag_unlimited_rewrite.
  reflexivity.
Qed.

Lemma rewrite_tag_skip (tag : str) (c : ascii) (s : str) :
  coord_here tag (c :: s) = None ->
  rewrite_tag tag (c :: s) = c :: rewrite_tag tag s.
Proof.
  intros H. unfold rewrite_tag at 1.
  rewrite (sub_tag_unlimited_skip _ _ _ H), sub_tag_unlimited_rewrite.
  reflexivity.
Qed.

(** *** Text in which the tag cannot open *)

Lemma coord_here_not_lt (tag : str) (c : ascii) (s : str) :
  Ascii.eqb "<" c = false -> coord_here tag (c :: s) = None.
Proof.
  intros H. unfold coord_here, open_tag. cbn [strip_prefix].
  rewrite H. reflexivity.
Qed.

Lemma coord_here_lt_other (t0 : ascii) (tl : str) (c c2 : ascii) (s : str) :
  Ascii.eqb t0 c2 = false -> coord_here (t0 :: tl) (c :: c2 :: s) = None.
Proof.
  intros H. unfold coord_here, open_tag. cbn [strip_prefix List.app].
  destruct (Ascii.eqb "<" c); [|reflexivity].
  change ((t0 :: tl) ++ lit ">") with (t0 :: tl ++ lit ">").
  cbn [strip_prefix]. rewrite H. reflexivity.
Qed.

Lemma free_of_tail (t0 c : ascii) (w : str) :
  free_of t0 (c :: w) = true -> free_of t0 w = true.
Proof.
  cbn [free_of]. intros H. apply andb_true_iff in H as [_ H]. exact H.
Qed.

(** Where the tag cannot open, nothing matches. *)
Lemma free_of_head (t0 : ascii) (tl : str) (c : ascii) (w u : str) :
  free_of t0 (c :: w) = true -> coord_here (t0 :: tl) (c :: w ++ u) = None.
Proof.
  cbn [free_of]. intros H. apply andb_true_iff in H as [H _].
  destruct (Ascii.eqb "<" c) eqn:E; [|apply coord_here_not_lt, E].
  destruct w as [|c2 w]; [discriminate H|].
  apply negb_true_iff in H. apply coord_here_lt_other, H.
Qed.

(** The pass copies such text. *)
Lemma rewrite_tag_free (t0 : ascii) (tl w u : str) :
  free_of t0 w = true ->
  rewrite_tag (t0 :: tl) (w ++ u) = w ++ rewrite_tag (t0 :: tl) u.
Proof.
  induction w as [|c w IH]; intros H; [reflexivity|].
  cbn [List.app]. rewrite (rewrite_tag_skip _ _ _ (free_of_head _ tl _ _ u H)).
  f_equal. apply IH, (free_of_tail _ _ _ H).
Qed.

(** What the pass writes for a match begins with the opening tag. *)
Lemma rewrite_tag_match_head (t0 : ascii) (tl s num rest : str) :
  coord_here (t0 :: tl) s = Some (num, rest) ->
  exists t, rewrite_tag (t0 :: tl) s = "<"%char :: t0 :: t.
Proof.
  intros H. pose proof H as H'. apply coord_here_inv in H' as [_ Hn].
  destruct (int_numeral num Hn) as [v Hv].
  rewrite (rewrite_tag_match _ _ _ _ _ H Hv). eexists. reflexivity.
Qed.

(** Such text at the head of what the pass wrote was there before. *)
Lemma rewrite_tag_free_inv (t0 : ascii) (tl w : str) :
  free_of t0 w = true ->
  forall s u' : str,
    rewrite_tag (t0 :: tl) s = w ++ u' ->
    exists u, s = w ++ u /\ rewrite_tag (t0 :: tl) u = u'.
Proof.
  induction w as [|c w IH]; intros H s u' E.
  - exists s. split; [reflexivity|exact E].
  - destruct s as [|c' s]; [discriminate E|].
    destruct (coord_here (t0 :: tl) (c' :: s)) as [[num rest]|] eqn:M.
    + exfalso. destruct (rewrite_tag_match_head _ _ _ _ _ M) as [t Ht].
      rewrite Ht in E. cbn [List.app] in E. injection E as <- E.
      cbn [free_of] in H. apply andb_true_iff in H as [H _].
      rewrite Ascii.eqb_refl in H.
      destruct w as [|c2 w]; [discriminate H|].
      cbn [List.app] in E. injection E as <- _.
      rewrite Ascii.eqb_refl in H. discriminate H.
    + rewrite (rewrite_tag_skip _ _ _ M) in E. cbn [List.app] in E.
      injection E as -> E.
      destruct (IH (free_of_tail _ _ _ H) s u' E) as (u & -> & Hu).
      exists u. split; [reflexivity|exact Hu].
Qed.

Lemma free_of_app (t0 : ascii) (a b : str) :
  free_of t0 a = true -> free_of t0 b = true -> free_of t0 (a ++ b) = true.
Proof.
  intros Ha Hb. induction a as [|c a IH]; [exact Hb|].
  cbn [List.app free_of] in *. apply andb_true_iff in Ha as [Hc Ha].
  rewrite (IH Ha), andb_true_r.
  destruct (Ascii.eqb "<" c); [|reflexivity].
  destruct a as [|c2 a]; [discriminate Hc|exact Hc].
Qed.

Lemma digits_free (t0 : ascii) (ds : str) :
  forallb Py.is_digit ds = true -> free_of t0 ds = true.
Proof.
  induction ds as [|c ds IH]; [reflexivity|]. cbn [forallb free_of].
  intros H. apply andb_true_iff in H as [Hc Hd]. rewrite (IH Hd).
  destruct (Ascii.eqb "<" c) eqn:E; [|reflexivity].
  apply Ascii.eqb_eq in E. subst c. discriminate Hc.
Qed.

Lemma numeral_free (t0 : ascii) (num : str) :
  is_numeral num = true -> free_of t0 num = true.
Proof.
  destruct num as [|c ds]; [reflexivity|]. unfold is_numeral.
  destruct (Ascii.eqb "-" c) eqn:E; intros H.
  - apply Ascii.eqb_eq in E. subst c.
    apply is_digits_spec in H as [_ H].
    cbn [free_of]. rewrite (digits_free t0 ds H). reflexivity.
  - apply digits_free, H.
Qed.

Lemma field_inside (tag num : str) :
  field tag num = "<"%char :: inside tag num.
Proof.
  unfold field, inside, open_tag. cbn [List.app].
  rewrite <- !app_assoc. reflexivity.
Qed.

Lemma inside_free (t0 : ascii) (tag num : str) :
  free_of t0 (tag ++ lit ">") = true -> free_of t0 (close_tag tag) = true ->
  is_numeral num = true -> free_of t0 (inside tag num) = true.
Proof.
  intros H1 H2 Hn. unfold inside.
  apply free_of_app; [exact H1|].
  apply free_of_app; [apply numeral_free, Hn|exact H2].
Qed.

Lemma field_free (t0 : ascii) (tag num : str) :
  free_of t0 (open_tag tag) = true -> free_of t0 (close_tag tag) = true ->
  is_numeral num = true -> free_of t0 (field tag num) = true.
Proof.
  intros H1 H2 Hn. unfold field.
  apply free_of_app; [exact H1|].
  apply free_of_app; [apply numeral_free, Hn|exact H2].
Qed.

(** A pass for one tag does not create a field of another tag (or of its
    own) in front of text that had none. *)
Lemma coord_here_rewrite_None (tag : str) (t0 : ascii) (tl : str)
    (c : ascii) (s : str) :
  free_of t0 (tag ++ lit ">") = true -> free_of t0 (close_tag tag) = true ->
  coord_here tag (c :: s) = None ->
  coord_here tag (c :: rewrite_tag (t0 :: tl) s) = None.
Proof.
  intros H1 H2 Hnone.
  destruct (coord_here tag (c :: rewrite_tag (t0 :: tl) s))
    as [[num rest]|] eqn:M; [exfalso|reflexivity].
  apply coord_here_inv in M as [M Hn]. rewrite field_inside in M.
  cbn [List.app] in M. injection M as -> M.
  destruct (rewrite_tag_free_inv t0 tl _ (inside_free t0 tag num H1 H2 Hn)
              _ _ M) as (u & -> & _).
  change ("<"%char :: inside tag num ++ u)
    with (("<"%char :: inside tag num) ++ u) in Hnone.
  rewrite <- field_inside, (coord_here_field _ _ _ Hn) in Hnone.
  discriminate Hnone.
Qed.

End TagFacts.

(** ** The content rewriter: both passes together, without the limit *)

Module ContentFacts.
Import Re ReFacts TagFacts.

Lemma X_eq : X = "X"%char :: lit "_COORD".
Proof. reflexivity. Qed.

Lemma Y_eq : Y = "Y"%char :: lit "_COORD".
Proof. reflexivity. Qed.

Lemma rewrite_content_nil : rewrite_content [] = [].
Proof. reflexivity. Qed.

(** At an [X_COORD] field both passes together write the new field and go
    on after it. *)
Lemma rewrite_content_x (s num rest : str) (v : Z) :
  coord_here X s = Some (num, rest) -> Py.int_unlimited num = Ok v ->
  rewrite_content s =
  field X (Py.decimal (transform_coordinate v)) ++ rewrite_content rest.
Proof.
  intros H Hv. unfold rewrite_content.
  rewrite (rewrite_tag_match _ _ _ _ _ H Hv).
  rewrite Y_eq. apply rewrite_tag_free.
  apply field_free; [reflexivity|reflexivity|].
  apply PyFacts.is_numeral_decimal.
Qed.

Lemma rewrite_content_y (s num rest : str) (v : Z) :
  coord_here Y s = Some (num, rest) -> Py.int_unlimited num = Ok v ->
  rewrite_content s =
  field Y (Py.decimal (transform_coordinate v)) ++ rewrite_content rest.
Proof.
  intros H Hv. unfold rewrite_content.
  pose proof H as H'. apply coord_here_inv in H' as [-> Hn].
  rewrite X_eq at 1. rewrite rewrite_tag_free
    by (apply field_free; [reflexivity|reflexivity|exact Hn]).
  rewrite <- X_eq.
  apply (rewrite_tag_match Y _ num); [apply coord_here_field, Hn|exact Hv].
Qed.

Lemma rewrite_content_skip (c : ascii) (s : str) :
  coord_here X (c :: s) = None -> coord_here Y (c :: s) = None ->
  rewrite_content (c :: s) = c :: rewrite_content s.
Proof.
  intros Hx Hy. unfold rewrite_content.
  rewrite (rewrite_tag_skip _ _ _ Hx).
  apply rewrite_tag_skip. rewrite X_eq.
  apply coord_here_rewrite_None; [reflexivity|reflexivity|exact Hy].
Qed.

Lemma rewritten_rewrite_content (s : str) : rewritten s (rewrite_content s).
Proof.
  remember (length s) as n eqn:Hn. revert s Hn.
  induction n as [n IH] using lt_wf_ind. intros s ->.
  destruct s as [|c s]; [constructor|].
  destruct (coord_here X (c :: s)) as [[num rest]|] eqn:Ex.
  - pose proof Ex as E. apply coord_here_inv in E as [E Hn].
    destruct (int_numeral num Hn) as [v Hv].
    rewrite (rewrite_content_x _ _ _ _ Ex Hv), E.
    apply rewritten_field; [left; reflexivity|exact Hn|exact Hv|].
    apply (IH (length rest)); [rewrite E; apply field_length|reflexivity].
  - destruct (coord_here Y (c :: s)) as [[num rest]|] eqn:Ey.
    + pose proof Ey as E. apply coord_here_inv in E as [E Hn].
      destruct (int_numeral num Hn) as [v Hv].
      rewrite (rewrite_content_y _ _ _ _ Ey Hv), E.
      apply rewritten_field; [right; left; reflexivity|exact Hn|exact Hv|].
      apply (IH (length rest)); [rewrite E; apply field_length|reflexivity].
    + rewrite (rewrite_content_skip _ _ Ex Ey).
      apply rewritten_char; [|apply (IH (length s)); [simpl; lia|reflexivity]].
      intros tag num rest [<-|[<-|[]]] Hn E; rewrite E in *.
      * rewrite (coord_here_field _ _ _ Hn) in Ex. discriminate Ex.
      * rewrite (coord_here_field _ _ _ Hn) in Ey. discriminate Ey.
Qed.

Lemma coord_here_None (tag : str) (c : ascii) (s : str) :
  (forall num rest : str,
      is_numeral num = true -> c :: s <> field tag num ++ rest) ->
  coord_here tag (c :: s) = None.
Proof.
  intros H. destruct (coord_here tag (c :: s)) as [[num rest]|] eqn:E;
    [|reflexivity].
  apply coord_here_inv in E as [E Hn]. destruct (H num rest Hn E).
Qed.

(** The relation of the specification determines the result. *)
Lemma rewritten_unique (s out : str) :
  rewritten s out -> out = rewrite_content s.
Proof.
  induction 1 as [|tag num rest rest' v Ht Hn Hv _ IH|c s s' Hc _ IH].
  - reflexivity.
  - subst rest'. destruct Ht as [<-|[<-|[]]]; symmetry.
    + apply (rewrite_content_x _ num); [apply coord_here_field, Hn|exact Hv].
    + apply (rewrite_content_y _ num); [apply coord_here_field, Hn|exact Hv].
  - subst s'. symmetry. apply rewrite_content_skip; apply coord_here_None;
      intros num rest; apply Hc; simpl; auto.
Qed.

Lemma no_field_rewrite_content (s : str) :
  no_field s = true -> rewrite_content s = s.
Proof.
  induction s as [|c s IH]; [reflexivity|]. cbn [no_field].
  destruct (coord_here X (c :: s)) eqn:Ex; [discriminate|].
  destruct (coord_here Y (c :: s)) eqn:Ey; [discriminate|].
  intros H. rewrite (rewrite_content_skip _ _ Ex Ey), (IH H). reflexivity.
Qed.

Lemma fields_canonical_tail (c : ascii) (s : str) :
  fields_canonical (c :: s) = true -> fields_canonical s = true.
Proof.
  cbn [fields_canonical]. intros H. apply andb_true_iff in H as [_ H].
  exact H.
Qed.

Lemma fields_canonical_app (a b : str) :
  fields_canonical (a ++ b) = true -> fields_canonical b = true.
Proof.
  induction a as [|c a IH]; [auto|].
  intros H. apply IH, (fields_canonical_tail c), H.
Qed.

Lemma fields_canonical_x (s num rest : str) :
  fields_canonical s = true -> coord_here X s = Some (num, rest) ->
  canonical num = true.
Proof.
  destruct s as [|c s]; cbn [fields_canonical]; intros H E; rewrite E in H;
    apply andb_true_iff in H as [H _]; apply andb_true_iff in H as [H _];
    exact H.
Qed.

Lemma fields_canonical_y (s num rest : str) :
  fields_canonical s = true -> coord_here Y s = Some (num, rest) ->
  canonical num = true.
Proof.
  destruct s as [|c s]; cbn [fields_canonical]; intros H E; rewrite E in H;
    apply andb_true_iff in H as [H _]; apply andb_true_iff in H as [_ H];
    exact H.
Qed.

(** Both passes together leave a place without a field without one. *)
Lemma coord_here_rewrite_content_None (tag : str) (c : ascii) (s : str) :
  In tag [X; Y] -> coord_here tag (c :: s) = None ->
  coord_here tag (c :: rewrite_content s) = None.
Proof.
  intros Ht H. unfold rewrite_content. rewrite Y_eq.
  destruct Ht as [<-|[<-|[]]];
    (apply coord_here_rewrite_None; [reflexivity|reflexivity|]);
    rewrite X_eq;
    (apply coord_here_rewrite_None; [reflexivity|reflexivity|exact H]).
Qed.

(** Rewriting twice gives the content back when its numerals are
    canonical. *)
Lemma rewrite_content_twice (s : str) :
  fields_canonical s = true -> rewrite_content (rewrite_content s) = s.
Proof.
  remember (length s) as n eqn:Hn. revert s Hn.
  induction n as [n IH] using lt_wf_ind. intros s -> Hc.
  destruct s as [|c s]; [reflexivity|].
  destruct (coord_here X (c :: s)) as [[num rest]|] eqn:Ex.
  - pose proof (fields_canonical_x _ _ _ Hc Ex) as Hnum.
    pose proof Ex as E. apply coord_here_inv in E as [E Hn].
    destruct (int_numeral num Hn) as [v Hv].
    rewrite (rewrite_content_x _ _ _ _ Ex Hv).
    rewrite (rewrite_content_x _ (Py.decimal (transform_coordinate v))
               (rewrite_content rest) (transform_coordinate v));
      [|apply coord_here_field, PyFacts.is_numeral_decimal
       |apply PyFacts.int_unlimited_decimal].
    replace (transform_coordinate (transform_coordinate v)) with v
      by (unfold transform_coordinate; lia).
    rewrite (PyFacts.decimal_int_unlimited num v Hnum Hv).
    rewrite (IH (length rest)) with (s := rest);
      [symmetry; exact E|rewrite E; apply field_length|reflexivity|].
    rewrite E in Hc. apply fields_canonical_app in Hc. exact Hc.
  - destruct (coord_here Y (c :: s)) as [[num rest]|] eqn:Ey.
    + pose proof (fields_canonical_y _ _ _ Hc Ey) as Hnum.
      pose proof Ey as E. apply coord_here_inv in E as [E Hn].
      destruct (int_numeral num Hn) as [v Hv].
      rewrite (rewrite_content_y _ _ _ _ Ey Hv).
      rewrite (rewrite_content_y _ (Py.decimal (transform_coordinate v))
                 (rewrite_content rest) (transform_coordinate v));
        [|apply coord_here_field, PyFacts.is_numeral_decimal
         |apply PyFacts.int_unlimited_decimal].
      replace (transform_coordinate (transform_coordinate v)) with v
        by (unfold transform_coordinate; lia).
      rewrite (PyFacts.decimal_int_unlimited num v Hnum Hv).
      rewrite (IH (length rest)) with (s := rest);
        [symmetry; exact E|rewrite E; apply field_length|reflexivity|].
      rewrite E in Hc. apply fields_canonical_app in Hc. exact Hc.
    + rewrite (rewrite_content_skip _ _ Ex Ey).
      rewrite rewrite_content_skip.
      * f_equal. apply (IH (length s)); [simpl; lia|reflexivity|].
        apply (fields_canonical_tail c), Hc.
      * apply coord_here_rewrite_content_None; [left; reflexivity|exact Ex].
      * apply coord_here_rewrite_content_None;
          [right; left; reflexivity|exact Ey].
Qed.

End ContentFacts.

(** ** The passes of the program and the limit on conversions *)

Module LimitFacts.
Import Re ReFacts TagFacts ContentFacts.

Lemma limited_true {A : Type} (a : A) : limited true a = Ok a.
Proof. reflexivity. Qed.

Lemma limited_ok {A : Type} (within : bool) (a b : A) :
  limited within a = Ok b -> within = true /\ a = b.
Proof.
  destruct within; [|discriminate]. intros H. injection H as <-. auto.
Qed.

Lemma value_of_int (num : str) (v : Z) :
  Py.int_unlimited num = Ok v -> value_of num = v.
Proof.
  unfold value_of. intros ->. reflexivity.
Qed.

(** What the replacement function does with the numeral of a match: both
    conversions stay within the limit, or one of them raises. *)
Lemma numeral_conversion (num : str) :
  is_numeral num = true ->
  (value <- Py.int num ;; Py.str_of_int (transform_coordinate value)) =
  limited (numeral_within_limit num)
    (Py.decimal (transform_coordinate (value_of num))).
Proof.
  intros Hn. destruct (int_numeral num Hn) as [v Hv].
  unfold numeral_within_limit. rewrite (value_of_int _ _ Hv).
  rewrite PyFacts.int_limit, Hv.
  destruct (Py.digit_count num <=? Py.max_str_digits)%nat; [|reflexivity].
  rewrite bind_ok. apply PyFacts.str_of_int_limit.
Qed.

Lemma replace_coord_pos (tag : str) (p : nat) (t : str) (g : groups) :
  replace_coord tag (mkMatch p t g) = replace_coord tag (mkMatch 0 t g).
Proof. reflexivity. Qed.

Lemma replace_coord_group1 (tag t num : str) :
  is_numeral num = true ->
  replace_coord tag (mkMatch 0 t [(1%nat, num)]) =
  (text <- limited (numeral_within_limit num)
             (Py.decimal (transform_coordinate (value_of num))) ;;
   Ok (field tag text)).
Proof.
  intros Hn. rewrite <- (numeral_conversion num Hn).
  change (replace_coord tag (mkMatch 0 t [(1%nat, num)]))
    with (value <- Py.int num ;;
          text <- Py.str_of_int (transform_coordinate value) ;;
          Ok (field tag text)).
  destruct (Py.int num) as [v|e]; reflexivity.
Qed.

(** At a tagged numeral, the pass converts the numeral, writes the new
    field and goes on after the closing tag. *)
Lemma sub_tag_match (tag s num rest : str) :
  coord_here tag s = Some (num, rest) ->
  sub_tag tag s =
  (text <- limited (numeral_within_limit num)
             (Py.decimal (transform_coordinate (value_of num))) ;;
   tail <- sub_tag tag rest ;;
   Ok (field tag text ++ tail)).
Proof.
  intros H. unfold sub_tag.
  rewrite (sub_step _ _ (replace_coord_pos tag)), match_here_coord, H.
  apply coord_here_inv in H as [-> Hn].
  rewrite (replace_coord_group1 _ _ _ Hn).
  destruct (numeral_within_limit num); [|reflexivity].
  rewrite limited_true, !bind_ok.
  pose proof (field_length tag num rest) as Hlt. apply Nat.ltb_lt in Hlt.
  rewrite Hlt. reflexivity.
Qed.

(** Elsewhere the character is copied. *)
Lemma sub_tag_skip (tag : str) (c : ascii) (s : str) :
  coord_here tag (c :: s) = None ->
  sub_tag tag (c :: s) = (tail <- sub_tag tag s ;; Ok (c :: tail)).
Proof.
  intros H. unfold sub_tag.
  rewrite (sub_step _ _ (replace_coord_pos tag)), match_here_coord, H.
  reflexivity.
Qed.

Lemma transform_xml_content_passes (s : str) :
  transform_xml_content s =
  (content <- sub_tag X s ;; content <- sub_tag Y content ;; Ok content).
Proof. reflexivity. Qed.

Lemma tag_within_limit_skip (tag : str) (c : ascii) (s : str) :
  coord_here tag (c :: s) = None ->
  tag_within_limit tag (c :: s) = tag_within_limit tag s.
Proof.
  intros H. cbn [tag_within_limit]. rewrite H. reflexivity.
Qed.

(** Text in which the tag cannot open holds no numeral to convert. *)
Lemma tag_within_limit_free (t0 : ascii) (tl w u : str) :
  free_of t0 w = true ->
  tag_within_limit (t0 :: tl) (w ++ u) = tag_within_limit (t0 :: tl) u.
Proof.
  induction w as [|c w IH]; intros H; [reflexivity|].
  cbn [List.app].
  rewrite (tag_within_limit_skip _ _ _ (free_of_head _ tl _ _ u H)).
  apply IH, (free_of_tail _ _ _ H).
Qed.

(** The value of a numeral has no more digits than the numeral. *)
Lemma size_value_of (num : str) :
  is_numeral num = true -> (size (value_of num) <= Py.digit_count num)%nat.
Proof.
  destruct num as [|c ds]; [discriminate|]. unfold is_numeral.
  destruct (Ascii.eqb "-" c) eqn:Ec; intros H;
    apply is_digits_spec in H as [Hne Hd].
  - apply Ascii.eqb_eq in Ec. subst c.
    destruct (PyFacts.magnitude_total ds Hne Hd) as (m & Hm & _).
    rewrite (value_of_int _ _ (PyFacts.int_minus_digits _ _ Hm)).
    rewrite PyFacts.size_opp, (PyFacts.digit_count_minus _ Hd).
    apply PyFacts.magnitude_size, Hm.
  - destruct (PyFacts.magnitude_total _ Hne Hd) as (m & Hm & _).
    rewrite (value_of_int _ _ (PyFacts.int_digits _ _ Hd Hm)).
    rewrite (PyFacts.digit_count_digits _ Hd).
    apply PyFacts.magnitude_size, Hm.
Qed.

(** What the replacement function wrote, it converts again within the
    limit. *)
Lemma numeral_within_limit_decimal (num : str) :
  is_numeral num = true -> numeral_within_limit num = true ->
  numeral_within_limit (Py.decimal (transform_coordinate (value_of num)))
  = true.
Proof.
  intros Hn H. unfold numeral_within_limit in *.
  apply andb_true_iff in H as [H1 H2]. apply Nat.leb_le in H1, H2.
  rewrite PyFacts.digit_count_decimal.
  rewrite (value_of_int _ _ (PyFacts.int_unlimited_decimal _)).
  replace (transform_coordinate (transform_coordinate (value_of num)))
    with (value_of num) by (unfold transform_coordinate; lia).
  pose proof (size_value_of num Hn).
  apply andb_true_iff. split; apply Nat.leb_le; lia.
Qed.

Section OneTag.

Variable t0 : ascii.
Variable tl : str.

(** The tag does not open inside its own fields. *)
Hypothesis name_free : free_of t0 ((t0 :: tl) ++ lit ">") = true.
Hypothesis close_free : free_of t0 (close_tag (t0 :: tl)) = true.

Lemma tag_within_limit_field (num u : str) :
  is_numeral num = true ->
  tag_within_limit (t0 :: tl) (field (t0 :: tl) num ++ u) =
  numeral_within_limit num && tag_within_limit (t0 :: tl) u.
Proof.
  intros Hn. pose proof (coord_here_field (t0 :: tl) num u Hn) as E.
  rewrite field_inside in *. cbn [List.app tag_within_limit] in *.
  rewrite E. f_equal.
  apply tag_within_limit_free, inside_free; assumption.
Qed.

Lemma tag_within_limit_match (s num rest : str) :
  coord_here (t0 :: tl) s = Some (num, rest) ->
  tag_within_limit (t0 :: tl) s =
  numeral_within_limit num && tag_within_limit (t0 :: tl) rest.
Proof.
  intros H. apply coord_here_inv in H as [-> Hn].
  apply tag_within_limit_field, Hn.
Qed.

(** A pass of the program returns what the pass without the limit returns
    when every numeral of its tag converts within the limit, and raises
    the [ValueError] of the limit when one does not. *)
Lemma sub_tag_limit (s : str) :
  sub_tag (t0 :: tl) s
  = limited (tag_within_limit (t0 :: tl) s) (rewrite_tag (t0 :: tl) s).
Proof.
  remember (length s) as n eqn:Hn. revert s Hn.
  induction n as [n IH] using lt_wf_ind. intros s ->.
  destruct s as [|c s]; [reflexivity|].
  destruct (coord_here (t0 :: tl) (c :: s)) as [[num rest]|] eqn:E.
  - rewrite (sub_tag_match _ _ _ _ E), (tag_within_limit_match _ _ _ E).
    pose proof E as E'. apply coord_here_inv in E' as [E' Hn].
    destruct (int_numeral num Hn) as [v Hv].
    rewrite (rewrite_tag_match _ _ _ _ _ E Hv), (value_of_int _ _ Hv).
    rewrite (IH (length rest)) with (s := rest);
      [|rewrite E'; apply field_length|reflexivity].
    destruct (numeral_within_limit num); [|reflexivity].
    destruct (tag_within_limit (t0 :: tl) rest); reflexivity.
  - rewrite (sub_tag_skip _ _ _ E), (tag_within_limit_skip _ _ _ E).
    rewrite (rewrite_tag_skip _ _ _ E).
    rewrite (IH (length s)) with (s := s); [|simpl; lia|reflexivity].
    destruct (tag_within_limit (t0 :: tl) s); reflexivity.
Qed.

(** A pass leaves numerals that convert within the limit. *)
Lemma tag_within_limit_same_pass (s : str) :
  tag_within_limit (t0 :: tl) s = true ->
  tag_within_limit (t0 :: tl) (rewrite_tag (t0 :: tl) s) = true.
Proof.
  remember (length s) as n eqn:Hn. revert s Hn.
  induction n as [n IH] using lt_wf_ind. intros s -> H.
  destruct s as [|c s]; [reflexivity|].
  destruct (coord_here (t0 :: tl) (c :: s)) as [[num rest]|] eqn:E.
  - rewrite (tag_within_limit_match _ _ _ E) in H.
    apply andb_true_iff in H as [Hnum Hrest].
    pose proof E as E'. apply coord_here_inv in E' as [E' Hn].
    destruct (int_numeral num Hn) as [v Hv].
    rewrite (rewrite_tag_match _ _ _ _ _ E Hv), <- (value_of_int _ _ Hv).
    rewrite (tag_within_limit_field _ _ (PyFacts.is_numeral_decimal _)).
    rewrite (numeral_within_limit_decimal num Hn Hnum).
    apply (IH (length rest)); [rewrite E'; apply field_length|reflexivity|].
    exact Hrest.
  - rewrite (tag_within_limit_skip _ _ _ E) in H.
    rewrite (rewrite_tag_skip _ _ _ E).
    rewrite tag_within_limit_skip.
    + apply (IH (length s)); [simpl; lia|reflexivity|exact H].
    + apply coord_here_rewrite_None; [exact name_free|exact close_free|exact E].
Qed.

End OneTag.

Section OtherTag.

(** The tag of the pass and another tag. *)
Variables a0 b0 : ascii.
Variables al bl : str.

(** Neither tag opens inside a field of the other, and the other not inside
    its own. *)
Hypothesis A_open_free : free_of b0 (open_tag (a0 :: al)) = true.
Hypothesis A_close_free : free_of b0 (close_tag (a0 :: al)) = true.
Hypothesis B_open_free : free_of a0 (open_tag (b0 :: bl)) = true.
Hypothesis B_name_free : free_of a0 ((b0 :: bl) ++ lit ">") = true.
Hypothesis B_close_free : free_of a0 (close_tag (b0 :: bl)) = true.

(** (a0 :: al) pass leaves the numerals of another tag as they are. *)
Lemma tag_within_limit_other_pass (s : str) :
  tag_within_limit (b0 :: bl) (rewrite_tag (a0 :: al) s)
  = tag_within_limit (b0 :: bl) s.
Proof.
  remember (length s) as n eqn:Hn. revert s Hn.
  induction n as [n IH] using lt_wf_ind. intros s ->.
  destruct s as [|c s]; [reflexivity|].
  destruct (coord_here (a0 :: al) (c :: s)) as [[num rest]|] eqn:E.
  - pose proof E as E'. apply coord_here_inv in E' as [E' Hn].
    destruct (int_numeral num Hn) as [v Hv].
    rewrite (rewrite_tag_match _ _ _ _ _ E Hv), E'.
    rewrite !tag_within_limit_free
      by (apply field_free;
          [exact A_open_free|exact A_close_free
          |first [exact Hn|apply PyFacts.is_numeral_decimal]]).
    apply (IH (length rest)); [rewrite E'; apply field_length|reflexivity].
  - rewrite (rewrite_tag_skip _ _ _ E). cbn [tag_within_limit].
    rewrite (IH (length s)) with (s := s); [|simpl; lia|reflexivity].
    f_equal.
    destruct (coord_here (b0 :: bl) (c :: s)) as [[num rest]|] eqn:Eb.
    + pose proof Eb as E'. apply coord_here_inv in E' as [E' Hn].
      assert (Hs : c :: rewrite_tag (a0 :: al) s
                   = field (b0 :: bl) num ++ rewrite_tag (a0 :: al) rest).
      { rewrite <- (rewrite_tag_skip _ _ _ E), E'.
        apply rewrite_tag_free, field_free;
          [exact B_open_free|exact B_close_free|exact Hn]. }
      rewrite Hs, (coord_here_field _ _ _ Hn). reflexivity.
    + rewrite (coord_here_rewrite_None (b0 :: bl) a0 al c s
                 B_name_free B_close_free Eb).
      reflexivity.
Qed.

End OtherTag.

Lemma tag_within_limit_x_pass (s : str) :
  tag_within_limit Y (rewrite_tag X s) = tag_within_limit Y s.
Proof.
  rewrite X_eq, Y_eq. apply tag_within_limit_other_pass; reflexivity.
Qed.

Lemma tag_within_limit_y_pass (s : str) :
  tag_within_limit X (rewrite_tag Y s) = tag_within_limit X s.
Proof.
  rewrite X_eq, Y_eq. apply tag_within_limit_other_pass; reflexivity.
Qed.

Lemma sub_tag_x_limit (s : str) :
  sub_tag X s = limited (tag_within_limit X s) (rewrite_tag X s).
Proof.
  rewrite X_eq. apply sub_tag_limit; reflexivity.
Qed.

Lemma sub_tag_y_limit (s : str) :
  sub_tag Y s = limited (tag_within_limit Y s) (rewrite_tag Y s).
Proof.
  rewrite Y_eq. apply sub_tag_limit; reflexivity.
Qed.

(** The content rewriter returns what the passes without the limit return
    when every tagged numeral converts within the limit, and raises the
    [ValueError] of the limit when one does not. *)
Lemma transform_xml_content_limit (s : str) :
  transform_xml_content s =
  limited (fields_within_limit s) (rewrite_content s).
Proof.
  rewrite transform_xml_content_passes. unfold fields_within_limit.
  rewrite sub_tag_x_limit.
  destruct (tag_within_limit X s); [|reflexivity].
  rewrite limited_true, bind_ok, sub_tag_y_limit, tag_within_limit_x_pass.
  destruct (tag_within_limit Y s); reflexivity.
Qed.

Lemma transform_xml_content_within (s : str) :
  fields_within_limit s = true ->
  transform_xml_content s = Ok (rewrite_content s).
Proof.
  intros H. rewrite transform_xml_content_limit, H. reflexivity.
Qed.

Lemma transform_xml_content_ok (s out : str) :
  transform_xml_content s = Ok out ->
  fields_within_limit s = true /\ out = rewrite_content s.
Proof.
  rewrite transform_xml_content_limit. intros H.
  apply limited_ok in H as [H <-]. auto.
Qed.

(** What the content rewriter returned, it rewrites again within the
    limit. *)
Lemma fields_within_limit_rewrite_content (s : str) :
  fields_within_limit s = true ->
  fields_within_limit (rewrite_content s) = true.
Proof.
  unfold fields_within_limit, rewrite_content. intros H.
  apply andb_true_iff in H as [Hx Hy]. apply andb_true_iff. split.
  - rewrite tag_within_limit_y_pass. rewrite X_eq in *.
    apply tag_within_limit_same_pass; [reflexivity|reflexivity|exact Hx].
  - rewrite <- tag_within_limit_x_pass in Hy. rewrite Y_eq in *.
    apply tag_within_limit_same_pass; [reflexivity|reflexivity|exact Hy].
Qed.

(** Content without a tagged numeral converts nothing. *)
Lemma no_field_within_limit (s : str) :
  no_field s = true -> fields_within_limit s = true.
Proof.
  unfold fields_within_limit. induction s as [|c s IH]; [reflexivity|].
  cbn [no_field].
  destruct (coord_here X (c :: s)) eqn:Ex; [discriminate|].
  destruct (coord_here Y (c :: s)) eqn:Ey; [discriminate|].
  intros H. rewrite (tag_within_limit_skip _ _ _ Ex).
  rewrite (tag_within_limit_skip _ _ _ Ey). apply IH, H.
Qed.

End LimitFacts.

(** ** The file-name pattern *)

Module FilenameFacts.
Import Re ReFacts.

Lemma suffix_here_inv (s x_run y_run e : str) :
  suffix_here s = Some (x_run, y_run, e) ->
  s = suffixed [] x_run y_run e /\ is_digits x_run = true
  /\ is_digits y_run = true /\ at_end e = true.
Proof.
  unfold suffix_here. destruct s as [|c s]; [discriminate|].
  destruct (Ascii.eqb "-" c) eqn:Ec; [|discriminate].
  apply Ascii.eqb_eq in Ec. subst c.
  destruct (digits_here s) as [[xr [|c2 s2]]|] eqn:E1; try discriminate.
  destruct (Ascii.eqb "-" c2) eqn:Ec2; [|discriminate].
  apply Ascii.eqb_eq in Ec2. subst c2.
  destruct (digits_here s2) as [[yr s3]|] eqn:E2; [|discriminate].
  destruct (strip_prefix (lit ".xml") s3) as [e'|] eqn:E3; [|discriminate].
  destruct (at_end e') eqn:E4; [|discriminate].
  intros H. injection H as <- <- <-.
  apply digits_here_spec in E1 as (-> & N1 & D1 & _).
  apply digits_here_spec in E2 as (-> & N2 & D2 & _).
  apply strip_prefix_inv in E3. subst s3.
  repeat split; try (apply is_digits_spec; split; assumption). exact E4.
Qed.

Lemma suffix_here_suffixed (x_run y_run e : str) :
  is_digits x_run = true -> is_digits y_run = true -> at_end e = true ->
  suffix_here (suffixed [] x_run y_run e) = Some (x_run, y_run, e).
Proof.
  intros Hx Hy He.
  apply is_digits_spec in Hx as [Nx Dx]. apply is_digits_spec in Hy as [Ny Dy].
  unfold suffixed, suffix_here. cbn [List.app]. cbv beta iota.
  rewrite Ascii.eqb_refl.
  rewrite (digits_here_app x_run ("-"%char :: y_run ++ lit ".xml" ++ e)
             Nx Dx eq_refl).
  rewrite Ascii.eqb_refl.
  rewrite (digits_here_app y_run (lit ".xml" ++ e) Ny Dy eq_refl).
  rewrite strip_prefix_app, He. reflexivity.
Qed.

Lemma exec_EndAnchor (s : str) (g : groups) (k : str -> groups -> outcome) :
  exec EndAnchor s g k = if at_end s then k s g else None.
Proof.
  destruct s as [|c [|c' s]]; try reflexivity.
Qed.

Lemma digit_not_dash (c : ascii) :
  Py.is_digit c = true -> Ascii.eqb "-" c = false.
Proof.
  intros H. destruct (Ascii.eqb "-" c) eqn:E; [|reflexivity].
  apply Ascii.eqb_eq in E. subst c. discriminate H.
Qed.

(** The matcher on the file-name pattern finds exactly the suffix at the
    head of the string; groups 1 and 2 are the dashes with their digits. *)
Lemma match_here_filename (s : str) :
  match_here filename_pattern s =
  match suffix_here s with
  | Some (x_run, y_run, e) => Some (e, suffix_groups x_run y_run)
  | None => None
  end.
Proof.
  unfold match_here, filename_pattern, suffix_here.
  rewrite exec_Seq, exec_Group, exec_dash_digits.
  2:{ intros c s' g Hc. rewrite exec_Seq, exec_Group, exec_Seq, exec_Chr.
      rewrite (digit_not_dash c Hc). reflexivity. }
  destruct s as [|c s1]; [reflexivity|].
  destruct (Ascii.eqb "-" c) eqn:Ec; [|reflexivity].
  apply Ascii.eqb_eq in Ec. subst c.
  destruct (digits_here s1) as [[xr rest]|] eqn:E1; [|reflexivity].
  apply digits_here_spec in E1 as (-> & _ & _ & _).
  change ("-"%char :: xr ++ rest) with (("-"%char :: xr) ++ rest).
  rewrite firstn_app_len.
  rewrite exec_Seq, exec_Group, exec_dash_digits.
  2:{ intros c s' g Hc. rewrite exec_Seq, exec_Group, exec_chars.
      change (lit ".xml") with ("."%char :: lit "xml").
      rewrite (strip_prefix_not_digit _ c "." s' eq_refl Hc). reflexivity. }
  destruct rest as [|c2 s2]; [reflexivity|].
  destruct (Ascii.eqb "-" c2) eqn:Ec2; [|reflexivity].
  apply Ascii.eqb_eq in Ec2. subst c2.
  destruct (digits_here s2) as [[yr s3]|] eqn:E2; [|reflexivity].
  apply digits_here_spec in E2 as (-> & _ & _ & _).
  change ("-"%char :: yr ++ s3) with (("-"%char :: yr) ++ s3).
  rewrite firstn_app_len.
  rewrite exec_Seq, exec_Group, exec_chars.
  destruct (strip_prefix (lit ".xml") s3) as [e|] eqn:E3; [|reflexivity].
  apply strip_prefix_inv in E3. subst s3.
  rewrite firstn_app_len, exec_EndAnchor.
  destruct (at_end e); reflexivity.
Qed.

(** *** [re.search] finds the suffix, and only there *)

Lemma dashes_app (a b : str) : dashes (a ++ b) = (dashes a + dashes b)%nat.
Proof. apply count_occ_app. Qed.

Lemma dashes_digits (ds : str) :
  forallb Py.is_digit ds = true -> dashes ds = 0%nat.
Proof.
  induction ds as [|c ds IH]; [reflexivity|]. cbn [forallb].
  intros H. apply andb_true_iff in H as [Hc Hd].
  unfold dashes. rewrite count_occ_cons_neq; [apply IH, Hd|].
  intros ->. discriminate Hc.
Qed.

Lemma dashes_at_end (e : str) : at_end e = true -> dashes e = 0%nat.
Proof.
  destruct e as [|c [|c' e]]; try discriminate; [reflexivity|].
  simpl. intros H. apply Ascii.eqb_eq in H. subst c. reflexivity.
Qed.

Lemma suffixed_app (p x_run y_run e : str) :
  suffixed p x_run y_run e = p ++ suffixed [] x_run y_run e.
Proof. reflexivity. Qed.

Lemma suffixed_text (p x_run y_run e : str) :
  suffixed p x_run y_run e = p ++ suffix_text x_run y_run ++ e.
Proof.
  unfold suffixed, suffix_text. cbn [List.app].
  rewrite <- !app_assoc. cbn [List.app]. rewrite <- !app_assoc. reflexivity.
Qed.

Lemma dashes_suffixed (p x_run y_run e : str) :
  is_digits x_run = true -> is_digits y_run = true -> at_end e = true ->
  dashes (suffixed p x_run y_run e) = (dashes p + 2)%nat.
Proof.
  intros Hx Hy He.
  apply is_digits_spec in Hx as [_ Dx]. apply is_digits_spec in Hy as [_ Dy].
  unfold suffixed. rewrite dashes_app.
  change ("-"%char :: x_run ++ "-"%char :: y_run ++ lit ".xml" ++ e)
    with (["-"%char] ++ x_run ++ ["-"%char] ++ y_run ++ lit ".xml" ++ e).
  rewrite !dashes_app, (dashes_digits _ Dx), (dashes_digits _ Dy),
    (dashes_at_end _ He).
  reflexivity.
Qed.

(** The suffix is matched nowhere before its own place. *)
Lemma suffix_here_before (c : ascii) (p x_run y_run e : str) :
  is_digits x_run = true -> is_digits y_run = true -> at_end e = true ->
  suffix_here (suffixed (c :: p) x_run y_run e) = None.
Proof.
  intros Hx Hy He.
  destruct (suffix_here (suffixed (c :: p) x_run y_run e))
    as [[[a b] e']|] eqn:E; [exfalso|reflexivity].
  apply suffix_here_inv in E as (E & Ha & Hb & He').
  assert (D : dashes (suffixed (c :: p) x_run y_run e) = 2%nat)
    by (rewrite E; apply (dashes_suffixed [] a b e' Ha Hb He')).
  rewrite (dashes_suffixed _ _ _ _ Hx Hy He) in D.
  unfold suffixed in E. cbn [List.app] in E. injection E as -> _.
  unfold dashes in D. rewrite count_occ_cons_eq in D by reflexivity. lia.
Qed.

Lemma search_from_suffixed (p x_run y_run e : str) :
  is_digits x_run = true -> is_digits y_run = true -> at_end e = true ->
  forall pos : nat,
    search_from filename_pattern pos (suffixed p x_run y_run e) =
    Some (mkMatch (pos + length p) (suffix_text x_run y_run)
            (suffix_groups x_run y_run)).
Proof.
  intros Hx Hy He. induction p as [|c p IH]; intros pos.
  - unfold search_from.
    assert (M : match_at filename_pattern pos (suffixed [] x_run y_run e) =
                Some (mkMatch (pos + 0) (suffix_text x_run y_run)
                        (suffix_groups x_run y_run), e)).
    { unfold match_at. rewrite match_here_filename.
      rewrite (suffix_here_suffixed _ _ _ Hx Hy He).
      rewrite (suffixed_text [] x_run y_run e). cbn [List.app].
      rewrite firstn_app_len, Nat.add_0_r. reflexivity. }
    destruct (suffixed [] x_run y_run e); rewrite M; reflexivity.
  - change (suffixed (c :: p) x_run y_run e)
      with (c :: suffixed p x_run y_run e).
    cbn [search_from].
    change (c :: suffixed p x_run y_run e)
      with (suffixed (c :: p) x_run y_run e).
    unfold match_at. rewrite match_here_filename.
    rewrite (suffix_here_before _ _ _ _ _ Hx Hy He).
    rewrite IH. cbn [length]. rewrite Nat.add_succ_r. reflexivity.
Qed.

(** *** The file-name rewriter on a name that ends in the suffix *)

Lemma suffixed_rebuilt (p a b : str) :
  p ++ lit "-" ++ a ++ lit "-" ++ b ++ lit ".xml" = suffixed p a b [].
Proof.
  unfold suffixed. rewrite List.app_nil_r. reflexivity.
Qed.

Lemma firstn_prefix (p rest : str) (n : nat) :
  n = length p -> firstn n (p ++ rest) = p.
Proof.
  intros ->. rewrite firstn_app, Nat.sub_diag, firstn_all. simpl.
  apply List.app_nil_r.
Qed.

Lemma magnitude_nonneg (ds : str) (v : Z) :
  is_digits ds = true -> Py.magnitude ds = Some v -> 0 <= v.
Proof.
  intros H Hm. apply is_digits_spec in H as [Hne Hd].
  destruct (PyFacts.magnitude_total ds Hne Hd) as (v' & Hv & Hpos).
  congruence.
Qed.

(** The field of the transform of a run within the limit is written within
    the limit. *)
Lemma format_03d_transform (ds : str) (v : Z) :
  is_digits ds = true -> Py.magnitude ds = Some v ->
  (length ds <= Py.max_str_digits)%nat ->
  Py.format_03d (transform_coordinate v)
  = Ok (Py.padded_03d (transform_coordinate v)).
Proof.
  intros H Hm Hl. apply PyFacts.format_03d_within.
  apply PyFacts.size_transform_nonneg.
  - apply (magnitude_nonneg ds), Hm. exact H.
  - apply Nat.leb_le. reflexivity.
  - pose proof (PyFacts.magnitude_size ds v Hm). lia.
Qed.

(** Both runs are read as magnitudes, transformed and written back in
    fields of width 3; what followed [.xml] is not written back.  A run
    beyond the limit is refused by [int]. *)
Lemma transform_filename_limit (p x_run y_run e : str) (x y : Z) :
  is_digits x_run = true -> is_digits y_run = true -> at_end e = true ->
  Py.magnitude x_run = Some x -> Py.magnitude y_run = Some y ->
  transform_filename (suffixed p x_run y_run e) =
  limited ((length x_run <=? Py.max_str_digits)%nat
           && (length y_run <=? Py.max_str_digits)%nat)
    (suffixed p (Py.padded_03d (transform_coordinate x))
       (Py.padded_03d (transform_coordinate y)) []).
Proof.
  intros Hx Hy He Mx My. unfold transform_filename, search.
  rewrite (search_from_suffixed p _ _ _ Hx Hy He).
  pose proof Hx as Hx'. pose proof Hy as Hy'.
  apply is_digits_spec in Hx' as [_ Dx]. apply is_digits_spec in Hy' as [_ Dy].
  change (from_1 (group _ 1)) with (@Ok str x_run). rewrite bind_ok.
  rewrite PyFacts.int_limit, (PyFacts.digit_count_digits _ Dx).
  destruct (length x_run <=? Py.max_str_digits)%nat eqn:Lx; [|reflexivity].
  rewrite (PyFacts.int_digits _ _ Dx Mx), bind_ok.
  change (from_1 (group _ 2)) with (@Ok str y_run). rewrite bind_ok.
  rewrite PyFacts.int_limit, (PyFacts.digit_count_digits _ Dy).
  destruct (length y_run <=? Py.max_str_digits)%nat eqn:Ly; [|reflexivity].
  rewrite (PyFacts.int_digits _ _ Dy My), bind_ok.
  apply Nat.leb_le in Lx, Ly.
  cbv zeta.
  rewrite (format_03d_transform _ _ Hx Mx Lx), bind_ok.
  rewrite (format_03d_transform _ _ Hy My Ly), bind_ok.
  unfold start. cbn [m_start].
  rewrite (suffixed_app p x_run y_run e).
  rewrite (firstn_prefix p _ (0 + length p) eq_refl).
  change (group _ 3) with (Some (lit ".xml")). cbv beta iota.
  rewrite suffixed_rebuilt. reflexivity.
Qed.

Lemma transform_filename_suffixed (p x_run y_run e : str) (x y : Z) :
  is_digits x_run = true -> is_digits y_run = true -> at_end e = true ->
  Py.magnitude x_run = Some x -> Py.magnitude y_run = Some y ->
  (length x_run <= Py.max_str_digits)%nat ->
  (length y_run <= Py.max_str_digits)%nat ->
  transform_filename (suffixed p x_run y_run e) =
  Ok (suffixed p (Py.padded_03d (transform_coordinate x))
        (Py.padded_03d (transform_coordinate y)) []).
Proof.
  intros Hx Hy He Mx My Lx Ly.
  rewrite (transform_filename_limit _ _ _ _ _ _ Hx Hy He Mx My).
  apply Nat.leb_le in Lx, Ly. rewrite Lx, Ly. reflexivity.
Qed.

(** A field for a value from 0 to 25 is within the limit... *)
Lemma padded_03d_small_within (z : Z) :
  0 <= z <= 25 -> (length (Py.padded_03d z) <= Py.max_str_digits)%nat.
Proof.
  intros Hz. rewrite (PyFacts.padded_03d_small z Hz).
  apply Nat.leb_le. reflexivity.
Qed.

(** ... and is three digits that read back as the value. *)
Lemma padded_03d_reads_back (z : Z) :
  0 <= z <= 25 ->
  length (Py.padded_03d z) = 3%nat /\
  is_digits (Py.padded_03d z) = true /\
  Py.int (Py.padded_03d z) = Ok z.
Proof.
  intros Hz. destruct (PyFacts.padded_03d_nonneg z) as [Hd Hm]; [lia|].
  split; [apply PyFacts.padded_03d_small, Hz|]. split; [exact Hd|].
  apply is_digits_spec in Hd as [_ Hd].
  apply PyFacts.int_digits_within;
    [exact Hd|exact Hm|apply padded_03d_small_within, Hz].
Qed.

(** Without a match the name is returned as it is. *)
Lemma search_from_None (s : str) (pos : nat) :
  suffix_anywhere s = false -> search_from filename_pattern pos s = None.
Proof.
  revert pos. induction s as [|c s IH]; intros pos; cbn [suffix_anywhere].
  - destruct (suffix_here []) eqn:E; [discriminate|]. intros _.
    cbn [search_from]. unfold match_at. rewrite match_here_filename, E.
    reflexivity.
  - destruct (suffix_here (c :: s)) eqn:E; [discriminate|]. intros H.
    cbn [search_from]. unfold match_at. rewrite match_here_filename, E.
    apply IH, H.
Qed.

Lemma transform_filename_fallback (s : str) :
  suffix_anywhere s = false -> transform_filename s = Ok s.
Proof.
  intros H. unfold transform_filename, search.
  rewrite (search_from_None s 0 H). reflexivity.
Qed.

(** The pattern matches somewhere only in a name that ends in the suffix,
    or in the suffix and a line feed. *)
Lemma suffix_anywhere_inv (s : str) :
  suffix_anywhere s = true ->
  exists p x_run y_run e : str,
    s = suffixed p x_run y_run e /\ is_digits x_run = true
    /\ is_digits y_run = true /\ at_end e = true.
Proof.
  induction s as [|c s IH]; cbn [suffix_anywhere].
  - destruct (suffix_here []) as [[[a b] e]|] eqn:E; [|discriminate].
    intros _. apply suffix_here_inv in E. exists [], a, b, e. exact E.
  - destruct (suffix_here (c :: s)) as [[[a b] e]|] eqn:E.
    + intros _. apply suffix_here_inv in E. exists [], a, b, e. exact E.
    + intros H. destruct (IH H) as (p & a & b & e & -> & Ha & Hb & He).
      exists (c :: p), a, b, e. repeat split; assumption.
Qed.

(** The file-name rewriter changes only a name that ends in the suffix, or
    in the suffix and a line feed. *)
Lemma transform_filename_changes (s : str) :
  transform_filename s <> Ok s ->
  exists p x_run y_run e : str,
    s = suffixed p x_run y_run e /\ is_digits x_run = true
    /\ is_digits y_run = true /\ at_end e = true.
Proof.
  intros H. apply suffix_anywhere_inv.
  destruct (suffix_anywhere s) eqn:E; [reflexivity|].
  destruct (H (transform_filename_fallback s E)).
Qed.

End FilenameFacts.

(** ** The batch driver *)

Module BatchFacts.
Import Batch.

Section Driver.

Variable world : Type.
Variable mkdir : str -> world -> result unit * world.
Variable glob_xml : str -> world -> result (list str) * world.
Variable read_text : str -> str -> world -> result str * world.
Variable write_text : str -> str -> str -> world -> result unit * world.

(** The calls on the world leave the console alone. *)
Lemma on_world_console {A : Type} (op : world -> result A * world)
    (st st' : state world) (r : result A) :
  on_world world op st = (r, st') -> console st' = console st.
Proof.
  unfold on_world. destruct (op (the_world st)) as [r' w].
  intros H. injection H as _ <-. reflexivity.
Qed.

(** One conversion writes its own line when it succeeds and nothing when it
    raises. *)
Lemma convert_console (input_dir output_dir f : str) (st st' : state world)
    (r : result unit) :
  convert world read_text write_text input_dir output_dir f st = (r, st') ->
  (r = Ok tt /\
   exists new_name : str, console st' = console st ++ [Converted f new_name])
  \/ (exists e : exn, r = Raise e /\ console st' = console st).
Proof.
  unfold Batch.convert, bindM, pure, on_world, print.
  destruct (read_text input_dir f (the_world st)) as [[content|e] w1];
    [|intros H; injection H as <- <-; right; exists e; auto].
  destruct (transform_xml_content content) as [new_content|e];
    [|intros H; injection H as <- <-; right; exists e; auto].
  destruct (transform_filename f) as [new_filename|e];
    [|intros H; injection H as <- <-; right; exists e; auto].
  cbn [the_world console].
  destruct (write_text output_dir new_filename new_content w1) as [[[]|e] w2];
    intros H; injection H as <- <-.
  - left. split; [reflexivity|]. exists new_filename. reflexivity.
  - right. exists e. auto.
Qed.

(** The loop never raises: it attempts every file and reports on each. *)
Lemma convert_all_attempts (input_dir output_dir : str) (files : list str) :
  forall st : state world,
    exists (st' : state world) (lines : list line),
      convert_all world read_text write_text input_dir output_dir files st
      = (Ok tt, st')
      /\ attempted world read_text write_text input_dir output_dir files
           st st'
      /\ console st' = console st ++ lines
      /\ Forall2 reports files lines.
Proof.
  induction files as [|f fs IH]; intros st.
  - exists st, []. repeat split; [constructor|symmetry; apply List.app_nil_r|constructor].
  - unfold Batch.convert_all. cbn [for_each]. unfold bindM, try_except.
    destruct (convert world read_text write_text input_dir output_dir f st)
      as [[[]|e] st1] eqn:E.
    + destruct (IH st1) as (st' & lines & Hrun & Hatt & Hcon & Hrep).
      destruct (convert_console _ _ _ _ _ _ E) as [[_ [new Hc]]|[e [He _]]];
        [|discriminate He].
      exists st', (Converted f new :: lines).
      split; [exact Hrun|]. split; [eapply attempted_converted; eassumption|].
      split; [rewrite Hcon, Hc, <- app_assoc; reflexivity|].
      constructor; [left; exists new; reflexivity|exact Hrep].
    + unfold print.
      destruct (IH (mkState (the_world st1) (console st1 ++ [Failed f e])))
        as (st' & lines & Hrun & Hatt & Hcon & Hrep).
      destruct (convert_console _ _ _ _ _ _ E) as [[He _]|[e' [_ Hc]]];
        [discriminate He|].
      exists st', (Failed f e :: lines).
      split; [exact Hrun|]. split; [eapply attempted_failed; eassumption|].
      split; [rewrite Hcon; cbn [console]; rewrite Hc, <- app_assoc; reflexivity|].
      constructor; [right; exists e; reflexivity|exact Hrep].
Qed.

End Driver.

End BatchFacts.

(** ** Properties of the coordinate transformer *)

(** C1, as the specification states it, asks for [transform(25) == 25].
    The code maps 25 to 0. *)
Lemma transform_coordinate_25_not_fixed :
  ~ ((forall v : Z, transform_coordinate v = - v + 25) /\
     transform_coordinate 25 = 25 /\
     transform_coordinate 0 = 25 /\
     transform_coordinate 50 = -25).
Proof.
  intros (_ & H & _). vm_compute in H. discriminate H.
Qed.

(** C1 (amended): for every integer [v], [transform_coordinate v] is
    [-v + 25]; in particular 25 goes to 0, 0 goes to 25 and 50 to -25, and no
    integer is a fixed point.  The function is total and pure: it is a Rocq
    function on all of [Z]. *)
Theorem transform_coordinate_spec :
  (forall v : Z, transform_coordinate v = - v + 25) /\
  transform_coordinate 25 = 0 /\
  transform_coordinate 0 = 25 /\
  transform_coordinate 50 = -25 /\
  (forall v : Z, transform_coordinate v <> v).
Proof.
  split; [intros v; reflexivity|].
  split; [reflexivity|]. split; [reflexivity|]. split; [reflexivity|].
  intros v. unfold transform_coordinate. lia.
Qed.

(** C2: the coordinate transformer is an involution. *)
Theorem transform_coordinate_involutive :
  forall v : Z, transform_coordinate (transform_coordinate v) = v.
Proof.
  intros v. unfold transform_coordinate. lia.
Qed.

(** ** Properties of the content rewriter *)

(** C3, as the specification states it, fails on a numeral that [int] reads
    but whose transformed value has one digit too many for [str]: the
    content rewriter raises instead of replacing the field. *)
Lemma transform_xml_content_long_value :
  Py.int ("-"%char :: repeat "9"%char 4300) = Ok (- (10 ^ 4300 - 1)) /\
  Py.str_of_int (transform_coordinate (- (10 ^ 4300 - 1)))
  = Raise Py.limit_exceeded /\
  transform_xml_content
    (lit "<Y_COORD>-" ++ repeat "9"%char 4300 ++ lit "</Y_COORD>")
  = Raise Py.limit_exceeded /\
  forall out : str,
    transform_xml_content
      (lit "<Y_COORD>-" ++ repeat "9"%char 4300 ++ lit "</Y_COORD>")
    <> Ok out.
Proof.
  assert (H :
    transform_xml_content
      (lit "<Y_COORD>-" ++ repeat "9"%char 4300 ++ lit "</Y_COORD>")
    = Raise Py.limit_exceeded) by (vm_compute; reflexivity).
  split; [vm_compute; reflexivity|]. split; [vm_compute; reflexivity|].
  split; [exact H|]. intros out. rewrite H. discriminate.
Qed.

(** C3 (amended): for every input string in which every tagged numeral and
    the decimal string of its transformed value have at most 4300 digits,
    the content rewriter returns the string in which, from left to right,
    every [<X_COORD>] or [<Y_COORD>] pair around an optional [-] and one or
    more digits is replaced by the same pair around the decimal string of
    the transformed integer, and every other character is unchanged
    ([rewritten] holds of exactly this result).  The decimal string is what
    [str] returns; it reads back as the integer and is canonical: no
    padding, no leading zeros, a sign only if negative.  The example of the
    specification holds, and content without a tagged numeral is returned
    unchanged. *)
Theorem transform_xml_content_spec :
  (forall s : str,
      fields_within_limit s = true ->
      exists out : str,
        transform_xml_content s = Ok out /\ rewritten s out
        /\ forall out' : str, rewritten s out' -> out' = out) /\
  (forall (z : Z) (text : str),
      Py.str_of_int z = Ok text ->
      text = Py.decimal z /\ Py.int text = Ok z /\ canonical text = true) /\
  (forall z : Z,
      Py.int_unlimited (Py.decimal z) = Ok z
      /\ canonical (Py.decimal z) = true) /\
  transform_xml_content (lit "<X_COORD>23</X_COORD><Y_COORD>10</Y_COORD>")
  = Ok (lit "<X_COORD>2</X_COORD><Y_COORD>15</Y_COORD>") /\
  (forall s : str, no_field s = true -> transform_xml_content s = Ok s).
Proof.
  split; [|split; [|split; [|split]]].
  - intros s H. exists (rewrite_content s).
    split; [apply LimitFacts.transform_xml_content_within, H|].
    split; [apply ContentFacts.rewritten_rewrite_content|].
    intros out'. apply ContentFacts.rewritten_unique.
  - intros z text H. rewrite PyFacts.str_of_int_limit in H.
    apply LimitFacts.limited_ok in H as [H <-]. apply Nat.leb_le in H.
    split; [reflexivity|].
    split; [apply PyFacts.int_decimal, H|apply PyFacts.canonical_decimal].
  - intros z. split;
      [apply PyFacts.int_unlimited_decimal|apply PyFacts.canonical_decimal].
  - vm_compute. reflexivity.
  - intros s H.
    rewrite (LimitFacts.transform_xml_content_within s
               (LimitFacts.no_field_within_limit s H)).
    rewrite (ContentFacts.no_field_rewrite_content s H). reflexivity.
Qed.

(** C3 (amended) on the example of the specification. *)
Lemma transform_xml_content_spec_witness :
  fields_within_limit (lit "<X_COORD>23</X_COORD><Y_COORD>10</Y_COORD>")
  = true /\
  exists out : str,
    transform_xml_content (lit "<X_COORD>23</X_COORD><Y_COORD>10</Y_COORD>")
    = Ok out
    /\ rewritten (lit "<X_COORD>23</X_COORD><Y_COORD>10</Y_COORD>") out
    /\ forall out' : str,
        rewritten (lit "<X_COORD>23</X_COORD><Y_COORD>10</Y_COORD>") out' ->
        out' = out.
Proof.
  split; [reflexivity|].
  apply (proj1 transform_xml_content_spec). reflexivity.
Defined.

(** C6, as the specification states it, fails on a numeral with a leading
    zero: [023] comes back as [23]. *)
Lemma rewrite_twice_leading_zero :
  rewrite_twice (lit "<X_COORD>023</X_COORD>")
  <> Ok (lit "<X_COORD>023</X_COORD>").
Proof.
  vm_compute. discriminate.
Qed.

(** It fails as well on a canonical numeral beyond the limit, which the
    content rewriter does not rewrite even once. *)
Example rewrite_twice_long_numeral :
  fields_canonical
    (lit "<X_COORD>" ++ repeat "1"%char 4301 ++ lit "</X_COORD>") = true /\
  rewrite_twice (lit "<X_COORD>" ++ repeat "1"%char 4301 ++ lit "</X_COORD>")
  = Raise Py.limit_exceeded.
Proof.
  split; vm_compute; reflexivity.
Qed.

(** C6 (amended): for every content string whose tagged numerals are all
    canonical decimal numerals (no leading zeros, no [-0]) that have, as the
    decimal strings of their transformed values have, at most 4300 digits,
    applying the content rewriter twice returns the original string. *)
Theorem rewrite_twice_canonical (s : str) :
  fields_canonical s = true -> fields_within_limit s = true ->
  rewrite_twice s = Ok s.
Proof.
  intros H Hw. unfold rewrite_twice.
  rewrite (LimitFacts.transform_xml_content_within s Hw), bind_ok.
  rewrite (LimitFacts.transform_xml_content_within _
             (LimitFacts.fields_within_limit_rewrite_content s Hw)).
  rewrite (ContentFacts.rewrite_content_twice s H). reflexivity.
Qed.

(** C6 (amended) on a document with two canonical fields. *)
Lemma rewrite_twice_canonical_witness :
  fields_canonical (lit "<r><X_COORD>23</X_COORD> <Y_COORD>-10</Y_COORD></r>")
  = true /\
  fields_within_limit
    (lit "<r><X_COORD>23</X_COORD> <Y_COORD>-10</Y_COORD></r>") = true /\
  rewrite_twice (lit "<r><X_COORD>23</X_COORD> <Y_COORD>-10</Y_COORD></r>")
  = Ok (lit "<r><X_COORD>23</X_COORD> <Y_COORD>-10</Y_COORD></r>").
Proof.
  split; [reflexivity|]. split; [reflexivity|].
  apply rewrite_twice_canonical; reflexivity.
Defined.

(** C10, as the specification states it, fails on a numeral of 4301 digits:
    the pattern matches it, and the integer parse in the replacement
    function raises. *)
Lemma transform_xml_content_long_numeral :
  Re.match_here x_coord_pattern
    (lit "<X_COORD>" ++ repeat "1"%char 4301 ++ lit "</X_COORD>")
  = Some ([], [(1%nat, repeat "1"%char 4301)]) /\
  Py.int (repeat "1"%char 4301) = Raise Py.limit_exceeded /\
  transform_xml_content
    (lit "<X_COORD>" ++ repeat "1"%char 4301 ++ lit "</X_COORD>")
  = Raise Py.limit_exceeded /\
  forall out : str,
    transform_xml_content
      (lit "<X_COORD>" ++ repeat "1"%char 4301 ++ lit "</X_COORD>")
    <> Ok out.
Proof.
  assert (H :
    transform_xml_content
      (lit "<X_COORD>" ++ repeat "1"%char 4301 ++ lit "</X_COORD>")
    = Raise Py.limit_exceeded) by (vm_compute; reflexivity).
  split; [vm_compute; reflexivity|]. split; [vm_compute; reflexivity|].
  split; [exact H|]. intros out. rewrite H. discriminate.
Qed.

(** C10 (amended): for every input string the content rewriter returns or
    raises the [ValueError] of the limit on conversions, and it returns
    exactly when every tagged numeral and the decimal string of its
    transformed value have at most 4300 digits.  Whatever a coordinate
    pattern matches, its group 1 is an optional [-] and one or more digits;
    it denotes an integer, and [int] returns that integer or, when the
    digits are more than 4300, raises that [ValueError]. *)
Theorem transform_xml_content_total :
  (forall s : str,
      (exists out : str, transform_xml_content s = Ok out)
      \/ transform_xml_content s = Raise Py.limit_exceeded) /\
  (forall s : str,
      fields_within_limit s = true <->
      exists out : str, transform_xml_content s = Ok out) /\
  (forall s : str,
      match Re.match_here x_coord_pattern s with
      | Some (_, g) =>
          exists (num : str) (v : Z),
            g = [(1%nat, num)] /\ is_numeral num = true
            /\ Py.int_unlimited num = Ok v
            /\ Py.int num
               = limited (Py.digit_count num <=? Py.max_str_digits)%nat v
      | None => True
      end) /\
  (forall s : str,
      match Re.match_here y_coord_pattern s with
      | Some (_, g) =>
          exists (num : str) (v : Z),
            g = [(1%nat, num)] /\ is_numeral num = true
            /\ Py.int_unlimited num = Ok v
            /\ Py.int num
               = limited (Py.digit_count num <=? Py.max_str_digits)%nat v
      | None => True
      end).
Proof.
  split; [|split; [|split]].
  - intros s. rewrite LimitFacts.transform_xml_content_limit.
    destruct (fields_within_limit s); [left; eexists|right]; reflexivity.
  - intros s. rewrite LimitFacts.transform_xml_content_limit. split.
    + intros ->. eexists. reflexivity.
    + intros [out H]. apply LimitFacts.limited_ok in H as [H _]. exact H.
  - intros s. change x_coord_pattern with (coord_pattern X).
    rewrite TagFacts.match_here_coord.
    destruct (coord_here X s) as [[num rest]|] eqn:E; [|exact I].
    apply TagFacts.coord_here_inv in E as [_ Hn].
    destruct (ReFacts.int_numeral num Hn) as [v Hv].
    exists num, v. rewrite PyFacts.int_limit, Hv. auto.
  - intros s. change y_coord_pattern with (coord_pattern Y).
    rewrite TagFacts.match_here_coord.
    destruct (coord_here Y s) as [[num rest]|] eqn:E; [|exact I].
    apply TagFacts.coord_here_inv in E as [_ Hn].
    destruct (ReFacts.int_numeral num Hn) as [v Hv].
    exists num, v. rewrite PyFacts.int_limit, Hv. auto.
Qed.

(** C10 (amended) on a document whose numerals are within the limit. *)
Lemma transform_xml_content_total_witness :
  exists out : str,
    transform_xml_content (lit "<r><X_COORD>-7</X_COORD></r>") = Ok out.
Proof.
  apply (proj1 (proj1 (proj2 transform_xml_content_total) _)). reflexivity.
Defined.

(** ** Properties of the file-name rewriter *)

(** C4, as the specification states it, fails on a run of 4301 digits,
    leading zeros included: [int] raises, and so does the file-name
    rewriter. *)
Lemma transform_filename_long_run :
  Py.int (repeat "0"%char 4300 ++ lit "5") = Raise Py.limit_exceeded /\
  transform_filename (lit "a-" ++ repeat "0"%char 4300 ++ lit "5-7.xml")
  = Raise Py.limit_exceeded /\
  forall out : str,
    transform_filename (lit "a-" ++ repeat "0"%char 4300 ++ lit "5-7.xml")
    <> Ok out.
Proof.
  assert (H :
    transform_filename (lit "a-" ++ repeat "0"%char 4300 ++ lit "5-7.xml")
    = Raise Py.limit_exceeded) by (vm_compute; reflexivity).
  split; [vm_compute; reflexivity|].
  split; [exact H|]. intros out. rewrite H. discriminate.
Qed.

(** C4 (amended): for every file name that ends in a dash, a run of at most
    4300 digits, a dash, a run of at most 4300 digits and [.xml], the two
    runs are read as unsigned decimal magnitudes, each is transformed, and
    the name is rebuilt as the prefix, [-], the first value in a zero-filled
    field of width 3, [-], the second value in such a field, and [.xml].  A
    value from 0 to 25 fills exactly three characters.  The example of the
    docstring holds. *)
Theorem transform_filename_spec :
  (forall p x_run y_run : str,
      is_digits x_run = true -> is_digits y_run = true ->
      (length x_run <= Py.max_str_digits)%nat ->
      (length y_run <= Py.max_str_digits)%nat ->
      exists x y : Z,
        Py.int x_run = Ok x /\ Py.int y_run = Ok y /\ 0 <= x /\ 0 <= y /\
        Py.format_03d (transform_coordinate x)
        = Ok (Py.padded_03d (transform_coordinate x)) /\
        Py.format_03d (transform_coordinate y)
        = Ok (Py.padded_03d (transform_coordinate y)) /\
        transform_filename
          (p ++ lit "-" ++ x_run ++ lit "-" ++ y_run ++ lit ".xml")
        = Ok (p ++ lit "-" ++ Py.padded_03d (transform_coordinate x)
                ++ lit "-" ++ Py.padded_03d (transform_coordinate y)
                ++ lit ".xml") /\
        (x <= 25 ->
         length (Py.padded_03d (transform_coordinate x)) = 3%nat /\
         is_digits (Py.padded_03d (transform_coordinate x)) = true /\
         Py.int (Py.padded_03d (transform_coordinate x))
         = Ok (transform_coordinate x)) /\
        (y <= 25 ->
         length (Py.padded_03d (transform_coordinate y)) = 3%nat /\
         is_digits (Py.padded_03d (transform_coordinate y)) = true /\
         Py.int (Py.padded_03d (transform_coordinate y))
         = Ok (transform_coordinate y))) /\
  transform_filename
    (lit "1830002926_A2LPAC14A1-FAKY25420001-0-0_SM1C10011 25-023-010.xml")
  = Ok (lit "1830002926_A2LPAC14A1-FAKY25420001-0-0_SM1C10011 25-002-015.xml").
Proof.
  split; [|vm_compute; reflexivity].
  intros p x_run y_run Hx Hy Lx Ly.
  pose proof Hx as Hx'. pose proof Hy as Hy'.
  apply ReFacts.is_digits_spec in Hx' as [Nx Dx].
  apply ReFacts.is_digits_spec in Hy' as [Ny Dy].
  destruct (PyFacts.magnitude_total _ Nx Dx) as (x & Mx & Px).
  destruct (PyFacts.magnitude_total _ Ny Dy) as (y & My & Py).
  exists x, y.
  split; [apply PyFacts.int_digits_within; assumption|].
  split; [apply PyFacts.int_digits_within; assumption|].
  split; [exact Px|]. split; [exact Py|].
  split; [apply (FilenameFacts.format_03d_transform x_run); assumption|].
  split; [apply (FilenameFacts.format_03d_transform y_run); assumption|].
  split.
  - rewrite !FilenameFacts.suffixed_rebuilt.
    apply FilenameFacts.transform_filename_suffixed; auto.
  - split; intros H.
    + apply FilenameFacts.padded_03d_reads_back.
      unfold transform_coordinate; lia.
    + apply FilenameFacts.padded_03d_reads_back.
      unfold transform_coordinate; lia.
Qed.

(** C4 (amended) on a name with the runs [023] and [010]. *)
Lemma transform_filename_spec_witness :
  exists x y : Z,
    Py.int (lit "023") = Ok x /\ Py.int (lit "010") = Ok y /\
    0 <= x /\ 0 <= y /\
    Py.format_03d (transform_coordinate x)
    = Ok (Py.padded_03d (transform_coordinate x)) /\
    Py.format_03d (transform_coordinate y)
    = Ok (Py.padded_03d (transform_coordinate y)) /\
    transform_filename
      (lit "set 25" ++ lit "-" ++ lit "023" ++ lit "-" ++ lit "010" ++ lit ".xml")
    = Ok (lit "set 25" ++ lit "-" ++ Py.padded_03d (transform_coordinate x)
            ++ lit "-" ++ Py.padded_03d (transform_coordinate y)
            ++ lit ".xml") /\
    (x <= 25 ->
     length (Py.padded_03d (transform_coordinate x)) = 3%nat /\
     is_digits (Py.padded_03d (transform_coordinate x)) = true /\
     Py.int (Py.padded_03d (transform_coordinate x))
     = Ok (transform_coordinate x)) /\
    (y <= 25 ->
     length (Py.padded_03d (transform_coordinate y)) = 3%nat /\
     is_digits (Py.padded_03d (transform_coordinate y)) = true /\
     Py.int (Py.padded_03d (transform_coordinate y))
     = Ok (transform_coordinate y)).
Proof.
  apply (proj1 transform_filename_spec);
    [reflexivity|reflexivity|apply Nat.leb_le; reflexivity
    |apply Nat.leb_le; reflexivity].
Defined.



(** C8: a name that ends in the suffix followed by a line feed does not end
    in the suffix, yet the file-name rewriter does not return it unchanged:
    [$] also holds before a final line feed, the name is rewritten, and the
    line feed is lost. *)
Theorem transform_filename_line_feed :
  ends_in_suffix (lit "a-1-2.xml" ++ ["010"%char]) = false /\
  transform_filename (lit "a-1-2.xml" ++ ["010"%char])
  = Ok (lit "a-024-023.xml").
Proof.
  split; vm_compute; reflexivity.
Qed.

(** C9: for every prefix and all integers [x], [y] from 0 to 25, applying the
    file-name rewriter twice to the name with [x] and [y] zero-filled to
    width 3 returns that name. *)
Theorem rename_twice_padded (p : str) (x y : Z) :
  0 <= x <= 25 -> 0 <= y <= 25 ->
  rename_twice (padded_name p x y) = Ok (padded_name p x y).
Proof.
  intros Hx Hy. unfold rename_twice, padded_name.
  rewrite !FilenameFacts.suffixed_rebuilt.
  destruct (PyFacts.padded_03d_nonneg x) as [Dx Mx]; [lia|].
  destruct (PyFacts.padded_03d_nonneg y) as [Dy My]; [lia|].
  rewrite (FilenameFacts.transform_filename_suffixed p _ _ [] x y
             Dx Dy eq_refl Mx My
             (FilenameFacts.padded_03d_small_within x Hx)
             (FilenameFacts.padded_03d_small_within y Hy)).
  rewrite bind_ok.
  assert (Hx' : 0 <= transform_coordinate x <= 25)
    by (unfold transform_coordinate; lia).
  assert (Hy' : 0 <= transform_coordinate y <= 25)
    by (unfold transform_coordinate; lia).
  destruct (PyFacts.padded_03d_nonneg (transform_coordinate x)) as [Dx' Mx'];
    [lia|].
  destruct (PyFacts.padded_03d_nonneg (transform_coordinate y)) as [Dy' My'];
    [lia|].
  rewrite (FilenameFacts.transform_filename_suffixed p _ _ [] _ _
             Dx' Dy' eq_refl Mx' My'
             (FilenameFacts.padded_03d_small_within _ Hx')
             (FilenameFacts.padded_03d_small_within _ Hy')).
  replace (transform_coordinate (transform_coordinate x)) with x
    by (unfold transform_coordinate; lia).
  replace (transform_coordinate (transform_coordinate y)) with y
    by (unfold transform_coordinate; lia).
  reflexivity.
Qed.

(** C9 on the coordinates 23 and 10. *)
Lemma rename_twice_padded_witness :
  rename_twice (padded_name (lit "SM1C10011 25") 23 10)
  = Ok (padded_name (lit "SM1C10011 25") 23 10).
Proof.
  apply rename_twice_padded; lia.
Defined.

(** ** Properties of the batch driver *)

Section BatchDriver.

Variable world : Type.
Variable mkdir : str -> world -> result unit * world.
Variable glob_xml : str -> world -> result (list str) * world.
Variable read_text : str -> str -> world -> result str * world.
Variable write_text : str -> str -> str -> world -> result unit * world.

(** C5: once the output directory is made and the files are listed, the
    batch driver never raises.  Every file is attempted in turn; an
    exception raised while reading, transforming or writing a file is
    reported on the console with the name of the file and the exception, and
    the files after it are attempted all the same.  The console gets the
    count, one report for each file in order, and, whatever the number of
    failures, the completion line at the end. *)
Theorem process_xml_files_isolates_failures
    (input_dir output_dir : str) (files : list str)
    (st st0 st1 : Batch.state world) :
  Batch.on_world world (mkdir output_dir) st = (Ok tt, st0) ->
  Batch.on_world world (glob_xml input_dir) st0 = (Ok files, st1) ->
  files <> [] ->
  exists (st2 : Batch.state world) (lines : list Batch.line),
    Batch.process_xml_files world mkdir glob_xml read_text write_text
      input_dir output_dir st
    = (Ok tt,
       Batch.mkState (Batch.the_world st2)
         (Batch.console st2 ++ [Batch.Completed output_dir]))
    /\ Batch.attempted world read_text write_text input_dir output_dir files
         (Batch.mkState (Batch.the_world st1)
            (Batch.console st1 ++ [Batch.Found (length files)]))
         st2
    /\ Batch.console st2
       = Batch.console st ++ Batch.Found (length files) :: lines
    /\ Forall2 Batch.reports files lines.
Proof.
  intros Hmk Hglob Hne.
  destruct (BatchFacts.convert_all_attempts world read_text write_text
              input_dir output_dir files
              (Batch.mkState (Batch.the_world st1)
                 (Batch.console st1 ++ [Batch.Found (length files)])))
    as (st2 & lines & Hrun & Hatt & Hcon & Hrep).
  exists st2, lines.
  split; [|split; [exact Hatt|split; [|exact Hrep]]].
  - unfold Batch.process_xml_files, Batch.bindM at 1. rewrite Hmk.
    unfold Batch.bindM at 1. rewrite Hglob.
    destruct files as [|f fs]; [contradiction|].
    unfold Batch.bindM, Batch.print at 1. rewrite Hrun. reflexivity.
  - rewrite Hcon. cbn [Batch.console].
    rewrite (BatchFacts.on_world_console world _ _ _ _ Hglob).
    rewrite (BatchFacts.on_world_console world _ _ _ _ Hmk).
    rewrite <- app_assoc. reflexivity.
Qed.

End BatchDriver.

(** C5 on the scenario of the specification. *)
Lemma process_xml_files_isolates_failures_witness :
  exists (st2 : Batch.state Batch.disk) (lines : list Batch.line),
    Batch.scenario_run
    = (Ok tt,
       Batch.mkState (Batch.the_world st2)
         (Batch.console st2 ++ [Batch.Completed (lit "out")]))
    /\ Batch.attempted Batch.disk Batch.disk_read Batch.disk_write
         (lit "in") (lit "out")
         (map fst (Batch.input_files Batch.scenario_disk))
         (Batch.mkState Batch.scenario_disk [Batch.Found 3])
         st2
    /\ Batch.console st2 = [] ++ Batch.Found 3 :: lines
    /\ Forall2 Batch.reports
         (map fst (Batch.input_files Batch.scenario_disk)) lines.
Proof.
  apply (process_xml_files_isolates_failures Batch.disk Batch.disk_mkdir
           Batch.disk_glob Batch.disk_read Batch.disk_write
           (lit "in") (lit "out")
           (map fst (Batch.input_files Batch.scenario_disk))
           (Batch.mkState Batch.scenario_disk [])
           (Batch.mkState Batch.scenario_disk [])
           (Batch.mkState Batch.scenario_disk []));
    [reflexivity|reflexivity|discriminate].
Defined.

(** The scenario of the specification, run: the output directory holds
    exactly the two converted files, one failure is reported, and the
    completion line is printed. *)
Example scenario_outcome :
  Batch.scenario_run =
  (Ok tt,
   Batch.mkState
     (Batch.mkDisk (Batch.input_files Batch.scenario_disk)
        [ (lit "notes.xml", lit "<r/>");
          (lit "lot 25-002-015.xml",
           lit "<X_COORD>2</X_COORD><Y_COORD>15</Y_COORD>") ])
     [ Batch.Found 3;
       Batch.Converted (lit "lot 25-023-010.xml") (lit "lot 25-002-015.xml");
       Batch.Failed (lit "lot 25-024-010.xml")
         (UnicodeDecodeError (lit "invalid start byte"));
       Batch.Converted (lit "notes.xml") (lit "notes.xml");
       Batch.Completed (lit "out") ]).
Proof.
  vm_compute. reflexivity.
Qed.

(** * Further properties of the file-name rewriter *)

(** X1: the file-name rewriter returns unless [int] refuses a run of digits.
    It returns the name as it is when the pattern matches nowhere.
    Otherwise the name is a prefix, the two dashed runs of digits, [.xml]
    and possibly a final line feed: when both runs have at most 4300 digits
    the result is the prefix with both values transformed and written in
    fields of width 3, followed by [.xml]; when one has more, the
    [ValueError] of the limit is raised. *)
Theorem transform_filename_outcome (s : str) :
  (suffix_anywhere s = false /\ transform_filename s = Ok s) \/
  exists (p x_run y_run e : str) (x y : Z),
    s = suffixed p x_run y_run e /\ at_end e = true /\
    is_digits x_run = true /\ is_digits y_run = true /\
    Py.int_unlimited x_run = Ok x /\ Py.int_unlimited y_run = Ok y /\
    0 <= x /\ 0 <= y /\
    transform_filename s =
    limited ((length x_run <=? Py.max_str_digits)%nat
             && (length y_run <=? Py.max_str_digits)%nat)
      (suffixed p (Py.padded_03d (transform_coordinate x))
         (Py.padded_03d (transform_coordinate y)) []).
Proof.
  destruct (suffix_anywhere s) eqn:E.
  - destruct (FilenameFacts.suffix_anywhere_inv s E)
      as (p & x_run & y_run & e & -> & Hx & Hy & He).
    pose proof Hx as Hx'. pose proof Hy as Hy'.
    apply ReFacts.is_digits_spec in Hx' as [Nx Dx].
    apply ReFacts.is_digits_spec in Hy' as [Ny Dy].
    destruct (PyFacts.magnitude_total _ Nx Dx) as (x & Mx & Px).
    destruct (PyFacts.magnitude_total _ Ny Dy) as (y & My & Py).
    right. exists p, x_run, y_run, e, x, y.
    split; [reflexivity|]. split; [exact He|].
    split; [exact Hx|]. split; [exact Hy|].
    split; [apply PyFacts.int_digits; assumption|].
    split; [apply PyFacts.int_digits; assumption|].
    split; [exact Px|]. split; [exact Py|].
    apply FilenameFacts.transform_filename_limit; assumption.
  - left. split; [reflexivity|].
    apply FilenameFacts.transform_filename_fallback, E.
Qed.

(** X2: a final line feed after [.xml] does not count: the name with it is
    rewritten to what the name without it is rewritten to, and the line feed
    is not written back. *)
Theorem transform_filename_drops_line_feed (p x_run y_run : str) :
  is_digits x_run = true -> is_digits y_run = true ->
  transform_filename (suffixed p x_run y_run ["010"%char])
  = transform_filename (suffixed p x_run y_run []).
Proof.
  intros Hx Hy.
  pose proof Hx as Hx'. pose proof Hy as Hy'.
  apply ReFacts.is_digits_spec in Hx' as [Nx Dx].
  apply ReFacts.is_digits_spec in Hy' as [Ny Dy].
  destruct (PyFacts.magnitude_total _ Nx Dx) as (x & Mx & _).
  destruct (PyFacts.magnitude_total _ Ny Dy) as (y & My & _).
  rewrite (FilenameFacts.transform_filename_limit p _ _ ["010"%char] x y
             Hx Hy eq_refl Mx My).
  rewrite (FilenameFacts.transform_filename_limit p _ _ [] x y
             Hx Hy eq_refl Mx My).
  reflexivity.
Qed.

(** X2 on the runs [1] and [2]. *)
Lemma transform_filename_drops_line_feed_witness :
  transform_filename (suffixed (lit "a") (lit "1") (lit "2") ["010"%char])
  = transform_filename (suffixed (lit "a") (lit "1") (lit "2") []).
Proof.
  apply transform_filename_drops_line_feed; reflexivity.
Defined.

Lemma magnitude_leading_zeros (k : nat) (ds : str) (v : Z) :
  Py.magnitude ds = Some v ->
  Py.magnitude (repeat "0"%char k ++ ds) = Some v.
Proof.
  unfold Py.magnitude. destruct ds as [|c ds]; [discriminate|].
  destruct (Py.uint_of_digits (c :: ds)) as [u|] eqn:E; [|discriminate].
  intros H. rewrite (PyFacts.uint_of_digits_zero_fill k _ u E).
  rewrite PyFacts.of_uint_iter_D0.
  destruct (repeat "0"%char k ++ c :: ds) eqn:E';
    [destruct k; discriminate E'|exact H].
Qed.

Lemma is_digits_leading_zeros (k : nat) (ds : str) :
  is_digits ds = true -> is_digits (repeat "0"%char k ++ ds) = true.
Proof.
  intros H. apply ReFacts.is_digits_spec in H as [Hne Hd].
  apply ReFacts.is_digits_spec. split.
  - intros E. apply app_eq_nil in E as [_ E]. contradiction.
  - rewrite forallb_app, Hd, andb_true_r.
    induction k as [|k IH]; [reflexivity|exact IH].
Qed.

Lemma length_leading_zeros (k : nat) (ds : str) :
  length (repeat "0"%char k ++ ds) = (k + length ds)%nat.
Proof.
  rewrite length_app, repeat_length. reflexivity.
Qed.

(** X3: zeros in front of either run of digits do not change the result, as
    long as the zeros and the digits of a run are together at most 4300:
    names that differ only in them are rewritten to the same name. *)
Theorem transform_filename_leading_zeros (p x_run y_run : str) (j k : nat) :
  is_digits x_run = true -> is_digits y_run = true ->
  (j + length x_run <= Py.max_str_digits)%nat ->
  (k + length y_run <= Py.max_str_digits)%nat ->
  transform_filename
    (suffixed p (repeat "0"%char j ++ x_run) (repeat "0"%char k ++ y_run) [])
  = transform_filename (suffixed p x_run y_run []).
Proof.
  intros Hx Hy Lx Ly.
  pose proof Hx as Hx'. pose proof Hy as Hy'.
  apply ReFacts.is_digits_spec in Hx' as [Nx Dx].
  apply ReFacts.is_digits_spec in Hy' as [Ny Dy].
  destruct (PyFacts.magnitude_total _ Nx Dx) as (x & Mx & _).
  destruct (PyFacts.magnitude_total _ Ny Dy) as (y & My & _).
  rewrite (FilenameFacts.transform_filename_suffixed p _ _ [] x y
             (is_digits_leading_zeros j _ Hx) (is_digits_leading_zeros k _ Hy)
             eq_refl (magnitude_leading_zeros j _ _ Mx)
             (magnitude_leading_zeros k _ _ My))
    by (rewrite length_leading_zeros; assumption).
  rewrite (FilenameFacts.transform_filename_suffixed p _ _ [] x y
             Hx Hy eq_refl Mx My) by lia.
  reflexivity.
Qed.

(** X3 on [5] written as [005] and [7] written as [07]. *)
Lemma transform_filename_leading_zeros_witness :
  transform_filename
    (suffixed (lit "a") (repeat "0"%char 2 ++ lit "5")
       (repeat "0"%char 1 ++ lit "7") [])
  = transform_filename (suffixed (lit "a") (lit "5") (lit "7") []).
Proof.
  apply transform_filename_leading_zeros;
    [reflexivity|reflexivity|vm_compute; lia|vm_compute; lia].
Defined.

(** Beyond the limit the zeros do count: [int] refuses the run. *)
Example transform_filename_too_many_zeros :
  transform_filename
    (suffixed (lit "a") (repeat "0"%char 4300 ++ lit "5") (lit "7") [])
  = Raise Py.limit_exceeded /\
  transform_filename (suffixed (lit "a") (lit "5") (lit "7") [])
  = Ok (lit "a-020-018.xml").
Proof.
  split; vm_compute; reflexivity.
Qed.

Lemma suffixed_shift (p a b e : str) :
  suffixed p ("-"%char :: a) b e = suffixed (p ++ lit "-") a b e.
Proof.
  unfold suffixed. rewrite <- app_assoc. reflexivity.
Qed.

(** The field of a number within the limit is within the limit. *)
Lemma padded_03d_within (z : Z) :
  0 <= z -> (size z <= Py.max_str_digits)%nat ->
  (length (Py.padded_03d z) <= Py.max_str_digits)%nat.
Proof.
  intros Hz H. rewrite (PyFacts.padded_03d_length z Hz).
  assert (3 <= Py.max_str_digits)%nat by (apply Nat.leb_le; reflexivity).
  lia.
Qed.

(** So is the zero-filled magnitude of a negative field. *)
Lemma zero_fill_within (k : nat) (z : Z) :
  (k <= 2)%nat -> (size z <= Py.max_str_digits)%nat ->
  (length (repeat "0"%char (k - length (Py.digits (Z.abs_N z)))
             ++ Py.digits (Z.abs_N z))
   <= Py.max_str_digits)%nat.
Proof.
  intros Hk H. rewrite length_app, repeat_length. unfold size in H.
  assert (3 <= Py.max_str_digits)%nat by (apply Nat.leb_le; reflexivity).
  lia.
Qed.

(** X4: beyond 25 the file-name rewriter is no longer its own inverse.  For
    a first coordinate [x] above 25 of at most 4300 digits (and a second
    from 0 to 25), the first application writes the sign into the name; the
    second reads the sign as the dash of the group, so the prefix gains a
    dash and the first coordinate comes back as [50 - x]. *)
Theorem rename_twice_beyond_25 (p : str) (x y : Z) :
  25 < x -> (size x <= Py.max_str_digits)%nat -> 0 <= y <= 25 ->
  rename_twice (padded_name p x y)
  = Ok (padded_name (p ++ lit "-") (50 - x) y).
Proof.
  intros Hx Sx Hy. unfold rename_twice, padded_name.
  rewrite !FilenameFacts.suffixed_rebuilt.
  destruct (PyFacts.padded_03d_nonneg x) as [Dx Mx]; [lia|].
  destruct (PyFacts.padded_03d_nonneg y) as [Dy My]; [lia|].
  rewrite (FilenameFacts.transform_filename_suffixed p _ _ [] x y
             Dx Dy eq_refl Mx My
             (padded_03d_within x ltac:(lia) Sx)
             (FilenameFacts.padded_03d_small_within y Hy)).
  rewrite bind_ok.
  assert (N : transform_coordinate x < 0)
    by (unfold transform_coordinate; lia).
  rewrite (PyFacts.padded_03d_neg _ N), suffixed_shift.
  assert (Hy' : 0 <= transform_coordinate y <= 25)
    by (unfold transform_coordinate; lia).
  destruct (PyFacts.padded_03d_nonneg (transform_coordinate y)) as [Dy' My'];
    [lia|].
  assert (Sx' : (size (transform_coordinate x) <= Py.max_str_digits)%nat).
  { pose proof (PyFacts.size_mono (transform_coordinate x) x).
    unfold transform_coordinate in *. lia. }
  replace (Z.to_N (- transform_coordinate x))
    with (Z.abs_N (transform_coordinate x)) by lia.
  rewrite (FilenameFacts.transform_filename_suffixed (p ++ lit "-") _ _ []
             (Z.of_N (Z.abs_N (transform_coordinate x)))
             (transform_coordinate y)
             (PyFacts.is_digits_zero_fill _ _) Dy' eq_refl
             (PyFacts.magnitude_zero_fill _ _) My'
             (zero_fill_within 2 _ (le_n 2) Sx')
             (FilenameFacts.padded_03d_small_within _ Hy')).
  replace (transform_coordinate (Z.of_N (Z.abs_N (transform_coordinate x))))
    with (50 - x) by (unfold transform_coordinate in *; lia).
  replace (transform_coordinate (transform_coordinate y)) with y
    by (unfold transform_coordinate; lia).
  reflexivity.
Qed.

(** X4 on the coordinates 30 and 10: [a-030-010.xml] becomes
    [a--05-015.xml] and then [a--020-010.xml]. *)
Lemma rename_twice_beyond_25_witness :
  rename_twice (padded_name (lit "a") 30 10)
  = Ok (padded_name (lit "a" ++ lit "-") (50 - 30) 10).
Proof.
  apply rename_twice_beyond_25; [lia|vm_compute; lia|lia].
Defined.

(** * Further properties of the content rewriter *)

Module PassFacts.
Import TagFacts.

(** Two passes, first for the tag [a0 :: al] and then for [b0 :: bl], when
    neither tag can open inside a field of the other. *)
Section TwoPasses.

Variables (a0 b0 : ascii) (al bl : str).

Hypothesis open_a : free_of b0 (open_tag (a0 :: al)) = true.
Hypothesis close_a : free_of b0 (close_tag (a0 :: al)) = true.
Hypothesis open_b : free_of a0 (open_tag (b0 :: bl)) = true.
Hypothesis close_b : free_of a0 (close_tag (b0 :: bl)) = true.
Hypothesis inside_b : free_of a0 ((b0 :: bl) ++ lit ">") = true.

Lemma two_passes_first (s num rest : str) (v : Z) :
  coord_here (a0 :: al) s = Some (num, rest) -> Py.int_unlimited num = Ok v ->
  rewrite_tag (b0 :: bl) (rewrite_tag (a0 :: al) s) =
  field (a0 :: al) (Py.decimal (transform_coordinate v))
    ++ rewrite_tag (b0 :: bl) (rewrite_tag (a0 :: al) rest).
Proof.
  intros H Hv. rewrite (rewrite_tag_match _ _ _ _ _ H Hv).
  apply rewrite_tag_free.
  apply field_free; [exact open_a|exact close_a|].
  apply PyFacts.is_numeral_decimal.
Qed.

Lemma two_passes_second (s num rest : str) (v : Z) :
  coord_here (b0 :: bl) s = Some (num, rest) -> Py.int_unlimited num = Ok v ->
  rewrite_tag (b0 :: bl) (rewrite_tag (a0 :: al) s) =
  field (b0 :: bl) (Py.decimal (transform_coordinate v))
    ++ rewrite_tag (b0 :: bl) (rewrite_tag (a0 :: al) rest).
Proof.
  intros H Hv. pose proof H as H'. apply coord_here_inv in H' as [-> Hn].
  rewrite rewrite_tag_free
    by (apply field_free; [exact open_b|exact close_b|exact Hn]).
  apply (rewrite_tag_match _ _ num); [apply coord_here_field, Hn|exact Hv].
Qed.

Lemma two_passes_skip (c : ascii) (s : str) :
  coord_here (a0 :: al) (c :: s) = None ->
  coord_here (b0 :: bl) (c :: s) = None ->
  rewrite_tag (b0 :: bl) (rewrite_tag (a0 :: al) (c :: s)) =
  c :: rewrite_tag (b0 :: bl) (rewrite_tag (a0 :: al) s).
Proof.
  intros Ha Hb. rewrite (rewrite_tag_skip _ _ _ Ha).
  apply rewrite_tag_skip.
  apply coord_here_rewrite_None; [exact inside_b|exact close_b|exact Hb].
Qed.

End TwoPasses.

(** The passes in the other order: [Y_COORD] first, then [X_COORD]. *)
Lemma rewritten_y_then_x (s : str) :
  rewritten s (rewrite_tag X (rewrite_tag Y s)).
Proof.
  remember (length s) as n eqn:Hn. revert s Hn.
  induction n as [n IH] using lt_wf_ind. intros s ->.
  destruct s as [|c s]; [constructor|].
  destruct (coord_here X (c :: s)) as [[num rest]|] eqn:Ex.
  - pose proof Ex as E. apply coord_here_inv in E as [E Hn].
    destruct (ReFacts.int_numeral num Hn) as [v Hv].
    rewrite ContentFacts.X_eq, ContentFacts.Y_eq in *.
    rewrite (two_passes_second "Y" "X" (lit "_COORD") (lit "_COORD")
               eq_refl eq_refl _ _ _ _ Ex Hv), E.
    apply rewritten_field; [left; reflexivity|exact Hn|exact Hv|].
    apply (IH (length rest)); [rewrite E; apply field_length|reflexivity].
  - destruct (coord_here Y (c :: s)) as [[num rest]|] eqn:Ey.
    + pose proof Ey as E. apply coord_here_inv in E as [E Hn].
      destruct (ReFacts.int_numeral num Hn) as [v Hv].
      rewrite ContentFacts.X_eq, ContentFacts.Y_eq in *.
      rewrite (two_passes_first "Y" "X" (lit "_COORD") (lit "_COORD")
                 eq_refl eq_refl _ _ _ _ Ey Hv), E.
      apply rewritten_field; [right; left; reflexivity|exact Hn|exact Hv|].
      apply (IH (length rest)); [rewrite E; apply field_length|reflexivity].
    + rewrite ContentFacts.X_eq, ContentFacts.Y_eq in *.
      rewrite (two_passes_skip "Y" "X" (lit "_COORD") (lit "_COORD")
                 eq_refl eq_refl _ _ Ey Ex).
      apply rewritten_char; [|apply (IH (length s)); [simpl; lia|reflexivity]].
      intros tag num rest [<-|[<-|[]]] Hn E; rewrite E in *.
      * rewrite ContentFacts.X_eq in Ex.
        rewrite (coord_here_field _ _ _ Hn) in Ex. discriminate Ex.
      * rewrite ContentFacts.Y_eq in Ey.
        rewrite (coord_here_field _ _ _ Hn) in Ey. discriminate Ey.
Qed.

End PassFacts.

(** X5: the two passes commute: replacing the [Y_COORD] fields first and the
    [X_COORD] fields second gives what the content rewriter gives. *)
Theorem passes_commute (s : str) :
  (content <- Re.sub y_coord_pattern replace_y_coord s ;;
   Re.sub x_coord_pattern replace_x_coord content)
  = transform_xml_content s.
Proof.
  change (Re.sub y_coord_pattern replace_y_coord s) with (sub_tag Y s).
  rewrite LimitFacts.transform_xml_content_limit, LimitFacts.sub_tag_y_limit.
  unfold fields_within_limit.
  destruct (tag_within_limit Y s) eqn:Wy.
  - rewrite LimitFacts.limited_true, bind_ok, andb_true_r.
    change (Re.sub x_coord_pattern replace_x_coord (rewrite_tag Y s))
      with (sub_tag X (rewrite_tag Y s)).
    rewrite LimitFacts.sub_tag_x_limit, LimitFacts.tag_within_limit_y_pass.
    f_equal. apply ContentFacts.rewritten_unique, PassFacts.rewritten_y_then_x.
  - rewrite andb_false_r. reflexivity.
Qed.

Module RangeFacts.
Import TagFacts ContentFacts.

(** Text in which neither tag can open holds no field. *)
Lemma fields_canonical_free (w t : str) :
  free_of "X" w = true -> free_of "Y" w = true ->
  fields_canonical (w ++ t) = fields_canonical t.
Proof.
  induction w as [|c w IH]; intros Hx Hy; [reflexivity|].
  change ((c :: w) ++ t) with (c :: w ++ t). cbn [fields_canonical].
  rewrite X_eq, (free_of_head "X" (lit "_COORD") c w t Hx).
  rewrite Y_eq, (free_of_head "Y" (lit "_COORD") c w t Hy).
  apply IH; [apply (free_of_tail _ c), Hx|apply (free_of_tail _ c), Hy].
Qed.

(** A canonical field in front does not change the answer. *)
Lemma fields_canonical_field (tag num t : str) :
  In tag [X; Y] -> canonical num = true ->
  fields_canonical (field tag num ++ t) = fields_canonical t.
Proof.
  intros Ht Hc. pose proof (PyFacts.canonical_is_numeral num Hc) as Hn.
  assert (Hstep :
    fields_canonical (field tag num ++ t) =
    match coord_here X (field tag num ++ t) with
    | Some (n, _) => canonical n
    | None => true
    end
    && match coord_here Y (field tag num ++ t) with
       | Some (n, _) => canonical n
       | None => true
       end
    && fields_canonical (inside tag num ++ t)) by reflexivity.
  rewrite Hstep.
  rewrite (fields_canonical_free (inside tag num) t)
    by (destruct Ht as [<-|[<-|[]]]; apply inside_free;
        first [exact Hn|reflexivity]).
  destruct Ht as [<-|[<-|[]]].
  - rewrite (coord_here_field X num t Hn), Hc.
    assert (HY : coord_here Y (field X num ++ t) = None).
    { rewrite Y_eq, field_inside. apply free_of_head.
      rewrite <- field_inside.
      apply field_free; [reflexivity|reflexivity|exact Hn]. }
    rewrite HY. reflexivity.
  - rewrite (coord_here_field Y num t Hn), Hc.
    assert (HX : coord_here X (field Y num ++ t) = None).
    { rewrite X_eq, field_inside. apply free_of_head.
      rewrite <- field_inside.
      apply field_free; [reflexivity|reflexivity|exact Hn]. }
    rewrite HX. reflexivity.
Qed.

(** Every field of what the content rewriter returns is canonical. *)
Lemma fields_canonical_rewrite_content (s : str) :
  fields_canonical (rewrite_content s) = true.
Proof.
  remember (length s) as n eqn:Hn. revert s Hn.
  induction n as [n IH] using lt_wf_ind. intros s ->.
  destruct s as [|c s]; [reflexivity|].
  destruct (coord_here X (c :: s)) as [[num rest]|] eqn:Ex.
  - pose proof Ex as E. apply coord_here_inv in E as [E Hn].
    destruct (ReFacts.int_numeral num Hn) as [v Hv].
    rewrite (rewrite_content_x _ _ _ _ Ex Hv).
    rewrite fields_canonical_field;
      [|left; reflexivity|apply PyFacts.canonical_decimal].
    apply (IH (length rest)); [rewrite E; apply field_length|reflexivity].
  - destruct (coord_here Y (c :: s)) as [[num rest]|] eqn:Ey.
    + pose proof Ey as E. apply coord_here_inv in E as [E Hn].
      destruct (ReFacts.int_numeral num Hn) as [v Hv].
      rewrite (rewrite_content_y _ _ _ _ Ey Hv).
      rewrite fields_canonical_field;
        [|right; left; reflexivity|apply PyFacts.canonical_decimal].
      apply (IH (length rest)); [rewrite E; apply field_length|reflexivity].
    + rewrite (rewrite_content_skip _ _ Ex Ey). cbn [fields_canonical].
      rewrite (coord_here_rewrite_content_None X c s (or_introl eq_refl) Ex).
      rewrite (coord_here_rewrite_content_None Y c s
                 (or_intror (or_introl eq_refl)) Ey).
      apply (IH (length s)); [simpl; lia|reflexivity].
Qed.

End RangeFacts.

(** X6: what the content rewriter returns is always in canonical form, so on
    its own results it is an involution: for every string, rewriting three
    times gives what rewriting once gives. *)
Theorem rewrite_thrice (s : str) :
  (once <- transform_xml_content s ;; rewrite_twice once)
  = transform_xml_content s.
Proof.
  rewrite LimitFacts.transform_xml_content_limit.
  destruct (fields_within_limit s) eqn:W; [|reflexivity].
  rewrite LimitFacts.limited_true, bind_ok. unfold rewrite_twice.
  pose proof (LimitFacts.fields_within_limit_rewrite_content s W) as W1.
  pose proof (LimitFacts.fields_within_limit_rewrite_content _ W1) as W2.
  rewrite (LimitFacts.transform_xml_content_within _ W1), bind_ok.
  rewrite (LimitFacts.transform_xml_content_within _ W2).
  rewrite (ContentFacts.rewrite_content_twice _
             (RangeFacts.fields_canonical_rewrite_content s)).
  reflexivity.
Qed.

Module SkeletonFacts.
Import TagFacts ContentFacts.

Lemma skeleton_app (a b : str) : skeleton (a ++ b) = skeleton a ++ skeleton b.
Proof. apply filter_app. Qed.

Lemma skeleton_digits (ds : str) :
  forallb Py.is_digit ds = true -> skeleton ds = [].
Proof.
  induction ds as [|c ds IH]; [reflexivity|]. cbn [forallb].
  intros H. apply andb_true_iff in H as [Hc Hd].
  unfold skeleton. cbn [filter]. unfold numeric at 1. rewrite Hc.
  apply IH, Hd.
Qed.

Lemma skeleton_numeral (num : str) : is_numeral num = true -> skeleton num = [].
Proof.
  destruct num as [|c ds]; [reflexivity|]. unfold is_numeral.
  destruct (Ascii.eqb "-" c) eqn:E; intros H.
  - apply ReFacts.is_digits_spec in H as [_ H].
    unfold skeleton. cbn [filter]. unfold numeric at 1.
    rewrite E, orb_true_r. apply skeleton_digits, H.
  - apply skeleton_digits, H.
Qed.

Lemma skeleton_field (tag a b : str) :
  is_numeral a = true -> is_numeral b = true ->
  skeleton (field tag a) = skeleton (field tag b).
Proof.
  intros Ha Hb. unfold field.
  rewrite !skeleton_app, (skeleton_numeral a Ha), (skeleton_numeral b Hb).
  reflexivity.
Qed.

Lemma skeleton_rewrite_content (s : str) :
  skeleton (rewrite_content s) = skeleton s.
Proof.
  remember (length s) as n eqn:Hn. revert s Hn.
  induction n as [n IH] using lt_wf_ind. intros s ->.
  destruct s as [|c s]; [reflexivity|].
  destruct (coord_here X (c :: s)) as [[num rest]|] eqn:Ex.
  - pose proof Ex as E. apply coord_here_inv in E as [E Hn].
    destruct (ReFacts.int_numeral num Hn) as [v Hv].
    rewrite (rewrite_content_x _ _ _ _ Ex Hv), E, !skeleton_app.
    rewrite (skeleton_field X _ num (PyFacts.is_numeral_decimal _) Hn).
    f_equal.
    apply (IH (length rest)); [rewrite E; apply field_length|reflexivity].
  - destruct (coord_here Y (c :: s)) as [[num rest]|] eqn:Ey.
    + pose proof Ey as E. apply coord_here_inv in E as [E Hn].
      destruct (ReFacts.int_numeral num Hn) as [v Hv].
      rewrite (rewrite_content_y _ _ _ _ Ey Hv), E, !skeleton_app.
      rewrite (skeleton_field Y _ num (PyFacts.is_numeral_decimal _) Hn).
      f_equal.
      apply (IH (length rest)); [rewrite E; apply field_length|reflexivity].
    + rewrite (rewrite_content_skip _ _ Ex Ey).
      change (c :: rewrite_content s) with ([c] ++ rewrite_content s).
      change (c :: s) with ([c] ++ s).
      rewrite !skeleton_app. f_equal.
      apply (IH (length s)); [simpl; lia|reflexivity].
Qed.

End SkeletonFacts.

(** X7: the content rewriter touches nothing but digits and minus signs:
    with these erased, what it returns, when it returns, is the input with
    these erased.  Every other character, tags included, is kept in its
    place. *)
Theorem transform_xml_content_skeleton (s out : str) :
  transform_xml_content s = Ok out -> skeleton out = skeleton s.
Proof.
  intros H. apply LimitFacts.transform_xml_content_ok in H as [_ ->].
  apply SkeletonFacts.skeleton_rewrite_content.
Qed.

(** X7 on a document with two fields. *)
Lemma transform_xml_content_skeleton_witness :
  transform_xml_content
    (lit "<r><X_COORD>23</X_COORD> <Y_COORD>-10</Y_COORD></r>")
  = Ok (lit "<r><X_COORD>2</X_COORD> <Y_COORD>35</Y_COORD></r>") /\
  skeleton (lit "<r><X_COORD>2</X_COORD> <Y_COORD>35</Y_COORD></r>")
  = skeleton (lit "<r><X_COORD>23</X_COORD> <Y_COORD>-10</Y_COORD></r>").
Proof.
  split; [reflexivity|].
  apply transform_xml_content_skeleton. reflexivity.
Defined.

Module MalformedFacts.
Import TagFacts ContentFacts.

Lemma no_lt_free (t0 : ascii) (w : str) : no_lt w = true -> free_of t0 w = true.
Proof.
  induction w as [|c w IH]; [reflexivity|]. unfold no_lt. cbn [forallb free_of].
  intros H. apply andb_true_iff in H as [Hc Hw].
  apply negb_true_iff in Hc. rewrite Hc. apply IH, Hw.
Qed.

Lemma inside_free_body (t0 : ascii) (tag body : str) :
  free_of t0 (tag ++ lit ">") = true -> free_of t0 (close_tag tag) = true ->
  no_lt body = true -> free_of t0 (inside tag body) = true.
Proof.
  intros H1 H2 Hb. unfold inside.
  apply free_of_app; [exact H1|].
  apply free_of_app; [apply no_lt_free, Hb|exact H2].
Qed.

(** Two strings without [<] that are followed by a [<] in the same string
    are the same. *)
Lemma split_at_lt (a b x y : str) :
  no_lt a = true -> no_lt b = true ->
  a ++ "<"%char :: x = b ++ "<"%char :: y -> a = b.
Proof.
  revert b. induction a as [|c a IH]; intros [|d b] Ha Hb E.
  - reflexivity.
  - cbn [List.app] in E. injection E as <- _.
    unfold no_lt in Hb. cbn [forallb] in Hb.
    rewrite Ascii.eqb_refl in Hb. discriminate Hb.
  - cbn [List.app] in E. injection E as -> _.
    unfold no_lt in Ha. cbn [forallb] in Ha.
    rewrite Ascii.eqb_refl in Ha. discriminate Ha.
  - cbn [List.app] in E. injection E as <- E.
    unfold no_lt in Ha, Hb. cbn [forallb] in Ha, Hb.
    apply andb_true_iff in Ha as [_ Ha]. apply andb_true_iff in Hb as [_ Hb].
    f_equal. apply (IH b Ha Hb E).
Qed.

Lemma digits_no_lt (ds : str) : forallb Py.is_digit ds = true -> no_lt ds = true.
Proof.
  induction ds as [|c ds IH]; [reflexivity|]. cbn [forallb].
  change (no_lt (c :: ds)) with (negb (Ascii.eqb "<" c) && no_lt ds).
  intros H. apply andb_true_iff in H as [Hc Hd].
  rewrite (IH Hd), andb_true_r. apply negb_true_iff.
  destruct (Ascii.eqb "<" c) eqn:E; [|reflexivity].
  apply Ascii.eqb_eq in E. subst c. discriminate Hc.
Qed.

Lemma numeral_no_lt (num : str) : is_numeral num = true -> no_lt num = true.
Proof.
  destruct num as [|c ds]; [reflexivity|]. unfold is_numeral.
  destruct (Ascii.eqb "-" c) eqn:E; intros H.
  - apply Ascii.eqb_eq in E. subst c.
    apply ReFacts.is_digits_spec in H as [_ H].
    change (no_lt ("-"%char :: ds)) with (no_lt ds). apply (digits_no_lt ds H).
  - apply digits_no_lt, H.
Qed.

(** A tag pair around something that is not a numeral is no field. *)
Lemma coord_here_malformed (tag body rest : str) :
  no_lt body = true -> is_numeral body = false ->
  coord_here tag (field tag body ++ rest) = None.
Proof.
  intros Hb Hn.
  destruct (coord_here tag (field tag body ++ rest)) as [[num r]|] eqn:E;
    [exfalso|reflexivity].
  apply coord_here_inv in E as [E Hnum].
  unfold field in E. rewrite <- !app_assoc in E.
  apply app_inv_head in E. unfold close_tag in E. cbn [List.app] in E.
  apply split_at_lt in E; [|exact Hb|apply numeral_no_lt, Hnum].
  congruence.
Qed.

(** Such a pair is a field of neither tag. *)
Lemma coord_here_malformed_x (tag body rest : str) :
  In tag [X; Y] -> no_lt body = true -> is_numeral body = false ->
  coord_here X (field tag body ++ rest) = None.
Proof.
  intros Ht Hb Hn.
  destruct Ht as [<-|[<-|[]]]; [apply coord_here_malformed; assumption|].
  rewrite X_eq, field_inside. apply free_of_head. rewrite <- field_inside.
  unfold field. apply free_of_app; [reflexivity|].
  apply free_of_app; [apply no_lt_free, Hb|reflexivity].
Qed.

Lemma coord_here_malformed_y (tag body rest : str) :
  In tag [X; Y] -> no_lt body = true -> is_numeral body = false ->
  coord_here Y (field tag body ++ rest) = None.
Proof.
  intros Ht Hb Hn.
  destruct Ht as [<-|[<-|[]]]; [|apply coord_here_malformed; assumption].
  rewrite Y_eq, field_inside. apply free_of_head. rewrite <- field_inside.
  unfold field. apply free_of_app; [reflexivity|].
  apply free_of_app; [apply no_lt_free, Hb|reflexivity].
Qed.

Lemma rewrite_content_malformed (tag body rest : str) :
  In tag [X; Y] -> no_lt body = true -> is_numeral body = false ->
  rewrite_content (field tag body ++ rest)
  = field tag body ++ rewrite_content rest.
Proof.
  intros Ht Hb Hn.
  pose proof (coord_here_malformed_x tag body rest Ht Hb Hn) as Hx.
  pose proof (coord_here_malformed_y tag body rest Ht Hb Hn) as Hy.
  rewrite field_inside in *.
  change (("<"%char :: inside tag body) ++ rest)
    with ("<"%char :: inside tag body ++ rest) in *.
  rewrite (rewrite_content_skip _ _ Hx Hy). cbn [List.app]. f_equal.
  unfold rewrite_content.
  rewrite X_eq at 1. rewrite rewrite_tag_free
    by (destruct Ht as [<-|[<-|[]]]; apply inside_free_body;
        first [exact Hb|reflexivity]).
  rewrite Y_eq at 1. rewrite rewrite_tag_free
    by (destruct Ht as [<-|[<-|[]]]; apply inside_free_body;
        first [exact Hb|reflexivity]).
  rewrite <- X_eq, <- Y_eq. reflexivity.
Qed.

(** It holds no numeral to convert. *)
Lemma fields_within_limit_malformed (tag body rest : str) :
  In tag [X; Y] -> no_lt body = true -> is_numeral body = false ->
  fields_within_limit (field tag body ++ rest) = fields_within_limit rest.
Proof.
  intros Ht Hb Hn.
  pose proof (coord_here_malformed_x tag body rest Ht Hb Hn) as Hx.
  pose proof (coord_here_malformed_y tag body rest Ht Hb Hn) as Hy.
  rewrite field_inside in *.
  change (("<"%char :: inside tag body) ++ rest)
    with ("<"%char :: inside tag body ++ rest) in *.
  unfold fields_within_limit.
  rewrite (LimitFacts.tag_within_limit_skip _ _ _ Hx).
  rewrite (LimitFacts.tag_within_limit_skip _ _ _ Hy).
  rewrite X_eq at 1. rewrite LimitFacts.tag_within_limit_free
    by (destruct Ht as [<-|[<-|[]]]; apply inside_free_body;
        first [exact Hb|reflexivity]).
  rewrite Y_eq at 1. rewrite LimitFacts.tag_within_limit_free
    by (destruct Ht as [<-|[<-|[]]]; apply inside_free_body;
        first [exact Hb|reflexivity]).
  rewrite <- X_eq, <- Y_eq. reflexivity.
Qed.

End MalformedFacts.

(** X8: a tag pair around something that is not an optional [-] and one or
    more digits (nothing, a decimal point, a plus sign, blanks; anything
    without [<]) is left as it is, and the rewriting goes on after it. *)
Theorem malformed_field_untouched (tag body rest : str) :
  In tag [X; Y] -> no_lt body = true -> is_numeral body = false ->
  transform_xml_content (field tag body ++ rest)
  = (tail <- transform_xml_content rest ;; Ok (field tag body ++ tail)).
Proof.
  intros Ht Hb Hn. rewrite !LimitFacts.transform_xml_content_limit.
  rewrite (MalformedFacts.fields_within_limit_malformed tag body rest Ht Hb Hn).
  rewrite (MalformedFacts.rewrite_content_malformed tag body rest Ht Hb Hn).
  destruct (fields_within_limit rest); reflexivity.
Qed.

(** X8 on [<X_COORD>1.5</X_COORD>] in front of a field. *)
Lemma malformed_field_untouched_witness :
  transform_xml_content (field X (lit "1.5") ++ lit "<Y_COORD>7</Y_COORD>")
  = (tail <- transform_xml_content (lit "<Y_COORD>7</Y_COORD>") ;;
     Ok (field X (lit "1.5") ++ tail)).
Proof.
  apply malformed_field_untouched; [left; reflexivity|reflexivity|reflexivity].
Defined.

Module SplitFacts.
Import TagFacts ContentFacts.

(** In text where the tag cannot open, every [<] is followed by a character
    other than [t0]. *)
Lemma free_of_occurrence (t0 : ascii) (a b : str) :
  free_of t0 (a ++ "<"%char :: b) = true ->
  exists (c : ascii) (b' : str), b = c :: b' /\ Ascii.eqb t0 c = false.
Proof.
  induction a as [|d a IH]; intros H.
  - cbn [List.app free_of] in H. rewrite Ascii.eqb_refl in H.
    destruct b as [|c b']; [discriminate H|].
    apply andb_true_iff in H as [H _]. apply negb_true_iff in H.
    exists c, b'. split; [reflexivity|exact H].
  - apply IH. apply (free_of_tail t0 d). exact H.
Qed.

Lemma inside_free_any (t0 : ascii) (tag num : str) :
  In tag [X; Y] -> Ascii.eqb t0 "/" = false -> is_numeral num = true ->
  free_of t0 (inside tag num) = true.
Proof.
  intros Ht H0 Hn.
  destruct Ht as [<-|[<-|[]]];
    (apply inside_free;
     [apply MalformedFacts.no_lt_free; reflexivity| |exact Hn]);
    unfold close_tag; cbn [free_of]; rewrite Ascii.eqb_refl, H0;
    apply MalformedFacts.no_lt_free; reflexivity.
Qed.

(** No field begins before a [<] that opens no closing tag and ends after
    it. *)
Lemma no_field_across_tag (tag : str) (c : ascii) (s w : str) :
  In tag [X; Y] -> at_opening w = true ->
  (forall num rest : str,
      is_numeral num = true -> c :: s <> field tag num ++ rest) ->
  forall num rest : str,
    is_numeral num = true -> c :: s ++ w <> field tag num ++ rest.
Proof.
  intros Ht Hw Hc num rest Hn E.
  change (c :: s ++ w) with ((c :: s) ++ w) in E.
  apply app_eq_app in E as [l [[E1 E2]|[E1 E2]]].
  - exact (Hc num l Hn E1).
  - destruct l as [|c1 l].
    + rewrite List.app_nil_r in E1. apply (Hc num [] Hn).
      rewrite List.app_nil_r. symmetry. exact E1.
    + destruct w as [|w1 [|w2 w]]; try discriminate Hw.
      cbn [at_opening] in Hw. apply andb_true_iff in Hw as [Hw1 Hw2].
      apply Ascii.eqb_eq in Hw1. subst w1. apply negb_true_iff in Hw2.
      cbn [List.app] in E2. injection E2 as <- E2.
      rewrite field_inside in E1. cbn [List.app] in E1. injection E1 as _ E1.
      pose proof (inside_free_any w2 tag num Ht Hw2 Hn) as F.
      rewrite E1 in F.
      apply free_of_occurrence in F as (c3 & l' & -> & F).
      cbn [List.app] in E2. injection E2 as <- _.
      rewrite Ascii.eqb_refl in F. discriminate F.
Qed.

Lemma no_field_across (c : ascii) (s w : str) :
  at_opening w = true ->
  (forall tag num rest : str,
      In tag [X; Y] -> is_numeral num = true ->
      c :: s <> field tag num ++ rest) ->
  forall tag num rest : str,
    In tag [X; Y] -> is_numeral num = true ->
    c :: s ++ w <> field tag num ++ rest.
Proof.
  intros Hw Hc tag num rest Ht.
  apply no_field_across_tag; [exact Ht|exact Hw|].
  intros num' rest'. apply Hc, Ht.
Qed.

(** The fields of such a document are those of its two pieces. *)
Lemma coord_here_app (tag : str) (c : ascii) (s w : str) :
  In tag [X; Y] -> at_opening w = true ->
  coord_here tag (c :: s ++ w) =
  match coord_here tag (c :: s) with
  | Some (num, rest) => Some (num, rest ++ w)
  | None => None
  end.
Proof.
  intros Ht Hw. destruct (coord_here tag (c :: s)) as [[num rest]|] eqn:E.
  - apply coord_here_inv in E as [E Hn].
    change (c :: s ++ w) with ((c :: s) ++ w).
    rewrite E, <- app_assoc. apply coord_here_field, Hn.
  - apply coord_here_None. apply no_field_across_tag; [exact Ht|exact Hw|].
    intros num rest Hn E'. rewrite E', (coord_here_field _ _ _ Hn) in E.
    discriminate E.
Qed.

Lemma tag_within_limit_app (tag pre w : str) :
  In tag [X; Y] -> at_opening w = true ->
  tag_within_limit tag (pre ++ w)
  = tag_within_limit tag pre && tag_within_limit tag w.
Proof.
  intros Ht Hw. induction pre as [|c pre IH].
  - destruct Ht as [<-|[<-|[]]]; reflexivity.
  - cbn [List.app tag_within_limit].
    rewrite (coord_here_app tag c pre w Ht Hw), IH.
    destruct (coord_here tag (c :: pre)) as [[num rest]|];
      [apply andb_assoc|reflexivity].
Qed.

Lemma fields_within_limit_app (pre w : str) :
  at_opening w = true ->
  fields_within_limit (pre ++ w)
  = fields_within_limit pre && fields_within_limit w.
Proof.
  intros Hw. unfold fields_within_limit.
  rewrite (tag_within_limit_app X pre w (or_introl eq_refl) Hw).
  rewrite (tag_within_limit_app Y pre w (or_intror (or_introl eq_refl)) Hw).
  destruct (tag_within_limit X pre); destruct (tag_within_limit X w);
    destruct (tag_within_limit Y pre); destruct (tag_within_limit Y w);
    reflexivity.
Qed.

Lemma rewritten_app (pre out w out' : str) :
  at_opening w = true ->
  rewritten pre out -> rewritten w out' -> rewritten (pre ++ w) (out ++ out').
Proof.
  intros Hw H Hw'.
  induction H as [|tag num rest rest' v Ht Hn Hv _ IH|c s s' Hc _ IH].
  - exact Hw'.
  - rewrite <- !app_assoc. apply rewritten_field; assumption.
  - cbn [List.app]. apply rewritten_char; [|exact IH].
    apply no_field_across; assumption.
Qed.

Lemma rewrite_content_app (pre w : str) :
  at_opening w = true ->
  rewrite_content (pre ++ w) = rewrite_content pre ++ rewrite_content w.
Proof.
  intros Hw. symmetry. apply rewritten_unique.
  apply rewritten_app; [exact Hw| |]; apply rewritten_rewrite_content.
Qed.

End SplitFacts.

(** X9: a document can be rewritten in pieces when it is cut in front of a
    [<] that does not begin a closing tag: rewriting the whole gives the
    rewritten first piece followed by the rewritten second piece. *)
Theorem transform_xml_content_app (pre w : str) :
  at_opening w = true ->
  transform_xml_content (pre ++ w)
  = (head <- transform_xml_content pre ;;
     tail <- transform_xml_content w ;;
     Ok (head ++ tail)).
Proof.
  intros Hw. rewrite !LimitFacts.transform_xml_content_limit.
  rewrite (SplitFacts.fields_within_limit_app pre w Hw).
  rewrite (SplitFacts.rewrite_content_app pre w Hw).
  destruct (fields_within_limit pre); destruct (fields_within_limit w);
    reflexivity.
Qed.

(** X9 on a document cut between its two fields. *)
Lemma transform_xml_content_app_witness :
  transform_xml_content
    (lit "<X_COORD>23</X_COORD>" ++ lit "<Y_COORD>10</Y_COORD>")
  = (head <- transform_xml_content (lit "<X_COORD>23</X_COORD>") ;;
     tail <- transform_xml_content (lit "<Y_COORD>10</Y_COORD>") ;;
     Ok (head ++ tail)).
Proof.
  apply transform_xml_content_app. reflexivity.
Defined.

(** * Further properties of the batch driver *)

Module NameFacts.



End NameFacts.

Section BatchDriverMore.

Variable world : Type.
Variable mkdir : str -> world -> result unit * world.
Variable glob_xml : str -> world -> result (list str) * world.
Variable read_text : str -> str -> world -> result str * world.
Variable write_text : str -> str -> str -> world -> result unit * world.


(** X11: the batch driver ends before its loop in three ways.  An exception
    of [mkdir] or of [glob] leaves [process_xml_files] and nothing is
    printed.  When no file is listed, the only line printed is that no file
    was found: no file is read or written and no completion line follows. *)
Theorem process_xml_files_early_exits (input_dir output_dir : str)
    (st : Batch.state world) :
  (forall (e : exn) (w : world),
      mkdir output_dir (Batch.the_world st) = (Raise e, w) ->
      Batch.process_xml_files world mkdir glob_xml read_text write_text
        input_dir output_dir st
      = (Raise e, Batch.mkState w (Batch.console st))) /\
  (forall (e : exn) (w0 w : world),
      mkdir output_dir (Batch.the_world st) = (Ok tt, w0) ->
      glob_xml input_dir w0 = (Raise e, w) ->
      Batch.process_xml_files world mkdir glob_xml read_text write_text
        input_dir output_dir st
      = (Raise e, Batch.mkState w (Batch.console st))) /\
  (forall w0 w : world,
      mkdir output_dir (Batch.the_world st) = (Ok tt, w0) ->
      glob_xml input_dir w0 = (Ok [], w) ->
      Batch.process_xml_files world mkdir glob_xml read_text write_text
        input_dir output_dir st
      = (Ok tt,
         Batch.mkState w
           (Batch.console st ++ [Batch.NoFilesFound input_dir]))).
Proof.
  unfold Batch.process_xml_files, Batch.bindM, Batch.on_world, Batch.print.
  split; [|split].
  - intros e w H. rewrite H. reflexivity.
  - intros e w0 w H1 H2. rewrite H1. cbn [Batch.the_world Batch.console].
    rewrite H2. reflexivity.
  - intros w0 w H1 H2. rewrite H1. cbn [Batch.the_world Batch.console].
    rewrite H2. reflexivity.
Qed.

End BatchDriverMore.


(** The whole run on that directory: the failure is reported, nothing is
    written, and the completion line is printed. *)
Example big_disk_outcome :
  Batch.process_xml_files Batch.disk Batch.disk_mkdir Batch.disk_glob
    Batch.disk_read Batch.disk_write (lit "in") (lit "out")
    (Batch.mkState Batch.big_disk [])
  = (Ok tt,
     Batch.mkState Batch.big_disk
       [ Batch.Found 1;
         Batch.Failed (lit "big-1-2.xml") Py.limit_exceeded;
         Batch.Completed (lit "out") ]).
Proof.
  vm_compute. reflexivity.
Qed.

(** X11 on an empty input directory. *)
Lemma process_xml_files_early_exits_witness :
  Batch.process_xml_files Batch.disk Batch.disk_mkdir Batch.disk_glob
    Batch.disk_read Batch.disk_write (lit "in") (lit "out")
    (Batch.mkState (Batch.mkDisk [] []) [])
  = (Ok tt,
     Batch.mkState (Batch.mkDisk [] [])
       ([] ++ [Batch.NoFilesFound (lit "in")])).
Proof.
  apply (proj2 (proj2 (process_xml_files_early_exits Batch.disk
                         Batch.disk_mkdir Batch.disk_glob Batch.disk_read
                         Batch.disk_write (lit "in") (lit "out")
                         (Batch.mkState (Batch.mkDisk [] []) [])))
           (Batch.mkDisk [] []) (Batch.mkDisk [] []));
    reflexivity.
Defined.

(** * Names the file-name rewriter no longer reads *)

Module StuckFacts.
Import ReFacts FilenameFacts.

Lemma forallb_rev {A : Type} (f : A -> bool) (l : list A) :
  forallb f (List.rev l) = forallb f l.
Proof.
  induction l as [|a l IH]; [reflexivity|].
  cbn [List.rev forallb]. rewrite forallb_app, IH. cbn [forallb].
  rewrite andb_true_r. apply andb_comm.
Qed.

Lemma rev_suffixed (p a b e : str) :
  List.rev (suffixed p a b e) =
  List.rev e ++ List.rev (lit ".xml") ++ List.rev b
    ++ "-"%char :: List.rev a ++ "-"%char :: List.rev p.
Proof.
  unfold suffixed.
  change ("-"%char :: a ++ "-"%char :: b ++ lit ".xml" ++ e)
    with (["-"%char] ++ a ++ ["-"%char] ++ b ++ lit ".xml" ++ e).
  rewrite !List.rev_app_distr. cbn [List.rev List.app]. rewrite <- !app_assoc.
  reflexivity.
Qed.

(** A name whose second run of digits has a dash in front of its dash
    matches the pattern nowhere. *)
Lemma suffix_anywhere_double_dash (p a zy : str) :
  is_digits zy = true ->
  suffix_anywhere (suffixed p a ("-"%char :: zy) []) = false.
Proof.
  intros Hzy.
  destruct (suffix_anywhere (suffixed p a ("-"%char :: zy) [])) eqn:E;
    [exfalso|reflexivity].
  apply suffix_anywhere_inv in E as (p' & a' & b' & e & E & Ha & Hb & He).
  apply (f_equal (@List.rev ascii)) in E. rewrite !rev_suffixed in E.
  apply is_digits_spec in Hzy as [_ Dzy].
  apply is_digits_spec in Ha as [Na Da]. apply is_digits_spec in Hb as [_ Db].
  destruct e as [|c [|c' e]]; [| |discriminate He].
  - cbn [List.rev List.app] in E. injection E as E.
    rewrite <- app_assoc in E. cbn [List.app] in E.
    apply (f_equal span_digits) in E.
    rewrite (span_digits_app (List.rev zy)) in E;
      [|rewrite forallb_rev; exact Dzy|reflexivity].
    rewrite (span_digits_app (List.rev b')) in E;
      [|rewrite forallb_rev; exact Db|reflexivity].
    injection E as _ E.
    destruct (List.rev a') as [|d r] eqn:R.
    + apply (f_equal (@List.rev ascii)) in R. rewrite List.rev_involutive in R.
      contradiction.
    + cbn [List.app] in E. injection E as <- _.
      rewrite <- (forallb_rev Py.is_digit a'), R in Da. discriminate Da.
  - cbn [at_end] in He. apply Ascii.eqb_eq in He. subst c.
    cbn [List.rev List.app] in E. discriminate E.
Qed.

End StuckFacts.

(** X12: when the second coordinate is above 25, the rewritten name has a
    sign in front of its second field and no longer ends in the suffix: the
    file-name rewriter applied again returns it unchanged, whatever the
    first coordinate.  Both coordinates have at most 4300 digits. *)
Theorem rename_twice_second_beyond_25 (p : str) (x y : Z) :
  0 <= x -> 25 < y ->
  (size x <= Py.max_str_digits)%nat -> (size y <= Py.max_str_digits)%nat ->
  rename_twice (padded_name p x y)
  = Ok (padded_name p (transform_coordinate x) (transform_coordinate y)).
Proof.
  intros Hx Hy Sx Sy. unfold rename_twice, padded_name.
  rewrite !FilenameFacts.suffixed_rebuilt.
  destruct (PyFacts.padded_03d_nonneg x) as [Dx Mx]; [lia|].
  destruct (PyFacts.padded_03d_nonneg y) as [Dy My]; [lia|].
  rewrite (FilenameFacts.transform_filename_suffixed p _ _ [] x y
             Dx Dy eq_refl Mx My
             (padded_03d_within x Hx Sx)
             (padded_03d_within y ltac:(lia) Sy)).
  rewrite bind_ok.
  apply FilenameFacts.transform_filename_fallback.
  assert (N : transform_coordinate y < 0)
    by (unfold transform_coordinate; lia).
  rewrite (PyFacts.padded_03d_neg _ N).
  apply StuckFacts.suffix_anywhere_double_dash.
  apply PyFacts.is_digits_zero_fill.
Qed.

(** X12 on the coordinates 10 and 40: [a-010-040.xml] becomes
    [a-015--15.xml] and stays so. *)
Lemma rename_twice_second_beyond_25_witness :
  rename_twice (padded_name (lit "a") 10 40)
  = Ok (padded_name (lit "a") (transform_coordinate 10)
          (transform_coordinate 40)).
Proof.
  apply rename_twice_second_beyond_25;
    [lia|lia|vm_compute; lia|vm_compute; lia].
Defined.

(** * The values of the coordinates *)

Module CoordinateFacts.
Import TagFacts ContentFacts.

Lemma coordinates_free (w t : str) :
  free_of "X" w = true -> free_of "Y" w = true ->
  coordinates (w ++ t) = coordinates t.
Proof.
  induction w as [|c w IH]; intros Hx Hy; [reflexivity|].
  change ((c :: w) ++ t) with (c :: w ++ t). cbn [coordinates].
  rewrite X_eq, (free_of_head "X" (lit "_COORD") c w t Hx).
  rewrite Y_eq, (free_of_head "Y" (lit "_COORD") c w t Hy).
  apply IH; [apply (free_of_tail _ c), Hx|apply (free_of_tail _ c), Hy].
Qed.

Lemma coordinates_field (tag num t : str) (v : Z) :
  In tag [X; Y] -> is_numeral num = true -> Py.int_unlimited num = Ok v ->
  coordinates (field tag num ++ t) = (tag, v) :: coordinates t.
Proof.
  intros Ht Hn Hv.
  assert (Hstep :
    coordinates (field tag num ++ t) =
    match coord_here X (field tag num ++ t),
          coord_here Y (field tag num ++ t) with
    | Some (n, _), _ => [(X, value_of n)]
    | None, Some (n, _) => [(Y, value_of n)]
    | None, None => []
    end ++ coordinates (inside tag num ++ t)) by reflexivity.
  rewrite Hstep.
  rewrite (coordinates_free (inside tag num) t)
    by (destruct Ht as [<-|[<-|[]]]; apply inside_free;
        first [exact Hn|reflexivity]).
  destruct Ht as [<-|[<-|[]]].
  - rewrite (coord_here_field X num t Hn).
    rewrite (LimitFacts.value_of_int _ _ Hv). reflexivity.
  - assert (HX : coord_here X (field Y num ++ t) = None).
    { rewrite X_eq, field_inside. apply free_of_head.
      rewrite <- field_inside.
      apply field_free; [reflexivity|reflexivity|exact Hn]. }
    rewrite HX, (coord_here_field Y num t Hn).
    rewrite (LimitFacts.value_of_int _ _ Hv). reflexivity.
Qed.

Lemma coordinates_rewrite_content (s : str) :
  coordinates (rewrite_content s) = map transform_tagged (coordinates s).
Proof.
  remember (length s) as n eqn:Hn. revert s Hn.
  induction n as [n IH] using lt_wf_ind. intros s ->.
  destruct s as [|c s]; [reflexivity|].
  destruct (coord_here X (c :: s)) as [[num rest]|] eqn:Ex.
  - pose proof Ex as E. apply coord_here_inv in E as [E Hn].
    destruct (ReFacts.int_numeral num Hn) as [v Hv].
    rewrite (rewrite_content_x _ _ _ _ Ex Hv), E.
    rewrite (coordinates_field X _ _ (transform_coordinate v)
               (or_introl eq_refl) (PyFacts.is_numeral_decimal _)
               (PyFacts.int_unlimited_decimal _)).
    rewrite (coordinates_field X num rest v (or_introl eq_refl) Hn Hv).
    cbn [map]. f_equal.
    apply (IH (length rest)); [rewrite E; apply field_length|reflexivity].
  - destruct (coord_here Y (c :: s)) as [[num rest]|] eqn:Ey.
    + pose proof Ey as E. apply coord_here_inv in E as [E Hn].
      destruct (ReFacts.int_numeral num Hn) as [v Hv].
      rewrite (rewrite_content_y _ _ _ _ Ey Hv), E.
      rewrite (coordinates_field Y _ _ (transform_coordinate v)
                 (or_intror (or_introl eq_refl))
                 (PyFacts.is_numeral_decimal _)
                 (PyFacts.int_unlimited_decimal _)).
      rewrite (coordinates_field Y num rest v
                 (or_intror (or_introl eq_refl)) Hn Hv).
      cbn [map]. f_equal.
      apply (IH (length rest)); [rewrite E; apply field_length|reflexivity].
    + rewrite (rewrite_content_skip _ _ Ex Ey). cbn [coordinates].
      rewrite (coord_here_rewrite_content_None X c s (or_introl eq_refl) Ex).
      rewrite (coord_here_rewrite_content_None Y c s
                 (or_intror (or_introl eq_refl)) Ey).
      rewrite Ex, Ey. cbn [List.app].
      apply (IH (length s)); [simpl; lia|reflexivity].
Qed.

End CoordinateFacts.

(** X13: the coordinates of what the content rewriter returns, when it
    returns, are the coordinates of the input, each with the same tag and in
    the same order, with the coordinate transformer applied to its value. *)
Theorem transform_xml_content_coordinates (s out : str) :
  transform_xml_content s = Ok out ->
  coordinates out = map transform_tagged (coordinates s).
Proof.
  intros H. apply LimitFacts.transform_xml_content_ok in H as [_ ->].
  apply CoordinateFacts.coordinates_rewrite_content.
Qed.

(** X13 on a document with two fields. *)
Lemma transform_xml_content_coordinates_witness :
  transform_xml_content
    (lit "<r><X_COORD>23</X_COORD> <Y_COORD>-10</Y_COORD></r>")
  = Ok (lit "<r><X_COORD>2</X_COORD> <Y_COORD>35</Y_COORD></r>") /\
  coordinates (lit "<r><X_COORD>2</X_COORD> <Y_COORD>35</Y_COORD></r>")
  = map transform_tagged
      (coordinates (lit "<r><X_COORD>23</X_COORD> <Y_COORD>-10</Y_COORD></r>")).
Proof.
  split; [reflexivity|].
  apply transform_xml_content_coordinates. reflexivity.
Defined.
